(** * SoulForge core: memory store, mood engine, personality model, Soul

    A shallow embedding of [src/memory-system.ts], [src/mood-engine.ts],
    [src/personality-system.ts] and [src/soul.ts], with the properties of
    the specification stated over it.

    Modelling conventions.
    - A JavaScript [number] is a rational ([Q]): arithmetic is exact, there
      is no rounding, and the only non-finite value that the modelled code
      can produce (the [0/0] of [getStats]) is modelled by [Js.jsnum].
    - A JavaScript string is a [string] with one character per UTF-16
      code unit, for code units from 0 to 255 (the Latin-1 range);
      [toLowerCase] folds the letters A-Z and the Latin-1 capitals
      U+00C0-U+00D6 and U+00D8-U+00DE, which are all the characters of
      this range that JavaScript's [toLowerCase] changes.
    - [uuidv4()] and [new Date()] are inputs of the operations that call
      them: an identifier ([nat]) and a time in milliseconds ([Z]).
    - The [Map] of the memory store is an association list in insertion
      order, as iteration over a JavaScript [Map] is.
    - Capacities and counts are natural numbers.
    - [Math.random()] is an input of the operations that call it.
    - Left out, since no modelled operation reads them: the mood
      transition table of the mood engine, the question-word score of
      [analyzeEmotionalImpact], and the reporting functions
      [getPersonalityDescription] and [getStatus]. *)

From Stdlib Require Import QArith Qminmax Qround Qabs Lqa ZArith List String Ascii Bool Lia.
From Stdlib Require Import Sorting.Sorted Sorting.Permutation.
Import ListNotations.

Set Implicit Arguments.

(* ================================================================= *)
(** * JavaScript primitives used by the sources *)

Module Js.

Open Scope Q_scope.

(** [a > b], [a < b], [a >= b] on numbers. *)
Definition gtb (a b : Q) : bool := negb (Qle_bool a b).
Definition ltb (a b : Q) : bool := negb (Qle_bool b a).
Definition geb (a b : Q) : bool := Qle_bool b a.

(** [Math.max], [Math.min]. *)
Definition Math_max (a b : Q) : Q := Qmax a b.
Definition Math_min (a b : Q) : Q := Qmin a b.

(** [Math.round]: nearest integer, halves towards plus infinity. *)
Definition Math_round (x : Q) : Z := Qfloor (x + (1 # 2)).

(** The result of a division whose divisor may be zero. *)
Inductive jsnum : Type :=
| JNaN : jsnum
| JInf : bool -> jsnum          (* [true] is +Infinity *)
| JFin : Q -> jsnum.

Definition div (a b : Q) : jsnum :=
  if Qeq_bool b 0 then
    if Qeq_bool a 0 then JNaN else JInf (gtb a 0)
  else JFin (a / b).

(** [x || 0]: [NaN] and [0] are falsy. *)
Definition or_zero (x : jsnum) : jsnum :=
  match x with
  | JNaN => JFin 0
  | JInf s => JInf s
  | JFin q => if Qeq_bool q 0 then JFin 0 else JFin q
  end.

Definition round (x : jsnum) : jsnum :=
  match x with
  | JFin q => JFin (inject_Z (Math_round q))
  | other => other
  end.

(** Strings.  [lower_char] is [toLowerCase] on one character of the
    Latin-1 range: A-Z (65-90) and the capitals 192-214 and 216-222 move
    32 places up; the multiplication sign (215) and every other
    character stay. *)
Definition lower_char (c : ascii) : ascii :=
  let n := nat_of_ascii c in
  if ((65 <=? n)%nat && (n <=? 90)%nat)
     || ((192 <=? n)%nat && (n <=? 222)%nat && negb (n =? 215)%nat)
  then ascii_of_nat (n + 32) else c.

Fixpoint toLowerCase (s : string) : string :=
  match s with
  | EmptyString => EmptyString
  | String c s' => String (lower_char c) (toLowerCase s')
  end.

(** [s.includes(q)]. *)
Fixpoint includes (s q : string) : bool :=
  prefix q s ||
  match s with
  | EmptyString => false
  | String _ s' => includes s' q
  end.

(** A string is truthy when it is not empty. *)
Definition truthy (s : string) : bool :=
  match s with EmptyString => false | _ => true end.

Definition of_nat (n : nat) : Q := inject_Z (Z.of_nat n).

Definition str_length (s : string) : Q := of_nat (String.length s).

(** Arrays. *)
Section Arrays.
Context {A : Type}.

(** [a.slice(-n)]; [-0] is [0], so [a.slice(-0)] is the whole array. *)
Definition slice_last (n : nat) (a : list A) : list A :=
  match n with
  | O => a
  | _ => skipn (List.length a - n) a
  end.

(** [a.slice(0, k)]; a negative [k] counts from the end. *)
Definition slice_to (k : Z) (a : list A) : list A :=
  if (k <? 0)%Z
  then firstn (Z.to_nat (Z.of_nat (List.length a) + k)) a
  else firstn (Z.to_nat k) a.

(** [a.splice(n)]: what stays in [a], and what is removed. *)
Definition splice (n : nat) (a : list A) : list A * list A :=
  (firstn n a, skipn n a).

(** [a.sort(cmp)] for a comparator that orders by a numeric key,
    descending ([(x, y) => key(y) - key(x)]); the sort is stable. *)
Fixpoint insert_desc (key : A -> Q) (x : A) (a : list A) : list A :=
  match a with
  | [] => [x]
  | y :: a' => if geb (key x) (key y) then x :: y :: a'
               else y :: insert_desc key x a'
  end.

Definition sort_desc (key : A -> Q) (a : list A) : list A :=
  fold_right (insert_desc key) [] a.

(** A list whose keys never increase from left to right. *)
Definition descending (key : A -> Q) : list A -> Prop :=
  StronglySorted (fun a b => key b <= key a).
End Arrays.

End Js.

(* ================================================================= *)
(** * [src/types.ts] *)

Inductive MoodState : Type :=
| joyful | content | neutral | melancholic | anxious
| excited | calm | frustrated | curious | contemplative.

Definition MoodState_eqb (a b : MoodState) : bool :=
  match a, b with
  | joyful, joyful | content, content | neutral, neutral
  | melancholic, melancholic | anxious, anxious | excited, excited
  | calm, calm | frustrated, frustrated | curious, curious
  | contemplative, contemplative => true
  | _, _ => false
  end.

Definition MoodState_name (m : MoodState) : string :=
  match m with
  | joyful => "joyful" | content => "content" | neutral => "neutral"
  | melancholic => "melancholic" | anxious => "anxious"
  | excited => "excited" | calm => "calm" | frustrated => "frustrated"
  | curious => "curious" | contemplative => "contemplative"
  end.

Record EmotionalState : Type := mkEmotionalState {
  mood : MoodState;
  energy : Q;
  stress : Q;
  confidence : Q;
  socialBattery : Q
}.

Inductive ThoughtType : Type :=
| reflection | decision | observation | planning | emotion.

Record Thought : Type := mkThought {
  thought_id : nat;
  thought_content : string;
  thought_type : ThoughtType;
  thought_timestamp : Z;
  thought_triggers : option (list string)
}.

Inductive MemoryType : Type := episodic | semantic | procedural | emotional.

Record Memory : Type := mkMemory {
  mem_id : nat;
  mem_content : string;
  mem_type : MemoryType;
  importance : Q;
  emotional_weight : Q;
  timestamp : Z;
  tags : list string;
  associations : list nat
}.

Record BigFiveTraits : Type := mkBigFive {
  openness : Q;
  conscientiousness : Q;
  extraversion : Q;
  agreeableness : Q;
  neuroticism : Q
}.

Record PersonalityConfig : Type := mkPersonalityConfig {
  bigFive : option BigFiveTraits;
  mbti : option string;
  temperament : option string;
  archetype : option string
}.

Record HistoryEntry : Type := mkHistoryEntry {
  speaker : string;
  message : string;
  entry_timestamp : Z;
  emotionalResponse : option string
}.

Record ConversationContext : Type := mkContext {
  participantId : string;
  participantName : string;
  relationship : string;
  history : list HistoryEntry
}.

Record Identity : Type := mkIdentity {
  name : string;
  role : string
}.

(* ================================================================= *)
(** * [src/mood-engine.ts] *)

Module MoodEngine.

Import Js.
Open Scope Q_scope.

Inductive StimulusType : Type := positive | negative | neutral_stimulus.

Record Stimulus : Type := mkStimulus {
  stimulus_type : StimulusType;
  intensity : Q;
  context : option string
}.

Record t : Type := mk {
  emotionalState : EmotionalState;
  thoughts : list Thought;
  moodHistory : list (MoodState * Z)
}.

(** [recordMoodChange]. *)
Definition recordMoodChange (now : Z) (m : MoodState) (me : t) : t :=
  let h := moodHistory me ++ [(m, now)] in
  mk (emotionalState me) (thoughts me)
     (if (200 <? List.length h)%nat then slice_last 100 h else h).

(** The constructor. *)
Definition new (now : Z) (initialMood : MoodState) : t :=
  recordMoodChange now initialMood
    (mk (mkEmotionalState initialMood 70 20 60 80) [] []).

(** [moveToward]. *)
Definition moveToward (current target step : Q) : Q :=
  if ltb current target then Math_min target (current + step)
  else if gtb current target then Math_max target (current - step)
  else current.

(** [calculateMoodFromState]. *)
Definition calculateMoodFromState (es : EmotionalState) : MoodState :=
  if gtb (stress es) 70 then
    (if gtb (energy es) 60 then anxious else frustrated)
  else if ltb (energy es) 30 then
    (if gtb (stress es) 40 then melancholic else contemplative)
  else if gtb (energy es) 80 && ltb (stress es) 30 then
    (if gtb (confidence es) 70 then joyful else excited)
  else if gtb (confidence es) 70 && ltb (stress es) 40 then
    (if gtb (energy es) 60 then content else calm)
  else if gtb (socialBattery es) 70 && gtb (confidence es) 50
          && ltb (confidence es) 80 then curious
  else neutral.

(** [addThought]; the new thought is also the return value. *)
Definition addThought (tid : nat) (now : Z) (text : string)
    (ty : ThoughtType) (triggers : option (list string)) (me : t) : t :=
  let ts := thoughts me ++ [mkThought tid text ty now triggers] in
  mk (emotionalState me)
     (if (100 <? List.length ts)%nat then slice_last 50 ts else ts)
     (moodHistory me).

Definition set_state (es : EmotionalState) (me : t) : t :=
  mk es (thoughts me) (moodHistory me).

(** The first half of [updateMood]: the [switch] over the stimulus type. *)
Definition adjust (s : Stimulus) (es : EmotionalState) : EmotionalState :=
  match stimulus_type s with
  | positive =>
      mkEmotionalState (mood es)
        (Math_min 100 (energy es + intensity s * 0.3))
        (Math_max 0 (stress es - intensity s * 0.2))
        (Math_min 100 (confidence es + intensity s * 0.25))
        (socialBattery es)
  | negative =>
      mkEmotionalState (mood es)
        (Math_max 0 (energy es - intensity s * 0.2))
        (Math_min 100 (stress es + intensity s * 0.4))
        (Math_max 0 (confidence es - intensity s * 0.15))
        (socialBattery es)
  | neutral_stimulus =>
      mkEmotionalState (mood es)
        (moveToward (energy es) 70 5)
        (moveToward (stress es) 20 5)
        (moveToward (confidence es) 60 3)
        (socialBattery es)
  end.

Definition with_mood (m : MoodState) (es : EmotionalState) : EmotionalState :=
  mkEmotionalState m (energy es) (stress es) (confidence es) (socialBattery es).

Definition context_truthy (c : option string) : bool :=
  match c with Some s => truthy s | None => false end.

(** [updateMood]; [tid] is the identifier drawn if a thought is added. *)
Definition updateMood (tid : nat) (now : Z) (s : Stimulus) (me : t) : t :=
  let es := adjust s (emotionalState me) in
  let newMood := calculateMoodFromState es in
  if MoodState_eqb newMood (mood es) then set_state es me
  else
    let me1 := recordMoodChange now newMood (set_state (with_mood newMood es) me) in
    let because :=
      match context s with
      | Some c => if truthy c then (" because of " ++ c)%string else EmptyString
      | None => EmptyString
      end in
    let triggers :=
      "mood_change"%string ::
      match context s with
      | Some c => if truthy c then [c] else []
      | None => []
      end in
    addThought tid now
      ("I'm feeling " ++ MoodState_name newMood ++ " now" ++ because ++ ".")%string
      emotion (Some triggers) me1.

Definition getCurrentMood (me : t) : MoodState := mood (emotionalState me).

(** [adjustSocialBattery]. *)
Definition adjustSocialBattery (change : Q) (me : t) : t :=
  let es := emotionalState me in
  set_state (mkEmotionalState (mood es) (energy es) (stress es) (confidence es)
               (Math_max 0 (Math_min 100 (socialBattery es + change)))) me.

(** [simulateTimePassage]. *)
Definition simulateTimePassage (now : Z) (minutes : Q) (me : t) : t :=
  let es0 := emotionalState me in
  let es := mkEmotionalState (mood es0)
              (Math_max 0 (energy es0 - minutes * 0.1))
              (Math_max 0 (stress es0 - minutes * 0.05))
              (confidence es0)
              (Math_min 100 (socialBattery es0 + minutes * 0.2)) in
  let newMood := calculateMoodFromState es in
  if MoodState_eqb newMood (mood es) then set_state es me
  else recordMoodChange now newMood (set_state (with_mood newMood es) me).

(** [getRecentThoughts]. *)
Definition getRecentThoughts (count : nat) (me : t) : list Thought :=
  slice_last count (thoughts me).

(** [generateThoughtContent]; [rnd] is the value of [Math.random()]. *)
Definition thoughtTemplates (m : MoodState) : list string :=
  match m with
  | joyful =>
      ["I'm feeling really good about things right now.";
       "This is turning out better than I expected.";
       "I have a good feeling about what's coming next."]
  | content =>
      ["Things seem to be going well.";
       "I'm satisfied with how this is progressing.";
       "There's a nice balance to everything right now."]
  | neutral =>
      ["Let me think about this carefully.";
       "I wonder what the best approach would be.";
       "There are several ways to look at this."]
  | melancholic =>
      ["I'm not sure this is going the way I hoped.";
       "Sometimes things don't work out as planned.";
       "I need to process what just happened."]
  | anxious =>
      ["I hope this goes well.";
       "There are so many variables to consider.";
       "I should prepare for different possibilities."]
  | excited =>
      ["This is really interesting!";
       "I can't wait to see what happens next.";
       "The possibilities here are fascinating."]
  | calm =>
      ["Everything feels peaceful right now.";
       "I can think clearly about this.";
       "There's no rush to decide."]
  | frustrated =>
      ["This isn't working the way it should.";
       "I need to find a different approach.";
       "Why is this so complicated?"]
  | curious =>
      ["I wonder what would happen if...";
       "That's an interesting perspective.";
       "I'd like to understand this better."]
  | contemplative =>
      ["There's something deeper to consider here.";
       "I should reflect on what this means.";
       "The implications of this are worth thinking about."]
  end%string.

Definition generateThoughtContent (rnd : Q) (me : t) : option (string * ThoughtType) :=
  let templates := thoughtTemplates (mood (emotionalState me)) in
  match templates with
  | [] => None
  | _ =>
      let index :=
        Z.to_nat (Qfloor (rnd * inject_Z (Z.of_nat (List.length templates)))) in
      let randomTemplate := nth index templates EmptyString in
      let ty :=
        if includes randomTemplate "wonder" || includes randomTemplate "interesting"
        then observation
        else if includes randomTemplate "should" || includes randomTemplate "need to"
        then planning
        else if includes randomTemplate "feeling" || includes randomTemplate "I'm"
        then emotion
        else reflection in
      Some (randomTemplate, ty)
  end.

(** [generateInternalMonologue]: the engine after the call and the
    thought, if one was generated. *)
Definition generateInternalMonologue (tid : nat) (now : Z) (rnd : Q) (me : t)
    : t * option Thought :=
  let tooSoon :=
    match last (map Some (thoughts me)) None with
    | Some lastThought => (now - thought_timestamp lastThought <? 30000)%Z
    | None => false
    end in
  if tooSoon then (me, None)
  else
    match generateThoughtContent rnd me with
    | Some (text, ty) =>
        (addThought tid now text ty None me, Some (mkThought tid text ty now None))
    | None => (me, None)
    end.

(** The documented bounds of the four scalars of an emotional state. *)
Definition scalars_in_range (es : EmotionalState) : Prop :=
  0 <= energy es <= 100 /\ 0 <= stress es <= 100
  /\ 0 <= confidence es <= 100 /\ 0 <= socialBattery es <= 100.

(** The decision table of the specification, read rule by rule: each
    rule is a guard and the mood it yields; the first rule whose guard
    holds decides, and [neutral] is the default. *)
Definition spec_rules (e s c sb : Q) : list (bool * MoodState) :=
  [ (gtb s 70, if gtb e 60 then anxious else frustrated);
    (ltb e 30, if gtb s 40 then melancholic else contemplative);
    (gtb e 80 && ltb s 30, if gtb c 70 then joyful else excited);
    (gtb c 70 && ltb s 40, if gtb e 60 then content else calm);
    (gtb sb 70 && (ltb 50 c && ltb c 80), curious) ].

Fixpoint first_rule (rules : list (bool * MoodState)) (default : MoodState)
    : MoodState :=
  match rules with
  | [] => default
  | (guard, m) :: rest => if guard then m else first_rule rest default
  end.

Definition spec_classify (e s c sb : Q) : MoodState :=
  first_rule (spec_rules e s c sb) neutral.

(** [getThoughtsByType]. *)
Definition ThoughtType_eqb (a b : ThoughtType) : bool :=
  match a, b with
  | reflection, reflection | decision, decision | observation, observation
  | planning, planning | emotion, emotion => true
  | _, _ => false
  end.

Definition getThoughtsByType (ty : ThoughtType) (me : t) : list Thought :=
  filter (fun th => ThoughtType_eqb (thought_type th) ty) (thoughts me).

(** The soft caps of the two buffers; the mood history is never empty,
    since the constructor records the initial mood. *)
Definition buffers_bounded (me : t) : Prop :=
  (List.length (thoughts me) <= 100)%nat
  /\ (1 <= List.length (moodHistory me) <= 200)%nat.

(** The operations of the engine; stimulus intensities and minutes are
    not negative. *)
Inductive step : t -> t -> Prop :=
| step_updateMood (tid : nat) (now : Z) (s : Stimulus) (me : t) :
    0 <= intensity s -> step me (updateMood tid now s me)
| step_adjustSocialBattery (change : Q) (me : t) :
    step me (adjustSocialBattery change me)
| step_simulateTimePassage (now : Z) (minutes : Q) (me : t) :
    0 <= minutes -> step me (simulateTimePassage now minutes me)
| step_addThought (tid : nat) (now : Z) (text : string) (ty : ThoughtType)
    (triggers : option (list string)) (me : t) :
    step me (addThought tid now text ty triggers me)
| step_generateInternalMonologue (tid : nat) (now : Z) (rnd : Q) (me : t) :
    step me (fst (generateInternalMonologue tid now rnd me)).

Inductive reachable : t -> Prop :=
| reachable_new (now : Z) (initialMood : MoodState) : reachable (new now initialMood)
| reachable_step (me me' : t) : reachable me -> step me me' -> reachable me'.

(** A sequence of [updateMood] calls: each call with the identifier and
    the time it draws. *)
Record MoodCall : Type := mkMoodCall {
  call_tid : nat;
  call_now : Z;
  call_stimulus : Stimulus
}.

Definition updateMood_all (calls : list MoodCall) (me : t) : t :=
  fold_left (fun me c => updateMood (call_tid c) (call_now c) (call_stimulus c) me)
            calls me.

Definition is_neutral (c : MoodCall) : Prop :=
  stimulus_type (call_stimulus c) = neutral_stimulus.


End MoodEngine.

(* ================================================================= *)
(** * [src/personality-system.ts] *)

Inductive Trait : Type :=
| Openness | Conscientiousness | Extraversion | Agreeableness | Neuroticism.

Definition Trait_eqb (a b : Trait) : bool :=
  match a, b with
  | Openness, Openness | Conscientiousness, Conscientiousness
  | Extraversion, Extraversion | Agreeableness, Agreeableness
  | Neuroticism, Neuroticism => true
  | _, _ => false
  end.

(** [bigFive[trait]] and [bigFive[trait] = v]. *)
Definition get_trait (t : Trait) (b : BigFiveTraits) : Q :=
  match t with
  | Openness => openness b
  | Conscientiousness => conscientiousness b
  | Extraversion => extraversion b
  | Agreeableness => agreeableness b
  | Neuroticism => neuroticism b
  end.

Definition set_trait (t : Trait) (v : Q) (b : BigFiveTraits) : BigFiveTraits :=
  match t with
  | Openness =>
      mkBigFive v (conscientiousness b) (extraversion b) (agreeableness b) (neuroticism b)
  | Conscientiousness =>
      mkBigFive (openness b) v (extraversion b) (agreeableness b) (neuroticism b)
  | Extraversion =>
      mkBigFive (openness b) (conscientiousness b) v (agreeableness b) (neuroticism b)
  | Agreeableness =>
      mkBigFive (openness b) (conscientiousness b) (extraversion b) v (neuroticism b)
  | Neuroticism =>
      mkBigFive (openness b) (conscientiousness b) (extraversion b) (agreeableness b) v
  end.

(** A [Partial<BigFiveTraits>] object: its entries, in insertion order.
    The keys of an object are distinct. *)
Definition TraitChanges : Type := list (Trait * Q).

Fixpoint changes_lookup (t : Trait) (c : TraitChanges) : option Q :=
  match c with
  | [] => None
  | (k, v) :: c' => if Trait_eqb t k then Some v else changes_lookup t c'
  end.

(** [obj[k] = v] on such an object. *)
Fixpoint changes_set (t : Trait) (v : Q) (c : TraitChanges) : TraitChanges :=
  match c with
  | [] => [(t, v)]
  | (k, w) :: c' =>
      if Trait_eqb t k then (k, v) :: c' else (k, w) :: changes_set t v c'
  end.

Fixpoint changes_has (t : Trait) (c : TraitChanges) : bool :=
  match c with
  | [] => false
  | (k, _) :: c' => Trait_eqb t k || changes_has t c'
  end.

(** The keys of the object are pairwise distinct. *)
Fixpoint changes_distinct (c : TraitChanges) : bool :=
  match c with
  | [] => true
  | (k, _) :: c' => negb (changes_has k c') && changes_distinct c'
  end.

Module PersonalitySystem.

Import Js.
Open Scope Q_scope.

Record t : Type := mk {
  config : PersonalityConfig;
  adaptationRate : Q
}.

Definition getDefaultBigFive : BigFiveTraits := mkBigFive 60 65 45 70 35.

(** [x || d] on an optional string. *)
Definition str_or (x : option string) (d : string) : string :=
  match x with
  | Some s => if truthy s then s else d
  | None => d
  end.

(** The constructor; [adaptationRate] defaults to 5 at the call sites. *)
Definition new (c : PersonalityConfig) (rate : Q) : t :=
  mk (mkPersonalityConfig
        (Some (match bigFive c with Some b => b | None => getDefaultBigFive end))
        (Some (str_or (mbti c) "ISFJ"))
        (Some (str_or (temperament c) "phlegmatic"))
        (Some (str_or (archetype c) "The Helper")))
     rate.

Definition getConfig (p : t) : PersonalityConfig := config p.

Definition getBigFive (p : t) : BigFiveTraits :=
  match bigFive (config p) with
  | Some b => b
  | None => getDefaultBigFive
  end.

(** The body of the [forEach] of [updateBigFive], for one entry. *)
Definition adapt (rate : Q) (b : BigFiveTraits) (entry : Trait * Q) : BigFiveTraits :=
  let (trait, value) := entry in
  let currentValue := get_trait trait b in
  let change := (value - currentValue) * (rate / 100) in
  set_trait trait (Math_max 0 (Math_min 100 (currentValue + change))) b.

(** [updateBigFive]. *)
Definition updateBigFive (changes : TraitChanges) (p : t) : t :=
  match bigFive (config p) with
  | None => p
  | Some b =>
      mk (mkPersonalityConfig
            (Some (fold_left (adapt (adaptationRate p)) changes b))
            (mbti (config p)) (temperament (config p)) (archetype (config p)))
         (adaptationRate p)
  end.

(** The documented bounds of the five traits. *)
Definition traits_in_range (b : BigFiveTraits) : Prop :=
  forall t : Trait, 0 <= get_trait t b <= 100.

(** [getResponseStyle]. *)
Inductive Verbosity : Type := concise | moderate | verbose.
Inductive Formality : Type := casual | neutral_formality | formal.

Record ResponseStyle : Type := mkStyle {
  tone : string;
  verbosity : Verbosity;
  formality : Formality;
  empathy : Z;
  assertiveness : Z
}.

(** [determineTone]. *)
Definition determineTone (m : MoodState) (b : BigFiveTraits) : string :=
  let agreeablenessEffect := agreeableness b / 100 in
  let extraversionEffect := extraversion b / 100 in
  let neuroticismEffect := neuroticism b / 100 in
  match m with
  | joyful => if gtb extraversionEffect 0.6 then "enthusiastic" else "warm"
  | content => "pleasant"
  | excited => "energetic"
  | anxious => if gtb neuroticismEffect 0.6 then "worried" else "cautious"
  | frustrated => if gtb agreeablenessEffect 0.7 then "strained" else "direct"
  | melancholic => "thoughtful"
  | contemplative => "reflective"
  | curious => "inquisitive"
  | calm => "serene"
  | neutral => if gtb agreeablenessEffect 0.6 then "friendly" else "neutral"
  end%string.

Definition getResponseStyle (es : EmotionalState) (ctx : ConversationContext)
    (p : t) : ResponseStyle :=
  let b := getBigFive p in
  let extraversionEffect := extraversion b / 100 in
  let agreeablenessEffect := agreeableness b / 100 in
  let conscientiousnessEffect := conscientiousness b / 100 in
  let neuroticismEffect := neuroticism b / 100 in
  let verbosity0 :=
    if gtb extraversionEffect 0.7 && gtb (socialBattery es) 60 then verbose
    else if ltb extraversionEffect 0.3 || ltb (socialBattery es) 30 then concise
    else moderate in
  let formality0 :=
    if gtb conscientiousnessEffect 0.7 then formal
    else if gtb extraversionEffect 0.6 && gtb agreeablenessEffect 0.6 then casual
    else neutral_formality in
  let (formality1, verbosity1) :=
    if String.eqb (relationship ctx) "friend" || String.eqb (relationship ctx) "family"
    then (casual, match verbosity0 with concise => moderate | v => v end)
    else if String.eqb (relationship ctx) "professional" then (formal, verbosity0)
    else (formality0, verbosity0) in
  mkStyle (determineTone (mood es) b) verbosity1 formality1
    (Math_round (agreeablenessEffect * 100 * (1 - neuroticismEffect * 0.3)))
    (Math_round ((extraversionEffect * confidence es / 100) * 100
                 * (1 - agreeablenessEffect * 0.2))).

(** [getBehavioralTendencies]. *)
Record Tendencies : Type := mkTendencies {
  curiosityLevel : Z;
  socialSeeking : Z;
  emotionalExpression : Z;
  planningOrientation : Z;
  changeAdaptability : Z
}.

Definition getBehavioralTendencies (p : t) : Tendencies :=
  let b := getBigFive p in
  mkTendencies
    (Math_round (openness b))
    (Math_round (extraversion b))
    (Math_round ((100 - neuroticism b + extraversion b) / 2))
    (Math_round (conscientiousness b))
    (Math_round ((openness b + (100 - neuroticism b)) / 2)).

(** [getDecisionStyle]. *)
Inductive AnalysisDepth : Type := shallow | moderate_depth | deep.
Inductive RiskTolerance : Type := low | moderate_risk | high.
Inductive TimePreference : Type := immediate | considered | deliberate.

Record DecisionStyle : Type := mkDecisionStyle {
  analysisDepth : AnalysisDepth;
  riskTolerance : RiskTolerance;
  timePreference : TimePreference;
  socialConsideration : Z
}.

Definition getDecisionStyle (p : t) : DecisionStyle :=
  let b := getBigFive p in
  mkDecisionStyle
    (if gtb (openness b) 70 && gtb (conscientiousness b) 60 then deep
     else if ltb (openness b) 40 || ltb (conscientiousness b) 40 then shallow
     else moderate_depth)
    (if gtb (neuroticism b) 60 then low
     else if gtb (openness b) 70 && ltb (neuroticism b) 40 then high
     else moderate_risk)
    (if gtb (conscientiousness b) 75 then deliberate
     else if ltb (conscientiousness b) 40 then immediate
     else considered)
    (Math_round (agreeableness b)).

(** The order of the three levels of each scale. *)
Definition depth_rank (d : AnalysisDepth) : nat :=
  match d with shallow => 0 | moderate_depth => 1 | deep => 2 end.
Definition risk_rank (r : RiskTolerance) : nat :=
  match r with low => 0 | moderate_risk => 1 | high => 2 end.
Definition time_rank (p : TimePreference) : nat :=
  match p with immediate => 0 | considered => 1 | deliberate => 2 end.

(** A personality with the given traits. *)
Definition with_traits (b : BigFiveTraits) : t :=
  new (mkPersonalityConfig (Some b) None None None) 5.

(** [predictResponse]; the situation text is not read. *)
Record Prediction : Type := mkPrediction {
  likelyReaction : string;
  prediction_confidence : Q;
  reasoning : string
}.

Definition predictResponse (emotionalContext : EmotionalState) (p : t) : Prediction :=
  let b := getBigFive p in
  let reaction := "thoughtful consideration"%string in
  let conf := 50 in
  let reason := "Based on balanced personality traits"%string in
  let '(reaction, conf, reason) :=
    if gtb (openness b) 70
    then ("curious exploration"%string, conf + 20,
          "High openness suggests interest in new experiences"%string)
    else (reaction, conf, reason) in
  let '(reaction, conf, reason) :=
    if gtb (conscientiousness b) 70
    then ("careful planning and analysis"%string, conf + 15,
          (reason ++ ", high conscientiousness indicates systematic approach")%string)
    else (reaction, conf, reason) in
  let '(reaction, conf, reason) :=
    if gtb (neuroticism b) 60
    then ("cautious evaluation"%string, conf + 10,
          (reason ++ ", neuroticism suggests careful risk assessment")%string)
    else (reaction, conf, reason) in
  let '(reaction, reason) :=
    match mood emotionalContext with
    | anxious =>
        ("hesitant consideration"%string,
         (reason ++ ", current anxious mood increases caution")%string)
    | excited =>
        ("enthusiastic engagement"%string,
         (reason ++ ", current excited mood increases openness")%string)
    | _ => (reaction, reason)
    end in
  mkPrediction reaction (Math_min 90 conf) reason.

(** A sequence of [updateBigFive] calls. *)
Definition updateBigFive_all (calls : list TraitChanges) (p : t) : t :=
  fold_left (fun p changes => updateBigFive changes p) calls p.

End PersonalitySystem.

(* ================================================================= *)
(** * [src/memory-system.ts] *)

(** A [Map<string, Memory>], keyed by identifier, in insertion order. *)
Module IdMap.

Definition t : Type := list (nat * Memory).

Fixpoint set (k : nat) (v : Memory) (m : t) : t :=
  match m with
  | [] => [(k, v)]
  | (k', v') :: m' =>
      if Nat.eqb k k' then (k', v) :: m' else (k', v') :: set k v m'
  end.

Fixpoint delete (k : nat) (m : t) : t :=
  match m with
  | [] => []
  | (k', v') :: m' =>
      if Nat.eqb k k' then m' else (k', v') :: delete k m'
  end.

Fixpoint get (k : nat) (m : t) : option Memory :=
  match m with
  | [] => None
  | (k', v') :: m' => if Nat.eqb k k' then Some v' else get k m'
  end.

Definition has (k : nat) (m : t) : bool :=
  match get k m with Some _ => true | None => false end.

Definition values (m : t) : list Memory := map snd m.

Definition size (m : t) : nat := List.length m.

End IdMap.

Module MemorySystem.

Import Js.
Open Scope Q_scope.

Record t : Type := mk {
  memories : IdMap.t;
  shortTermMemory : list Memory;
  longTermMemory : list Memory;
  maxShortTermSize : nat;
  maxLongTermSize : nat
}.

(** The constructor; the capacities default to 50 and 1000. *)
Definition new (shortTermCapacity longTermCapacity : nat) : t :=
  mk [] [] [] shortTermCapacity longTermCapacity.

(** The first [forEach] of [consolidateMemories], for one removed
    memory: the state is the long-term list and the primary index. *)
Definition consolidate_one (st : list Memory * IdMap.t) (m : Memory)
    : list Memory * IdMap.t :=
  let (lt, idx) := st in
  if geb (importance m) 60 then (m :: lt, idx)
  else (lt, IdMap.delete (mem_id m) idx).

Definition forget_one (idx : IdMap.t) (m : Memory) : IdMap.t :=
  IdMap.delete (mem_id m) idx.

(** [consolidateMemories]. *)
Definition consolidateMemories (ms : t) : t :=
  let ms1 :=
    if (maxShortTermSize ms <? List.length (shortTermMemory ms))%nat then
      let (kept, toConsolidate) := splice (maxShortTermSize ms) (shortTermMemory ms) in
      let (lt, idx) :=
        fold_left consolidate_one toConsolidate (longTermMemory ms, memories ms) in
      mk idx kept lt (maxShortTermSize ms) (maxLongTermSize ms)
    else ms in
  if (maxLongTermSize ms1 <? List.length (longTermMemory ms1))%nat then
    let (kept, forgotten) := splice (maxLongTermSize ms1) (longTermMemory ms1) in
    mk (fold_left forget_one forgotten (memories ms1))
       (shortTermMemory ms1) kept (maxShortTermSize ms1) (maxLongTermSize ms1)
  else ms1.

(** [store]: the new state and the memory that was created. *)
Definition store (mid : nat) (now : Z) (text : string) (ty : MemoryType)
    (imp weight : Q) (tgs : list string) (ms : t) : t * Memory :=
  let memory := mkMemory mid text ty imp weight now tgs [] in
  let ms1 := mk (IdMap.set mid memory (memories ms))
                (memory :: shortTermMemory ms)
                (longTermMemory ms)
                (maxShortTermSize ms) (maxLongTermSize ms) in
  (consolidateMemories ms1, memory).

(** [calculateRelevance]. *)
Definition calculateRelevance (now : Z) (memory : Memory) (query : string) : Q :=
  let queryLower := toLowerCase query in
  let contentLower := toLowerCase (mem_content memory) in
  let score := 0 in
  let score := if includes contentLower queryLower then score + 100 else score in
  let score :=
    fold_left
      (fun score tag =>
         if includes (toLowerCase tag) queryLower then score + 50 else score)
      (tags memory) score in
  let score := score + importance memory * 0.5 in
  let daysSince :=
    inject_Z (now - timestamp memory) / inject_Z (1000 * 60 * 60 * 24) in
  let recencyBonus := Math_max 0 (20 - daysSince) in
  score + recencyBonus.

(** [recall]. *)
Definition recall (now : Z) (query : string) (limit : Z) (minImportance : Q)
    (ms : t) : list Memory :=
  let allMemories := IdMap.values (memories ms) in
  map fst
    (slice_to limit
       (sort_desc snd
          (filter (fun item => gtb (snd item) 0)
             (map (fun memory => (memory, calculateRelevance now memory query))
                (filter (fun memory => geb (importance memory) minImportance)
                   allMemories))))).

(** [getRecentMemories]. *)
Definition getRecentMemories (count : Z) (ms : t) : list Memory :=
  slice_to count
    (sort_desc (fun m => inject_Z (timestamp m)) (IdMap.values (memories ms))).

(** In-place updates of a memory object reach every container that
    holds it. *)
Definition update_by_id (k : nat) (f : Memory -> Memory) (l : list Memory)
    : list Memory :=
  map (fun m => if Nat.eqb (mem_id m) k then f m else m) l.

Definition set_importance (v : Q) (m : Memory) : Memory :=
  mkMemory (mem_id m) (mem_content m) (mem_type m) v (emotional_weight m)
           (timestamp m) (tags m) (associations m).

(** [strengthenMemory]; [amount] defaults to 10. *)
Definition strengthenMemory (k : nat) (amount : Q) (ms : t) : t :=
  match IdMap.get k (memories ms) with
  | None => ms
  | Some memory =>
      let memory' := set_importance (Math_min 100 (importance memory + amount)) memory in
      let f := fun m : Memory =>
                 set_importance (Math_min 100 (importance m + amount)) m in
      mk (IdMap.set k memory' (memories ms))
         (update_by_id k f (shortTermMemory ms))
         (update_by_id k f (longTermMemory ms))
         (maxShortTermSize ms) (maxLongTermSize ms)
  end.

(** [getStats]. *)
Record Stats : Type := mkStats {
  totalMemories : nat;
  shortTermCount : nat;
  longTermCount : nat;
  averageImportance : jsnum;
  memoryTypes : list (MemoryType * nat)
}.

Definition MemoryType_eqb (a b : MemoryType) : bool :=
  match a, b with
  | episodic, episodic | semantic, semantic
  | procedural, procedural | emotional, emotional => true
  | _, _ => false
  end.

(** [typeCount[ty] = (typeCount[ty] || 0) + 1]. *)
Fixpoint count_type (ty : MemoryType) (c : list (MemoryType * nat))
    : list (MemoryType * nat) :=
  match c with
  | [] => [(ty, 1%nat)]
  | (k, n) :: c' =>
      if MemoryType_eqb ty k then (k, S n) :: c' else (k, n) :: count_type ty c'
  end.

Definition getStats (ms : t) : Stats :=
  let allMemories := IdMap.values (memories ms) in
  let avgImportance :=
    or_zero (div (fold_left (fun sum m => sum + importance m) allMemories 0)
                 (inject_Z (Z.of_nat (List.length allMemories)))) in
  let typeCount :=
    fold_left (fun c m => count_type (mem_type m) c) allMemories [] in
  mkStats (List.length allMemories)
          (List.length (shortTermMemory ms))
          (List.length (longTermMemory ms))
          (round avgImportance)
          typeCount.

(** [export]. *)
Definition export (ms : t) : list Memory := IdMap.values (memories ms).

(** The [forEach] of [import], for one memory. *)
Definition import_one (ms : t) (memory : Memory) : t :=
  let idx := IdMap.set (mem_id memory) memory (memories ms) in
  if geb (importance memory) 60 then
    mk idx (shortTermMemory ms) (longTermMemory ms ++ [memory])
       (maxShortTermSize ms) (maxLongTermSize ms)
  else
    mk idx (shortTermMemory ms ++ [memory]) (longTermMemory ms)
       (maxShortTermSize ms) (maxLongTermSize ms).

(** [import]. *)
Definition import (mems : list Memory) (ms : t) : t :=
  consolidateMemories (fold_left import_one mems ms).

(** The match that [calculateRelevance] makes: an occurrence of the
    lower-cased query in the lower-cased text. *)
Definition matches (text query : string) : bool :=
  includes (toLowerCase text) (toLowerCase query).

Definition recencyBonus (now : Z) (m : Memory) : Q :=
  Math_max 0 (20 - inject_Z (now - timestamp m) / inject_Z (1000 * 60 * 60 * 24)).

(** The relevance score in closed form, with the match of the code. *)
Definition relevance_sum (now : Z) (m : Memory) (query : string) : Q :=
  (if matches (mem_content m) query then 100 else 0)
  + 50 * of_nat (List.length (filter (fun tag => matches tag query) (tags m)))
  + 0.5 * importance m
  + recencyBonus now m.

(** The relevance score as the specification words it: the query text
    occurs literally in the content, or in a tag. *)
Definition spec_relevance (now : Z) (m : Memory) (query : string) : Q :=
  (if includes (mem_content m) query then 100 else 0)
  + 50 * of_nat (List.length (filter (fun tag => includes tag query) (tags m)))
  + 0.5 * importance m
  + recencyBonus now m.

(** The list that [recall] sorts: the candidates that pass both filters,
    each with its score. *)
Definition scored (now : Z) (q : string) (minImportance : Q) (ms : t)
    : list (Memory * Q) :=
  filter (fun item => gtb (snd item) 0)
    (map (fun memory => (memory, calculateRelevance now memory q))
       (filter (fun memory => geb (importance memory) minImportance)
          (IdMap.values (memories ms)))).

(** A sequence of [store] calls: the arguments of each call, with the
    identifier and the time it draws. *)
Record StoreRequest : Type := mkRequest {
  req_id : nat;
  req_now : Z;
  req_content : string;
  req_type : MemoryType;
  req_importance : Q;
  req_weight : Q;
  req_tags : list string
}.

Definition store_request (ms : t) (r : StoreRequest) : t :=
  fst (store (req_id r) (req_now r) (req_content r) (req_type r)
             (req_importance r) (req_weight r) (req_tags r) ms).

Definition store_all (rs : list StoreRequest) (ms : t) : t :=
  fold_left store_request rs ms.

(** The record that a request creates, and its entry in the index. *)
Definition memory_of (r : StoreRequest) : Memory :=
  mkMemory (req_id r) (req_content r) (req_type r)
           (req_importance r) (req_weight r) (req_now r) (req_tags r) [].

Definition entry_of (r : StoreRequest) : nat * Memory := (req_id r, memory_of r).

(** The identifiers drawn are pairwise distinct. *)
Fixpoint distinct_ids (l : list nat) : bool :=
  match l with
  | [] => true
  | k :: l' => negb (existsb (Nat.eqb k) l') && distinct_ids l'
  end.

(** The documented bounds of a record, and a store all of whose records
    respect them. *)
Definition memory_in_range (m : Memory) : Prop :=
  0 <= importance m <= 100 /\ -100 <= emotional_weight m <= 100.

Definition records_in_range (ms : t) : Prop :=
  Forall memory_in_range (IdMap.values (memories ms))
  /\ Forall memory_in_range (shortTermMemory ms)
  /\ Forall memory_in_range (longTermMemory ms).

(** The threshold of consolidation: [memory.importance >= 60]. *)
Definition important (m : Memory) : bool := geb (importance m) 60.

(** [getMemoriesByType]. *)
Definition getMemoriesByType (ty : MemoryType) (ms : t) : list Memory :=
  sort_desc (fun m => inject_Z (timestamp m))
    (filter (fun m => MemoryType_eqb (mem_type m) ty) (IdMap.values (memories ms))).

(** An in-place update of the memory object with identifier [k]: the
    object is the one the index holds under [k], and the lists hold the
    same object. *)
Definition modify (k : nat) (f : Memory -> Memory) (ms : t) : t :=
  match IdMap.get k (memories ms) with
  | None => ms
  | Some memory =>
      mk (IdMap.set k (f memory) (memories ms))
         (update_by_id k f (shortTermMemory ms))
         (update_by_id k f (longTermMemory ms))
         (maxShortTermSize ms) (maxLongTermSize ms)
  end.

(** [if (!m.associations.includes(k)) m.associations.push(k)]. *)
Definition add_association (k : nat) (m : Memory) : Memory :=
  if existsb (Nat.eqb k) (associations m) then m
  else mkMemory (mem_id m) (mem_content m) (mem_type m) (importance m)
                (emotional_weight m) (timestamp m) (tags m)
                (associations m ++ [k]).

(** [associateMemories]. *)
Definition associateMemories (memoryId1 memoryId2 : nat) (ms : t) : t :=
  if IdMap.has memoryId1 (memories ms) && IdMap.has memoryId2 (memories ms) then
    modify memoryId2 (add_association memoryId1)
      (modify memoryId1 (add_association memoryId2) ms)
  else ms.

(** [getAssociatedMemories]. *)
Definition getAssociatedMemories (memoryId : nat) (ms : t) : list Memory :=
  match IdMap.get memoryId (memories ms) with
  | None => []
  | Some memory =>
      flat_map
        (fun k => match IdMap.get k (memories ms) with
                  | Some m => [m]
                  | None => []
                  end)
        (associations memory)
  end.

(** [typeCount[ty] || 0] on the histogram of [getStats]. *)
Fixpoint type_count (ty : MemoryType) (c : list (MemoryType * nat)) : nat :=
  match c with
  | [] => O
  | (k, n) :: c' => if MemoryType_eqb ty k then n else type_count ty c'
  end.

(** The index and the two lists agree: identifiers are the keys of the
    index, and the index holds exactly the records of the two lists. *)
Definition well_formed (ms : t) : Prop :=
  NoDup (map fst (memories ms))
  /\ Forall (fun e => mem_id (snd e) = fst e) (memories ms)
  /\ Permutation (IdMap.values (memories ms))
                 (shortTermMemory ms ++ longTermMemory ms).

(** Both lists are within their capacities. *)
Definition within_capacity (ms : t) : Prop :=
  (List.length (shortTermMemory ms) <= maxShortTermSize ms)%nat
  /\ (List.length (longTermMemory ms) <= maxLongTermSize ms)%nat.

(** Every copy of the memory object [k] lists [j] among its associations. *)
Definition linked (j k : nat) (ms : t) : Prop :=
  (forall m, IdMap.get k (memories ms) = Some m -> In j (associations m))
  /\ Forall (fun m => mem_id m = k -> In j (associations m))
            (shortTermMemory ms ++ longTermMemory ms).

(** What [strengthenMemory] does to a memory object. *)
Definition boost (amount : Q) (m : Memory) : Memory :=
  set_importance (Math_min 100 (importance m + amount)) m.

(** A [store] call whose importance and weight are in the documented
    ranges. *)
Definition request_in_range (r : StoreRequest) : Prop :=
  0 <= req_importance r <= 100 /\ -100 <= req_weight r <= 100.

(** The entry under which the index holds a record. *)
Definition index_entry (m : Memory) : nat * Memory := (mem_id m, m).

(** The operations on a store whose identifiers are drawn fresh. *)
Inductive step : t -> t -> Prop :=
| step_store (mid : nat) (now : Z) (text : string) (ty : MemoryType)
    (imp weight : Q) (tgs : list string) (ms : t) :
    IdMap.has mid (memories ms) = false ->
    step ms (fst (store mid now text ty imp weight tgs ms))
| step_strengthenMemory (k : nat) (amount : Q) (ms : t) :
    step ms (strengthenMemory k amount ms)
| step_associateMemories (k1 k2 : nat) (ms : t) :
    step ms (associateMemories k1 k2 ms).

Inductive reachable : t -> Prop :=
| reachable_new (shortCap longCap : nat) : reachable (new shortCap longCap)
| reachable_step (ms ms' : t) : reachable ms -> step ms ms' -> reachable ms'.

End MemorySystem.

(* ================================================================= *)
(** * [src/soul.ts] *)

Record SoulConfig : Type := mkSoulConfig {
  cfg_identity : Identity;
  cfg_personality : option PersonalityConfig;
  cfg_initialMood : option MoodState;
  cfg_memoryCapacity : option nat;
  cfg_thoughtFrequency : option Q;
  cfg_empathyLevel : option Q;
  cfg_learningRate : option Q
}.

(** A [Map<string, ConversationContext>], in insertion order. *)
Module CtxMap.

Definition t : Type := list (string * ConversationContext).

Fixpoint set (k : string) (v : ConversationContext) (m : t) : t :=
  match m with
  | [] => [(k, v)]
  | (k', v') :: m' =>
      if String.eqb k k' then (k', v) :: m' else (k', v') :: set k v m'
  end.

Fixpoint get (k : string) (m : t) : option ConversationContext :=
  match m with
  | [] => None
  | (k', v') :: m' => if String.eqb k k' then Some v' else get k m'
  end.

Definition values (m : t) : list ConversationContext := map snd m.

End CtxMap.

Module Soul.

Import Js.
Open Scope Q_scope.

Record t : Type := mk {
  id : nat;
  identity : Identity;
  memorySystem : MemorySystem.t;
  moodEngine : MoodEngine.t;
  personalitySystem : PersonalitySystem.t;
  conversationContexts : CtxMap.t;
  empathyLevel : Q;
  learningRate : Q;
  thoughtFrequency : Q;
  lastThoughtTime : Z
}.

(** [x || d] on an optional number: [undefined] and [0] are falsy. *)
Definition num_or (x : option Q) (d : Q) : Q :=
  match x with
  | Some q => if Qeq_bool q 0 then d else q
  | None => d
  end.

Definition nat_or (x : option nat) (d : nat) : nat :=
  match x with
  | Some O => d
  | Some n => n
  | None => d
  end.

Definition opt_bind {A B : Type} (x : option A) (f : A -> option B) : option B :=
  match x with Some a => f a | None => None end.

Definition identity_text (i : Identity) : string :=
  ("I am " ++ name i ++ ", a " ++ role i ++ ".")%string.

Definition set_memorySystem (ms : MemorySystem.t) (s : t) : t :=
  mk (id s) (identity s) ms (moodEngine s) (personalitySystem s)
     (conversationContexts s) (empathyLevel s) (learningRate s)
     (thoughtFrequency s) (lastThoughtTime s).

Definition set_moodEngine (me : MoodEngine.t) (s : t) : t :=
  mk (id s) (identity s) (memorySystem s) me (personalitySystem s)
     (conversationContexts s) (empathyLevel s) (learningRate s)
     (thoughtFrequency s) (lastThoughtTime s).

Definition set_personalitySystem (p : PersonalitySystem.t) (s : t) : t :=
  mk (id s) (identity s) (memorySystem s) (moodEngine s) p
     (conversationContexts s) (empathyLevel s) (learningRate s)
     (thoughtFrequency s) (lastThoughtTime s).

(** The constructor: [sid] is the Soul's identifier and [mid] that of
    the identity memory. *)
Definition new (sid mid : nat) (now : Z) (config : option SoulConfig) : t :=
  let ident :=
    match config with
    | Some c => cfg_identity c
    | None => mkIdentity "Soul" "Companion"
    end in
  let ms := MemorySystem.new 50 (nat_or (opt_bind config cfg_memoryCapacity) 1000) in
  let me :=
    MoodEngine.new now
      (match opt_bind config cfg_initialMood with Some m => m | None => neutral end) in
  let rate := num_or (opt_bind config cfg_learningRate) 5 in
  let ps :=
    PersonalitySystem.new
      (match opt_bind config cfg_personality with
       | Some p => p
       | None => mkPersonalityConfig None None None None
       end) rate in
  let ms' :=
    fst (MemorySystem.store mid now (identity_text ident) semantic 100 0
           ["identity"; "self"]%string ms) in
  mk sid ident ms' me ps []
     (num_or (opt_bind config cfg_empathyLevel) 70)
     rate
     (num_or (opt_bind config cfg_thoughtFrequency) 30)
     0%Z.

(** [withIdentity]; the argument is a [Partial<Identity>]. *)
Definition withIdentity (mid : nat) (now : Z)
    (new_name new_role : option string) (s : t) : t :=
  let ident :=
    mkIdentity (match new_name with Some n => n | None => name (identity s) end)
               (match new_role with Some r => r | None => role (identity s) end) in
  let ms' :=
    fst (MemorySystem.store mid now (identity_text ident) semantic 100 0
           ["identity"; "self"]%string (memorySystem s)) in
  mk (id s) ident ms' (moodEngine s) (personalitySystem s)
     (conversationContexts s) (empathyLevel s) (learningRate s)
     (thoughtFrequency s) (lastThoughtTime s).

(** [withMood]; [tid] is the identifier of the thought that
    [updateMood] adds when the mood changes. *)
Definition withMood (tid : nat) (now : Z) (m : MoodState) (s : t) : t :=
  set_moodEngine
    (MoodEngine.updateMood tid now
       (MoodEngine.mkStimulus MoodEngine.neutral_stimulus 0
          (Some "initial mood setting"%string))
       (moodEngine s))
    s.

(** [withPersonality]. *)
Definition withPersonality (p : PersonalityConfig) (s : t) : t :=
  set_personalitySystem (PersonalitySystem.new p (learningRate s)) s.

(** [withEmpathy]. *)
Definition withEmpathy (level : Q) (s : t) : t :=
  mk (id s) (identity s) (memorySystem s) (moodEngine s) (personalitySystem s)
     (conversationContexts s) (Math_max 0 (Math_min 100 level)) (learningRate s)
     (thoughtFrequency s) (lastThoughtTime s).

(** [analyzeEmotionalImpact]. *)
Definition positiveWords : list string :=
  ["happy"; "good"; "great"; "wonderful"; "amazing"; "love"; "like"; "fantastic"]%string.
Definition negativeWords : list string :=
  ["sad"; "bad"; "terrible"; "awful"; "hate"; "dislike"; "horrible"; "angry"]%string.

(** [words.forEach(word => { if (lowerInput.includes(word)) score++ })]. *)
Definition word_score (lowerInput : string) (words : list string) : nat :=
  fold_left (fun score word => if includes lowerInput word then S score else score)
            words O.

Record EmotionalImpact : Type := mkImpact {
  impact_type : MoodEngine.StimulusType;
  impact_intensity : Q;
  impact_importance : Q;
  emotionalWeight : Q
}.

Definition analyzeEmotionalImpact (input : string) : EmotionalImpact :=
  let lowerInput := toLowerCase input in
  let positiveScore := word_score lowerInput positiveWords in
  let negativeScore := word_score lowerInput negativeWords in
  let (ty, intensity) :=
    if (negativeScore <? positiveScore)%nat then
      (MoodEngine.positive, Math_min 80 (30 + of_nat positiveScore * 15))
    else if (positiveScore <? negativeScore)%nat then
      (MoodEngine.negative, Math_min 80 (30 + of_nat negativeScore * 15))
    else (MoodEngine.neutral_stimulus, 20) in
  let imp := 30 + Math_min 50 (str_length input / 2) in
  let weight :=
    match ty with
    | MoodEngine.positive => intensity
    | MoodEngine.negative => - intensity
    | MoodEngine.neutral_stimulus => 0
    end in
  mkImpact ty intensity imp weight.

(** The number of words of a lexicon that occur in the lower-cased
    input, each word counted once however often it occurs. *)
Definition lexicon_hits (input : string) (words : list string) : nat :=
  List.length (filter (fun word => includes (toLowerCase input) word) words).

(** [generateInsights]. *)
Definition ThoughtType_is_reflection (ty : ThoughtType) : bool :=
  match ty with reflection => true | _ => false end.

Definition generateInsights (mems : list Memory) (ths : list Thought) : list string :=
  let emotionalMemories :=
    filter (fun m => gtb (Qabs (emotional_weight m)) 50) mems in
  let insights :=
    if (3 <? List.length emotionalMemories)%nat
    then ["I've been having many emotionally significant experiences lately"%string]
    else [] in
  let reflectiveThoughts :=
    filter (fun th => ThoughtType_is_reflection (thought_type th)) ths in
  let insights :=
    if (2 <? List.length reflectiveThoughts)%nat
    then insights ++ ["I've been doing a lot of reflecting recently"%string]
    else insights in
  match insights with
  | [] => ["I'm continuing to learn and grow from my experiences"%string]
  | _ => insights
  end.

(** [adaptPersonality]: the adaptations and the adapted personality. *)
Definition adaptations_of (mems : list Memory) : TraitChanges :=
  let positiveMemories := filter (fun m => gtb (emotional_weight m) 30) mems in
  let negativeMemories := filter (fun m => ltb (emotional_weight m) (-30)) mems in
  if (List.length negativeMemories <? List.length positiveMemories)%nat then
    changes_set Neuroticism (-1) (changes_set Extraversion 2 [])
  else if (List.length positiveMemories <? List.length negativeMemories)%nat then
    changes_set Neuroticism 1 []
  else [].

Definition adaptPersonality (mems : list Memory) (p : PersonalitySystem.t)
    : PersonalitySystem.t * TraitChanges :=
  let adaptations := adaptations_of mems in
  (PersonalitySystem.updateBigFive adaptations p, adaptations).

(** [getMoodHistory] of the mood engine. *)
Definition getMoodHistory (now : Z) (hours : Z) (me : MoodEngine.t)
    : list (MoodState * Z) :=
  let cutoff := (now - hours * 60 * 60 * 1000)%Z in
  filter (fun entry => (cutoff <=? snd entry)%Z) (MoodEngine.moodHistory me).

(** [analyzeMoodTrends]. *)
Fixpoint count_mood (m : MoodState) (c : list (MoodState * nat))
    : list (MoodState * nat) :=
  match c with
  | [] => [(m, 1%nat)]
  | (k, n) :: c' =>
      if MoodState_eqb m k then (k, S n) :: c' else (k, n) :: count_mood m c'
  end.

Definition analyzeMoodTrends (moodHist : list (MoodState * Z)) : string :=
  if (List.length moodHist <? 2)%nat
  then "Not enough mood data to analyze trends"%string
  else
    let recentMoods := map fst (slice_last 5 moodHist) in
    let moodCounts := fold_left (fun c m => count_mood m c) recentMoods [] in
    match sort_desc (fun e => of_nat (snd e)) moodCounts with
    | (dominantMood, _) :: _ =>
        ("Recently, I've been predominantly " ++ MoodState_name dominantMood)%string
    | [] => EmptyString
    end.

(** [reflect]. *)
Record Reflection : Type := mkReflection {
  insights : list string;
  personalityChanges : TraitChanges;
  moodTrends : string
}.

Definition reflect (mid : nat) (now : Z) (s : t) : t * Reflection :=
  let recentMemories := MemorySystem.getRecentMemories 10 (memorySystem s) in
  let recentThoughts := MoodEngine.getRecentThoughts 5 (moodEngine s) in
  let moodHist := getMoodHistory now 24 (moodEngine s) in
  let ins := generateInsights recentMemories recentThoughts in
  let trends := analyzeMoodTrends moodHist in
  let (ps', changes) := adaptPersonality recentMemories (personalitySystem s) in
  let ms' :=
    fst (MemorySystem.store mid now
           ("I reflected on recent experiences and gained insights: "
              ++ String.concat ", " ins)%string
           semantic 60 10
           ["reflection"; "self-awareness"; "growth"]%string
           (memorySystem s)) in
  (set_memorySystem ms' (set_personalitySystem ps' s),
   mkReflection ins changes trends).

(** [export] and [import]. *)
Record Snapshot : Type := mkSnapshot {
  snap_id : nat;
  snap_identity : Identity;
  snap_personality : PersonalityConfig;
  snap_memories : list Memory;
  snap_conversationContexts : list ConversationContext;
  snap_empathyLevel : Q;
  snap_learningRate : Q
}.

Definition export (s : t) : Snapshot :=
  mkSnapshot (id s) (identity s)
    (PersonalitySystem.getConfig (personalitySystem s))
    (MemorySystem.export (memorySystem s))
    (CtxMap.values (conversationContexts s))
    (empathyLevel s) (learningRate s).

Definition import (data : Snapshot) (s : t) : t :=
  mk (snap_id data) (snap_identity data)
     (MemorySystem.import (snap_memories data) (memorySystem s))
     (moodEngine s)
     (PersonalitySystem.new (snap_personality data) (snap_learningRate data))
     (fold_left (fun m c => CtxMap.set (participantId c) c m)
                (snap_conversationContexts data) (conversationContexts s))
     (snap_empathyLevel data) (snap_learningRate data)
     (thoughtFrequency s) (lastThoughtTime s).

(** [getOrCreateContext]: the map after the call, and the context. *)
Definition getOrCreateContext (pid pname : string) (s : t)
    : CtxMap.t * ConversationContext :=
  match CtxMap.get pid (conversationContexts s) with
  | Some c => (conversationContexts s, c)
  | None =>
      let c := mkContext pid pname "acquaintance" [] in
      (CtxMap.set pid c (conversationContexts s), c)
  end.

(** The inputs that one call of [respond] draws from its environment:
    the clock, the identifiers of the thoughts and memories it may
    create, and the value of [Math.random()]. *)
Record RespondEnv : Type := mkEnv {
  env_now : Z;
  env_mood_thought : nat;
  env_input_memory : nat;
  env_spontaneous_thought : nat;
  env_question_thought : nat;
  env_response_memory : nat;
  env_random : Q
}.

Definition dquote : string := String (ascii_of_nat 34) EmptyString.

(** [generateThoughts]: the mood engine and [lastThoughtTime] after the
    call, and the thoughts. *)
Definition generateThoughts (env : RespondEnv) (input : string) (s : t)
    : MoodEngine.t * Z * list Thought :=
  let now := env_now env in
  let '(me1, last1, thoughts1) :=
    if gtb (inject_Z (now - lastThoughtTime s)) (thoughtFrequency s * 1000) then
      match MoodEngine.generateInternalMonologue
              (env_spontaneous_thought env) now (env_random env) (moodEngine s) with
      | (me', Some th) => (me', now, [th])
      | (me', None) => (me', lastThoughtTime s, [])
      end
    else (moodEngine s, lastThoughtTime s, []) in
  if includes input "?"%string then
    let text := "That's an interesting question to consider."%string in
    let triggers := Some ["question"; "curiosity"]%string in
    (MoodEngine.addThought (env_question_thought env) now text observation triggers me1,
     last1,
     thoughts1 ++ [mkThought (env_question_thought env) text observation now triggers])
  else (me1, last1, thoughts1).

(** [generateResponse]. *)
Definition generateResponse (input : string) (ctx : ConversationContext)
    (mems : list Memory) (style : PersonalitySystem.ResponseStyle)
    (es : EmotionalState) (p : PersonalitySystem.t) : string :=
  (let personality := PersonalitySystem.getBehavioralTendencies p in
  let responseTemplate :=
    if includes input "?" then
      if (70 <? PersonalitySystem.curiosityLevel personality)%Z
      then "That's a fascinating question. Let me think about it..."
      else "I'll consider that question."
    else match mood es with
         | joyful => "That sounds wonderful!"
         | contemplative => "That gives me something to think about."
         | curious => "That's really interesting. Tell me more."
         | _ => "I understand what you're saying."
         end in
  let responseTemplate :=
    match mems with
    | memoryContext :: _ =>
        if includes (mem_content memoryContext) (participantName ctx)
        then responseTemplate ++ " This reminds me of our previous conversations."
        else responseTemplate
    | [] => responseTemplate
    end in
  let responseTemplate :=
    if gtb (agreeableness (PersonalitySystem.getBigFive p)) 70
    then "I really appreciate you sharing that. " ++ responseTemplate
    else responseTemplate in
  if (80 <? PersonalitySystem.empathy style)%Z
  then "I can sense this is important to you. " ++ responseTemplate
  else responseTemplate)%string.

Definition impact_name (ty : MoodEngine.StimulusType) : string :=
  match ty with
  | MoodEngine.positive => "positive"
  | MoodEngine.negative => "negative"
  | MoodEngine.neutral_stimulus => "neutral"
  end%string.

(** [respond]. *)
Record Response : Type := mkResponse {
  response : string;
  response_mood : MoodState;
  response_thoughts : list Thought;
  response_memories : list Memory
}.

Definition respond (env : RespondEnv) (input pid pname : string) (s : t)
    : t * Response :=
  let now := env_now env in
  let (ctxs1, ctx) := getOrCreateContext pid pname s in
  let emotionalImpact := analyzeEmotionalImpact input in
  let me1 :=
    MoodEngine.updateMood (env_mood_thought env) now
      (MoodEngine.mkStimulus (impact_type emotionalImpact)
         (impact_intensity emotionalImpact)
         (Some ("conversation with " ++ pname)%string))
      (moodEngine s) in
  let (ms1, conversationMemory) :=
    MemorySystem.store (env_input_memory env) now
      (pname ++ " said: " ++ dquote ++ input ++ dquote)%string episodic
      (impact_importance emotionalImpact) (emotionalWeight emotionalImpact)
      ["conversation"; toLowerCase pname; "input"]%string (memorySystem s) in
  let relevantMemories := MemorySystem.recall now input 5 30 ms1 in
  let '(me2, last2, currentThoughts) :=
    generateThoughts env input (set_moodEngine me1 s) in
  let es := MoodEngine.emotionalState me2 in
  let responseStyle := PersonalitySystem.getResponseStyle es ctx (personalitySystem s) in
  let text :=
    generateResponse input ctx relevantMemories responseStyle es (personalitySystem s) in
  let ms2 :=
    fst (MemorySystem.store (env_response_memory env) now
           ("I responded: " ++ dquote ++ text ++ dquote)%string episodic
           40 (emotionalWeight emotionalImpact * 0.5)
           ["conversation"; toLowerCase pname; "response"]%string ms1) in
  let hist :=
    history ctx ++
    [mkHistoryEntry pname input now (Some (impact_name (impact_type emotionalImpact)));
     mkHistoryEntry (name (identity s)) text now None] in
  let hist := if (20 <? List.length hist)%nat then slice_last 10 hist else hist in
  let ctx' := mkContext (participantId ctx) (participantName ctx) (relationship ctx) hist in
  (mk (id s) (identity s) ms2 me2 (personalitySystem s)
      (CtxMap.set pid ctx' ctxs1)
      (empathyLevel s) (learningRate s) (thoughtFrequency s) last2,
   mkResponse text (MoodEngine.getCurrentMood me2) currentThoughts [conversationMemory]).

(** [simulateTimePassage]; [chance] and [rnd] are the two values that
    [Math.random()] may be asked for, and [tid] is the identifier of the
    spontaneous thought. *)
Definition simulateTimePassage (tid : nat) (now : Z) (chance rnd : Q)
    (minutes : Q) (s : t) : t :=
  let me1 := MoodEngine.simulateTimePassage now minutes (moodEngine s) in
  set_moodEngine
    (if ltb chance 0.3
     then fst (MoodEngine.generateInternalMonologue tid now rnd me1)
     else me1)
    s.

(** [withMemory]. *)
Definition withMemory (s : t) : t := s.

(** The contexts are keyed by the identifier of their participant. *)
Definition contexts_keyed (m : CtxMap.t) : Prop :=
  NoDup (map fst m) /\ Forall (fun e => participantId (snd e) = fst e) m.

(** The documented ranges, over the whole Soul. *)
Definition in_range (s : t) : Prop :=
  MemorySystem.records_in_range (memorySystem s)
  /\ MoodEngine.scalars_in_range (MoodEngine.emotionalState (moodEngine s))
  /\ PersonalitySystem.traits_in_range (PersonalitySystem.getBigFive (personalitySystem s))
  /\ 0 <= empathyLevel s <= 100
  /\ contexts_keyed (conversationContexts s).

(** The operations of a Soul; minutes are not negative and a personality
    that is put in has its traits in range. *)
Inductive step : t -> t -> Prop :=
| step_respond (env : RespondEnv) (input pid pname : string) (s : t) :
    step s (fst (respond env input pid pname s))
| step_reflect (mid : nat) (now : Z) (s : t) :
    step s (fst (reflect mid now s))
| step_withIdentity (mid : nat) (now : Z) (new_name new_role : option string) (s : t) :
    step s (withIdentity mid now new_name new_role s)
| step_withMood (tid : nat) (now : Z) (m : MoodState) (s : t) :
    step s (withMood tid now m s)
| step_withEmpathy (level : Q) (s : t) :
    step s (withEmpathy level s)
| step_withPersonality (p : PersonalityConfig) (s : t) :
    PersonalitySystem.traits_in_range
      (match bigFive p with
       | Some b => b
       | None => PersonalitySystem.getDefaultBigFive
       end) ->
    step s (withPersonality p s)
| step_simulateTimePassage (tid : nat) (now : Z) (chance rnd minutes : Q) (s : t) :
    0 <= minutes ->
    step s (simulateTimePassage tid now chance rnd minutes s).

(** The Souls that [new Soul()] reaches. *)
Inductive reachable : t -> Prop :=
| reachable_new (sid mid : nat) (now : Z) : reachable (new sid mid now None)
| reachable_step (s s' : t) : reachable s -> step s s' -> reachable s'.

End Soul.

(* ================================================================= *)
(** * Scenarios

    Concrete runs used by the examples below: the environment of the
    [k]-th call of [respond] (one call a minute, identifiers drawn in
    sequence), and a Soul built with the defaults. *)

Module Scenario.

Definition env (k : nat) : Soul.RespondEnv :=
  Soul.mkEnv (1000 + Z.of_nat k * 60000)
             (10 * k) (10 * k + 1) (10 * k + 2) (10 * k + 3) (10 * k + 4)
             (1 # 2).

(** [new Soul()]. *)
Definition fresh : Soul.t := Soul.new 0 1 1000 None.

(** [n] exchanges in which the participant says "hi". *)
Fixpoint chat (n : nat) (s : Soul.t) : Soul.t :=
  match n with
  | O => s
  | S k => fst (Soul.respond (env n) "hi" "user" "User" (chat k s))
  end.

(** One exchange, then [reflect()]. *)
Definition reflect_after (input : string) : Soul.t * Soul.Reflection :=
  Soul.reflect 99 200000 (fst (Soul.respond (env 1) input "user" "User" fresh)).

Definition traits (s : Soul.t) : BigFiveTraits :=
  PersonalitySystem.getBigFive (Soul.personalitySystem s).

(** A [store] call that draws identifier [k] at time [k]. *)
Definition request (k : nat) (imp : Q) : MemorySystem.StoreRequest :=
  MemorySystem.mkRequest k (Z.of_nat k) "note" episodic imp 0 [].

(** [n] such calls with identifiers [k], [k + 1], ... and one importance. *)
Definition requests_from (k n : nat) (imp : Q) : list MemorySystem.StoreRequest :=
  map (fun i => request i imp) (seq k n).

(** Two records of equal importance, stored at the same time; only the
    first holds the text "cat". *)
Definition cat_and_dog : MemorySystem.t :=
  MemorySystem.store_all
    [MemorySystem.mkRequest 1 0 "the cat sat" episodic 50 0 [];
     MemorySystem.mkRequest 2 0 "a dog ran" episodic 50 0 []]
    (MemorySystem.new 50 1000).

(** The same, with a second record that holds "CAT" in capitals, in its
    content and in a tag. *)
Definition cat_and_capitals : MemorySystem.t :=
  MemorySystem.store_all
    [MemorySystem.mkRequest 1 0 "the cat sat" episodic 50 0 [];
     MemorySystem.mkRequest 2 0 "THE CAT SAT" episodic 50 0 ["CAT"%string]]
    (MemorySystem.new 50 1000).

End Scenario.

(* ================================================================= *)
(** * Properties *)


(* ----------------------------------------------------------------- *)
(** ** Trait adaptation *)

Section TraitAdaptation.

Import Js PersonalitySystem.
Open Scope Q_scope.

Lemma Trait_eqb_eq (a b : Trait) : Trait_eqb a b = true <-> a = b.
Proof. destruct a, b; simpl; split; intro H; congruence. Qed.

Lemma get_set_trait_same (t : Trait) (v : Q) (b : BigFiveTraits) :
  get_trait t (set_trait t v b) = v.
Proof. destruct t; reflexivity. Qed.

Lemma get_set_trait_other (t k : Trait) (v : Q) (b : BigFiveTraits) :
  Trait_eqb t k = false -> get_trait t (set_trait k v b) = get_trait t b.
Proof. destruct t, k; simpl; intro H; try reflexivity; discriminate. Qed.

(** An entry for another trait leaves [t] alone. *)
Lemma adapt_other (rate : Q) (t k : Trait) (v : Q) (b : BigFiveTraits) :
  Trait_eqb t k = false -> get_trait t (adapt rate b (k, v)) = get_trait t b.
Proof. intro H. unfold adapt. now apply get_set_trait_other. Qed.

Lemma fold_adapt_absent (rate : Q) (t : Trait) (c : TraitChanges) :
  forall b, changes_lookup t c = None ->
            get_trait t (fold_left (adapt rate) c b) = get_trait t b.
Proof.
  induction c as [|[k v] c IH]; intros b H; [reflexivity|].
  cbn [fold_left changes_lookup] in *.
  destruct (Trait_eqb t k) eqn:E; [discriminate|].
  rewrite IH by assumption. now apply adapt_other.
Qed.

Lemma has_key_lookup (t : Trait) (c : TraitChanges) :
  changes_has t c = false -> changes_lookup t c = None.
Proof.
  induction c as [|[k v] c IH]; simpl; [reflexivity|].
  destruct (Trait_eqb t k); [discriminate | exact IH].
Qed.

Lemma clamp_in_range (x : Q) : 0 <= Math_max 0 (Math_min 100 x) <= 100.
Proof.
  unfold Math_max, Math_min. split.
  - apply Q.le_max_l.
  - apply Q.max_lub; [discriminate | apply Q.le_min_l].
Qed.

Lemma fold_adapt_formula (rate : Q) (t : Trait) (c : TraitChanges) :
  forall b,
    changes_distinct c = true ->
    get_trait t (fold_left (adapt rate) c b) =
    match changes_lookup t c with
    | Some v =>
        Math_max 0 (Math_min 100
          (get_trait t b + (v - get_trait t b) * (rate / 100)))
    | None => get_trait t b
    end.
Proof.
  induction c as [|[k v] c IH]; intros b D; [reflexivity|].
  cbn [fold_left changes_lookup changes_distinct] in *.
  apply andb_true_iff in D. destruct D as [Hk D].
  apply negb_true_iff in Hk.
  destruct (Trait_eqb t k) eqn:E.
  - apply Trait_eqb_eq in E. subst k.
    rewrite fold_adapt_absent by now apply has_key_lookup.
    unfold adapt. now rewrite get_set_trait_same.
  - rewrite IH by assumption.
    now rewrite (adapt_other rate t k v b E).
Qed.

(** C7, as the code has it.  [updateBigFive] moves every trait that
    the argument provides from its current value [cur] to [cur + (value
    - cur) * (adaptationRate / 100)], clamped to the interval from 0 to
    100, and leaves the traits that the argument does not provide
    unchanged.  The given value is the target of the step, and nothing
    keeps the step short of it. *)
Theorem updateBigFive_moves_toward_target
    (changes : TraitChanges) (p : PersonalitySystem.t) (b : BigFiveTraits)
    (Hb : bigFive (config p) = Some b)
    (Hkeys : changes_distinct changes = true) :
  forall t : Trait,
    let cur := get_trait t b in
    let new := get_trait t (getBigFive (updateBigFive changes p)) in
    match changes_lookup t changes with
    | Some value =>
        new = Math_max 0 (Math_min 100
                (cur + (value - cur) * (adaptationRate p / 100)))
        /\ 0 <= new <= 100
    | None => new = cur
    end.
Proof.
  intros t cur new. subst cur new.
  unfold updateBigFive, getBigFive. rewrite Hb. simpl.
  rewrite (fold_adapt_formula (adaptationRate p) t changes b Hkeys).
  destruct (changes_lookup t changes) as [v|]; [|reflexivity].
  split; [reflexivity | apply clamp_in_range].
Qed.

Lemma updateBigFive_moves_toward_target_witness :
  let p := PersonalitySystem.new (mkPersonalityConfig None None None None) 5 in
  let changes := [(Extraversion, 80); (Neuroticism, 0)] in
  bigFive (config p) = Some getDefaultBigFive
  /\ changes_distinct changes = true
  /\ (let new := get_trait Extraversion (getBigFive (updateBigFive changes p)) in
      new = Math_max 0 (Math_min 100 (45 + (80 - 45) * (5 / 100)))
      /\ 0 <= new <= 100)
  /\ get_trait Openness (getBigFive (updateBigFive changes p)) = 60.
Proof.
  intros p changes.
  split; [reflexivity|]. split; [reflexivity|]. split.
  - exact (updateBigFive_moves_toward_target changes p
             (b := getDefaultBigFive) eq_refl eq_refl Extraversion).
  - exact (updateBigFive_moves_toward_target changes p
             (b := getDefaultBigFive) eq_refl eq_refl Openness).
Defined.

(** With the adaptation rate at 100, the upper end of its documented
    range, the step is the whole distance: [updateBigFive] puts each
    provided trait at the given value itself, extraversion from 45 to 80
    and neuroticism from 35 to 0, which is an absolute set; the traits
    that are not provided stay. *)
Lemma updateBigFive_at_rate_100_sets_the_value :
  let p := PersonalitySystem.new (mkPersonalityConfig None None None None) 100 in
  let changes := [(Extraversion, 80); (Neuroticism, 0)] in
  let after := getBigFive (updateBigFive changes p) in
  adaptationRate p == 100
  /\ changes_distinct changes = true
  /\ extraversion (getBigFive p) == 45
  /\ neuroticism (getBigFive p) == 35
  /\ extraversion after == 80
  /\ neuroticism after == 0
  /\ openness after == openness (getBigFive p)
  /\ conscientiousness after == conscientiousness (getBigFive p)
  /\ agreeableness after == agreeableness (getBigFive p).
Proof.
  cbv zeta.
  repeat match goal with |- _ /\ _ => split end; vm_compute; reflexivity.
Qed.

(** The trait part of the clamping invariant. *)
Lemma updateBigFive_in_range (changes : TraitChanges) (p : PersonalitySystem.t) :
  traits_in_range (getBigFive p) ->
  traits_in_range (getBigFive (updateBigFive changes p)).
Proof.
  unfold updateBigFive, getBigFive.
  destruct (bigFive (config p)) as [b|] eqn:Eb; [|rewrite Eb; exact (fun H => H)].
  cbn [config bigFive]. clear Eb.
  revert b. induction changes as [|[k v] c IH]; intros b Hb; [exact Hb|].
  cbn [fold_left]. apply IH. intro t.
  destruct (Trait_eqb t k) eqn:E.
  - apply Trait_eqb_eq in E. subst k. unfold adapt.
    rewrite get_set_trait_same. apply clamp_in_range.
  - rewrite (adapt_other _ t k v b E). apply Hb.
Qed.

End TraitAdaptation.

(* ----------------------------------------------------------------- *)
(** ** The mood engine *)

Section MoodUpdates.

Import Js MoodEngine.
Open Scope Q_scope.

Lemma MoodState_eqb_eq (a b : MoodState) : MoodState_eqb a b = true <-> a = b.
Proof. destruct a, b; simpl; split; intro H; congruence. Qed.

(** What [updateMood] leaves in the emotional state: the adjusted
    scalars, and the mood that classifies them. *)
Lemma updateMood_state (tid : nat) (now : Z) (s : Stimulus) (me : MoodEngine.t) :
  let es := adjust s (emotionalState me) in
  emotionalState (updateMood tid now s me)
  = with_mood (calculateMoodFromState es) es.
Proof.
  intro es. unfold updateMood. fold es.
  destruct (MoodState_eqb (calculateMoodFromState es) (mood es)) eqn:E.
  - apply MoodState_eqb_eq in E. rewrite E.
    destruct es; reflexivity.
  - reflexivity.
Qed.

Lemma moveToward_between (cur target step lo hi : Q) :
  lo <= cur <= hi -> lo <= target <= hi -> 0 <= step ->
  lo <= moveToward cur target step <= hi.
Proof.
  intros [Hl Hh] [Tl Th] Hs. unfold moveToward, ltb, gtb, Math_min, Math_max.
  destruct (Qle_bool target cur) eqn:E1; simpl.
  - destruct (Qle_bool cur target) eqn:E2; simpl.
    + split; assumption.
    + split.
      * apply Qle_trans with target; [assumption | apply Q.le_max_l].
      * apply Q.max_lub; [assumption | lra].
  - assert (cur < target).
    { apply Qnot_le_lt. intro C. apply Qle_bool_iff in C. congruence. }
    split.
    + apply Q.min_glb; [assumption | lra].
    + apply Qle_trans with target; [apply Q.le_min_l | assumption].
Qed.

(** The emotional-state part of the clamping invariant: a stimulus of
    non-negative intensity keeps the four scalars between 0 and 100. *)
Lemma updateMood_in_range (tid : nat) (now : Z) (s : Stimulus) (me : MoodEngine.t) :
  0 <= intensity s ->
  scalars_in_range (emotionalState me) ->
  scalars_in_range (emotionalState (updateMood tid now s me)).
Proof.
  intros Hi (He & Hs & Hc & Hb).
  rewrite updateMood_state. unfold scalars_in_range, with_mood, adjust.
  destruct (stimulus_type s); cbn [energy stress confidence socialBattery].
  - repeat split; unfold Math_min, Math_max;
      first [ apply Q.le_min_l | apply Q.le_max_l
            | apply Q.min_glb; [discriminate | lra]
            | apply Q.max_lub; [discriminate | lra]
            | tauto ].
  - repeat split; unfold Math_min, Math_max;
      first [ apply Q.le_min_l | apply Q.le_max_l
            | apply Q.min_glb; [discriminate | lra]
            | apply Q.max_lub; [discriminate | lra]
            | tauto ].
  - destruct (@moveToward_between _ 70 5 0 100 He) as [E1 E2];
      [split; discriminate | discriminate |].
    destruct (@moveToward_between _ 20 5 0 100 Hs) as [S1 S2];
      [split; discriminate | discriminate |].
    destruct (@moveToward_between _ 60 3 0 100 Hc) as [C1 C2];
      [split; discriminate | discriminate |].
    tauto.
Qed.

End MoodUpdates.

Section MoodClassification.

Import Js MoodEngine.
Open Scope Q_scope.

Lemma calculateMoodFromState_table (es : EmotionalState) :
  calculateMoodFromState es
  = spec_classify (energy es) (stress es) (confidence es) (socialBattery es).
Proof.
  unfold calculateMoodFromState, spec_classify, spec_rules. cbn [first_rule].
  destruct (gtb (stress es) 70); [reflexivity|].
  destruct (ltb (energy es) 30); [reflexivity|].
  destruct (gtb (energy es) 80 && ltb (stress es) 30); [reflexivity|].
  destruct (gtb (confidence es) 70 && ltb (stress es) 40); [reflexivity|].
  unfold gtb, ltb.
  destruct (Qle_bool (socialBattery es) 70), (Qle_bool (confidence es) 50),
    (Qle_bool 80 (confidence es)); reflexivity.
Qed.

(** C2. Mood classification depends on nothing but the four scalars
    energy, stress, confidence and socialBattery: whatever the engine's
    current mood, thoughts and mood history, it is the value of the
    six-rule priority table of the specification on those scalars, and
    the mood that [updateMood] leaves is that value on the scalars it
    leaves.  In particular (energy 75, stress 80) is anxious, (energy 20,
    stress 10) is contemplative and (energy 85, stress 10, confidence 75)
    is joyful. *)
Theorem mood_classification_table :
  (forall m e s c sb ths hist,
      calculateMoodFromState
        (emotionalState (mk (mkEmotionalState m e s c sb) ths hist))
      = spec_classify e s c sb)
  /\ (forall tid now stimulus me,
         let es := emotionalState (updateMood tid now stimulus me) in
         mood es
         = spec_classify (energy es) (stress es) (confidence es) (socialBattery es))
  /\ (forall m c sb, calculateMoodFromState (mkEmotionalState m 75 80 c sb) = anxious)
  /\ (forall m c sb, calculateMoodFromState (mkEmotionalState m 20 10 c sb) = contemplative)
  /\ (forall m sb, calculateMoodFromState (mkEmotionalState m 85 10 75 sb) = joyful).
Proof.
  split; [|split; [|split; [|split]]].
  - intros m e s c sb ths hist. apply calculateMoodFromState_table.
  - intros tid now stimulus me es. subst es. rewrite updateMood_state.
    cbn [with_mood mood energy stress confidence socialBattery].
    apply calculateMoodFromState_table.
  - intros; reflexivity.
  - intros; reflexivity.
  - intros; reflexivity.
Qed.

End MoodClassification.

Section FluentMood.

Import Js MoodEngine.
Open Scope Q_scope.

(** C9. [withMood] ignores the mood it is given: on the same Soul, with
    the same clock and identifier supply, any two requested moods leave
    the same Soul.  The call steps energy, stress and confidence one
    step towards 70, 20 and 60, keeps socialBattery, and the mood it
    leaves is the classification of those scalars, whatever was
    requested. *)
Theorem withMood_ignores_requested_mood :
  forall (tid : nat) (now : Z) (m1 m2 : MoodState) (s : Soul.t),
    Soul.withMood tid now m1 s = Soul.withMood tid now m2 s
    /\ (let es := emotionalState (Soul.moodEngine s) in
        let es' := emotionalState (Soul.moodEngine (Soul.withMood tid now m1 s)) in
        energy es' = moveToward (energy es) 70 5
        /\ stress es' = moveToward (stress es) 20 5
        /\ confidence es' = moveToward (confidence es) 60 3
        /\ socialBattery es' = socialBattery es
        /\ mood es' = calculateMoodFromState es').
Proof.
  intros tid now m1 m2 s. split; [reflexivity|].
  cbv zeta. unfold Soul.withMood, Soul.set_moodEngine.
  cbn [Soul.moodEngine]. rewrite updateMood_state.
  repeat split.
Qed.

(** On a freshly constructed Soul the requested mood [content] is not
    the mood that results. *)
Example withMood_content_gives_curious :
  getCurrentMood (Soul.moodEngine (Soul.withMood 2 0 content (Soul.new 0 1 0 None)))
  = curious.
Proof. reflexivity. Qed.

End FluentMood.

(* ----------------------------------------------------------------- *)
(** ** Statistics of the memory store *)

Section Statistics.

Import Js MemorySystem.
Open Scope Q_scope.

Lemma round_or_zero_div_nonzero (a : Q) (n : nat) :
  exists z : Z,
    round (or_zero (div a (inject_Z (Z.of_nat (S n))))) = JFin (inject_Z z).
Proof.
  unfold div.
  assert (E : Qeq_bool (inject_Z (Z.of_nat (S n))) 0 = false).
  { unfold Qeq_bool, inject_Z. cbn [Qnum Qden]. rewrite Z.mul_1_r.
    apply Z.eqb_neq. lia. }
  rewrite E. cbn [or_zero].
  destruct (Qeq_bool (a / inject_Z (Z.of_nat (S n))) 0); cbn [round]; eexists; reflexivity.
Qed.

(** C10. [getStats] never fails: on a freshly constructed store every
    count is 0, the average importance is the number 0 and there are no
    type counts; and in every state of the store the average importance
    is a finite integer, and the three counts are the sizes of the
    primary index, of the short-term list and of the long-term list. *)
Theorem getStats_total :
  (forall shortCap longCap : nat,
      getStats (MemorySystem.new shortCap longCap) = mkStats 0 0 0 (JFin 0) [])
  /\ (forall ms : MemorySystem.t,
         (exists z : Z, averageImportance (getStats ms) = JFin (inject_Z z))
         /\ totalMemories (getStats ms) = IdMap.size (memories ms)
         /\ shortTermCount (getStats ms) = List.length (shortTermMemory ms)
         /\ longTermCount (getStats ms) = List.length (longTermMemory ms)).
Proof.
  split.
  - intros; reflexivity.
  - intro ms. split; [|split; [|split]].
    + unfold getStats. cbn [averageImportance].
      unfold IdMap.values.
      destruct (map snd (memories ms)) as [|m rest].
      * exists 0%Z. reflexivity.
      * cbn [List.length]. apply round_or_zero_div_nonzero.
    + unfold getStats, IdMap.values, IdMap.size. cbn [totalMemories].
      apply length_map.
    + reflexivity.
    + reflexivity.
Qed.

End Statistics.

(* ----------------------------------------------------------------- *)
(** ** The emotional-impact classifier *)

Section EmotionalImpactClassifier.

Import Js Soul.
Open Scope Q_scope.

Lemma word_score_from (lowerInput : string) (words : list string) :
  forall n : nat,
    fold_left (fun score word => if includes lowerInput word then S score else score)
              words n
    = (n + List.length (filter (fun word => includes lowerInput word) words))%nat.
Proof.
  induction words as [|w ws IH]; intro n; cbn [fold_left filter].
  - cbn. lia.
  - rewrite IH. destruct (includes lowerInput w); cbn [List.length]; lia.
Qed.

Lemma word_score_hits (input : string) (words : list string) :
  word_score (toLowerCase input) words = lexicon_hits input words.
Proof. unfold word_score, lexicon_hits. now rewrite word_score_from. Qed.

(** C6, as the code has it.  Let [p] and [n] be the numbers of positive
    and of negative lexicon words that occur in the lower-cased input
    (each word counted once).  The polarity is positive when [p > n],
    negative when [n > p] and neutral on a tie; the intensity is
    [min(80, 30 + 15 * p)] for positive and [min(80, 30 + 15 * n)] for
    negative polarity, and 20 for neutral polarity, also when lexicon
    words matched; the importance is [30 + min(50, length / 2)]; the
    emotional weight is the intensity, its negation, or 0. *)
Theorem analyzeEmotionalImpact_by_winning_side :
  forall input : string,
    let p := lexicon_hits input positiveWords in
    let n := lexicon_hits input negativeWords in
    let r := analyzeEmotionalImpact input in
    impact_type r =
      (if (n <? p)%nat then MoodEngine.positive
       else if (p <? n)%nat then MoodEngine.negative
       else MoodEngine.neutral_stimulus)
    /\ impact_intensity r =
         (if (n <? p)%nat then Math_min 80 (30 + of_nat p * 15)
          else if (p <? n)%nat then Math_min 80 (30 + of_nat n * 15)
          else 20)
    /\ impact_importance r = 30 + Math_min 50 (str_length input / 2)
    /\ emotionalWeight r =
         match impact_type r with
         | MoodEngine.positive => impact_intensity r
         | MoodEngine.negative => - impact_intensity r
         | MoodEngine.neutral_stimulus => 0
         end.
Proof.
  intros input p n r. subst r. unfold analyzeEmotionalImpact.
  rewrite !word_score_hits. fold p n.
  destruct (n <? p)%nat; [|destruct (p <? n)%nat]; repeat split.
Qed.

(** The intensity rule of the specification, "min(80, 30 + 15 * matchCount)
    when there is any lexicon match", fails on a tie: "good bad" matches one
    positive and one negative lexicon word, and the intensity is 20, which
    is [min(80, 30 + 15 * k)] for no match count [k >= 1]. *)
Lemma analyzeEmotionalImpact_tie_has_intensity_20 :
  lexicon_hits "good bad" positiveWords = 1%nat
  /\ lexicon_hits "good bad" negativeWords = 1%nat
  /\ impact_type (analyzeEmotionalImpact "good bad") = MoodEngine.neutral_stimulus
  /\ impact_intensity (analyzeEmotionalImpact "good bad") = 20
  /\ (forall k : nat, (1 <= k)%nat ->
        ~ impact_intensity (analyzeEmotionalImpact "good bad")
          == Math_min 80 (30 + 15 * of_nat k)).
Proof.
  split; [reflexivity|]. split; [reflexivity|]. split; [reflexivity|].
  split; [reflexivity|].
  intros k Hk. change (impact_intensity (analyzeEmotionalImpact "good bad")) with 20.
  unfold Math_min. intro E.
  assert (H1 : 45 <= 30 + 15 * of_nat k).
  { unfold of_nat. assert (1 <= inject_Z (Z.of_nat k)).
    { change 1 with (inject_Z 1). rewrite <- Zle_Qle. lia. }
    lra. }
  assert (H2 : 45 <= Qmin 80 (30 + 15 * of_nat k)).
  { apply Q.min_glb; [discriminate | exact H1]. }
  rewrite <- E in H2. lra.
Qed.

End EmotionalImpactClassifier.

(* ----------------------------------------------------------------- *)
(** ** Personality drift in [reflect] *)

Section PersonalityDrift.

Import Js Soul Scenario.
Open Scope Q_scope.

(** C5, on the code.  After one exchange with a positive input the recent
    memories with weight above 30 outnumber those below -30, [reflect]
    hands the targets extraversion 2 and neuroticism -1 to
    [updateBigFive], and extraversion falls from 45 to 42.85.  After one
    exchange with a negative input the target is neuroticism 1, and
    neuroticism falls from 35 to 33.3.  In both runs the reflection is
    stored as a semantic memory. *)
Theorem reflect_drift_lowers_traits :
  (personalityChanges (snd (reflect_after "I love this, it is great"))
     = [(Extraversion, 2); (Neuroticism, -1)]
   /\ extraversion (traits fresh) == 45
   /\ extraversion (traits (fst (reflect_after "I love this, it is great"))) == 42.85
   /\ neuroticism (traits (fst (reflect_after "I love this, it is great"))) == 33.2)
  /\ (personalityChanges (snd (reflect_after "I hate this, it is terrible"))
        = [(Neuroticism, 1)]
      /\ neuroticism (traits fresh) == 35
      /\ neuroticism (traits (fst (reflect_after "I hate this, it is terrible"))) == 33.3)
  /\ option_map mem_type
       (IdMap.get 99 (MemorySystem.memories
                        (memorySystem (fst (reflect_after "I love this, it is great")))))
     = Some semantic.
Proof.
  repeat match goal with |- _ /\ _ => split end; vm_compute; reflexivity.
Qed.

End PersonalityDrift.

(* ----------------------------------------------------------------- *)
(** ** What [store] writes *)

Section StoreWrites.

Import Js MemorySystem.
Open Scope Q_scope.

(** C1, on the code.  [store] writes the importance and the emotional
    weight it is given: the record it returns carries both arguments
    unchanged, and storing importance 150 and weight -250 leaves a record
    in the primary index whose importance exceeds 100 and whose weight is
    below -100. *)
Theorem store_writes_arguments_unclamped :
  (forall mid now text ty imp weight tgs ms,
      snd (store mid now text ty imp weight tgs ms)
      = mkMemory mid text ty imp weight now tgs [])
  /\ (let ms := fst (store 1 0 "x" episodic 150 (-250) [] (MemorySystem.new 50 1000)) in
      IdMap.get 1 (memories ms) = Some (mkMemory 1 "x" episodic 150 (-250) 0 [] [])
      /\ shortTermMemory ms = [mkMemory 1 "x" episodic 150 (-250) 0 [] []]
      /\ 100 < 150 /\ -250 < -100).
Proof.
  split.
  - intros; reflexivity.
  - cbv zeta. repeat match goal with |- _ /\ _ => split end; vm_compute; reflexivity.
Qed.

Lemma Forall_firstn_skipn (P : Memory -> Prop) (n : nat) (l : list Memory) :
  Forall P l -> Forall P (firstn n l) /\ Forall P (skipn n l).
Proof.
  intro H. rewrite <- (firstn_skipn n l) in H. now apply Forall_app in H.
Qed.

Lemma set_in_range (k : nat) (v : Memory) (m : IdMap.t) :
  memory_in_range v ->
  Forall memory_in_range (IdMap.values m) ->
  Forall memory_in_range (IdMap.values (IdMap.set k v m)).
Proof.
  unfold IdMap.values. intros Hv.
  induction m as [|[k' v'] m IH]; cbn [IdMap.set map snd]; intro H.
  - now constructor.
  - apply Forall_cons_iff in H. destruct H as [H1 H2].
    destruct (Nat.eqb k k'); cbn [map snd]; constructor; auto.
Qed.

Lemma delete_in_range (k : nat) (m : IdMap.t) :
  Forall memory_in_range (IdMap.values m) ->
  Forall memory_in_range (IdMap.values (IdMap.delete k m)).
Proof.
  unfold IdMap.values.
  induction m as [|[k' v'] m IH]; cbn [IdMap.delete map snd]; intro H; [exact H|].
  apply Forall_cons_iff in H. destruct H as [H1 H2].
  destruct (Nat.eqb k k'); cbn [map snd]; [exact H2 | constructor; auto].
Qed.

Lemma forget_in_range (l : list Memory) :
  forall idx : IdMap.t,
    Forall memory_in_range (IdMap.values idx) ->
    Forall memory_in_range (IdMap.values (fold_left forget_one l idx)).
Proof.
  induction l as [|m l IH]; intros idx H; [exact H|].
  cbn [fold_left]. apply IH. now apply delete_in_range.
Qed.

Lemma consolidate_one_in_range (l : list Memory) :
  forall (lt : list Memory) (idx : IdMap.t),
    Forall memory_in_range l ->
    Forall memory_in_range lt ->
    Forall memory_in_range (IdMap.values idx) ->
    Forall memory_in_range (fst (fold_left consolidate_one l (lt, idx)))
    /\ Forall memory_in_range
         (IdMap.values (snd (fold_left consolidate_one l (lt, idx)))).
Proof.
  induction l as [|m l IH]; intros lt idx Hl Hlt Hidx; [now split|].
  apply Forall_cons_iff in Hl. destruct Hl as [Hm Hl].
  cbn [fold_left]. unfold consolidate_one at 2 4.
  destruct (geb (importance m) 60).
  - apply IH; [assumption | now constructor | assumption].
  - apply IH; [assumption | assumption | now apply delete_in_range].
Qed.

Lemma consolidateMemories_in_range (ms : MemorySystem.t) :
  records_in_range ms -> records_in_range (consolidateMemories ms).
Proof.
  intros (Hidx & Hs & Hl).
  destruct (Forall_firstn_skipn (maxShortTermSize ms) Hs) as [Hkept Hremoved].
  destruct (@consolidate_one_in_range _ _ _ Hremoved Hl Hidx) as [Hlt' Hidx'].
  assert (H1 : records_in_range
                 (if (maxShortTermSize ms <? List.length (shortTermMemory ms))%nat
                  then
                    let (kept, toConsolidate) :=
                      splice (maxShortTermSize ms) (shortTermMemory ms) in
                    let (lt, idx) :=
                      fold_left consolidate_one toConsolidate
                                (longTermMemory ms, memories ms) in
                    mk idx kept lt (maxShortTermSize ms) (maxLongTermSize ms)
                  else ms)).
  { destruct (maxShortTermSize ms <? List.length (shortTermMemory ms))%nat.
    - unfold splice.
      destruct (fold_left consolidate_one
                  (skipn (maxShortTermSize ms) (shortTermMemory ms))
                  (longTermMemory ms, memories ms)) as [lt idx].
      repeat split; assumption.
    - repeat split; assumption. }
  unfold consolidateMemories.
  set (ms1 := if (maxShortTermSize ms <? List.length (shortTermMemory ms))%nat
              then _ else ms) in *.
  destruct H1 as (Hidx1 & Hs1 & Hl1).
  destruct (maxLongTermSize ms1 <? List.length (longTermMemory ms1))%nat.
  - unfold splice.
    destruct (Forall_firstn_skipn (maxLongTermSize ms1) Hl1) as [Hk Hf].
    repeat split; cbn [memories shortTermMemory longTermMemory];
      [now apply forget_in_range | assumption | assumption].
  - repeat split; assumption.
Qed.

(** The record part of the clamping invariant holds for arguments that
    are in range: [store] then keeps every record in range. *)
Lemma store_in_range (mid : nat) (now : Z) (text : string) (ty : MemoryType)
    (imp weight : Q) (tgs : list string) (ms : MemorySystem.t) :
  0 <= imp <= 100 -> -100 <= weight <= 100 ->
  records_in_range ms ->
  records_in_range (fst (store mid now text ty imp weight tgs ms)).
Proof.
  intros Hi Hw (Hidx & Hs & Hl). unfold store. cbn [fst].
  assert (Hm : memory_in_range (mkMemory mid text ty imp weight now tgs []))
    by (split; assumption).
  apply consolidateMemories_in_range. repeat split;
    cbn [memories shortTermMemory longTermMemory].
  - now apply set_in_range.
  - now constructor.
  - assumption.
Qed.

End StoreWrites.

(* ----------------------------------------------------------------- *)
(** ** Snapshots *)

Section Snapshots.

Import Js Soul Scenario.
Open Scope Q_scope.

(** The personality survives [import (export s)]. *)
Lemma import_export_traits (s : Soul.t) (b : BigFiveTraits) :
  bigFive (PersonalitySystem.config (personalitySystem s)) = Some b ->
  PersonalitySystem.getBigFive (personalitySystem (import (export s) s)) = b.
Proof.
  intro H. unfold import, export. cbn.
  unfold PersonalitySystem.getConfig. rewrite H. reflexivity.
Qed.

(** C8, on the code.  A Soul built with the defaults holds 27 memories
    after thirteen short exchanges; [import (export s)] on that Soul
    leaves 24 in the primary index, while the short-term list has grown
    from 27 to 50 entries.  The trait vector and the participants of the
    conversation contexts are as before. *)
Theorem import_export_drops_memories :
  let s := chat 13 fresh in
  let s' := import (export s) s in
  IdMap.size (MemorySystem.memories (memorySystem s)) = 27%nat
  /\ IdMap.size (MemorySystem.memories (memorySystem s')) = 24%nat
  /\ List.length (MemorySystem.shortTermMemory (memorySystem s)) = 27%nat
  /\ List.length (MemorySystem.shortTermMemory (memorySystem s')) = 50%nat
  /\ traits s' = traits s
  /\ map fst (conversationContexts s') = map fst (conversationContexts s).
Proof.
  cbv zeta.
  repeat match goal with |- _ /\ _ => split end; vm_compute; reflexivity.
Qed.

End Snapshots.

(* ----------------------------------------------------------------- *)
(** ** Consolidation *)

Section Consolidation.

Import Js MemorySystem.
Open Scope Q_scope.

(** The short-term pass over the removed memories, in closed form. *)
Lemma consolidate_fold (removed : list Memory) :
  forall (lt : list Memory) (idx : IdMap.t),
    fold_left consolidate_one removed (lt, idx)
    = (rev (filter important removed) ++ lt,
       fold_left forget_one (filter (fun m => negb (important m)) removed) idx).
Proof.
  induction removed as [|m removed IH]; intros lt idx; [reflexivity|].
  cbn [fold_left filter]. unfold consolidate_one at 2. fold (important m).
  destruct (important m); cbn [negb rev fold_left]; rewrite IH.
  - now rewrite <- app_assoc.
  - reflexivity.
Qed.

Lemma consolidateMemories_within (ms : MemorySystem.t) :
  (List.length (shortTermMemory ms) <= maxShortTermSize ms)%nat ->
  (List.length (longTermMemory ms) <= maxLongTermSize ms)%nat ->
  consolidateMemories ms = ms.
Proof.
  intros Hs Hl. unfold consolidateMemories.
  apply Nat.ltb_ge in Hs. rewrite Hs.
  apply Nat.ltb_ge in Hl. now rewrite Hl.
Qed.

(** [consolidateMemories] as a whole, when the long-term list stays
    within its capacity. *)
Lemma consolidateMemories_law (ms : MemorySystem.t) :
  let removed := skipn (maxShortTermSize ms) (shortTermMemory ms) in
  let promoted := rev (filter important removed) ++ longTermMemory ms in
  (List.length promoted <= maxLongTermSize ms)%nat ->
  consolidateMemories ms
  = mk (fold_left forget_one (filter (fun m => negb (important m)) removed)
                  (memories ms))
       (firstn (maxShortTermSize ms) (shortTermMemory ms))
       promoted
       (maxShortTermSize ms) (maxLongTermSize ms).
Proof.
  intros removed promoted Hl. unfold consolidateMemories.
  destruct (maxShortTermSize ms <? List.length (shortTermMemory ms))%nat eqn:E.
  - unfold splice. fold removed. rewrite consolidate_fold. fold promoted.
    cbn [longTermMemory maxLongTermSize].
    apply Nat.ltb_ge in Hl. now rewrite Hl.
  - apply Nat.ltb_ge in E.
    assert (R : removed = []) by (apply skipn_all2; exact E).
    assert (P : promoted = longTermMemory ms) by (unfold promoted; now rewrite R).
    rewrite P in Hl |- *. rewrite R. cbn [filter fold_left].
    rewrite firstn_all2 by exact E.
    apply Nat.ltb_ge in Hl. rewrite Hl. now destruct ms.
Qed.

Lemma set_fresh (k : nat) (v : Memory) (m : IdMap.t) :
  existsb (Nat.eqb k) (map fst m) = false -> IdMap.set k v m = m ++ [(k, v)].
Proof.
  induction m as [|[k' v'] m IH]; cbn [map fst existsb IdMap.set app]; intro H;
    [reflexivity|].
  apply orb_false_iff in H. destruct H as [H1 H2].
  rewrite H1. now rewrite IH.
Qed.

Lemma get_absent (k : nat) (m : IdMap.t) :
  existsb (Nat.eqb k) (map fst m) = false -> IdMap.get k m = None.
Proof.
  induction m as [|[k' v'] m IH]; cbn [map fst existsb IdMap.get]; intro H;
    [reflexivity|].
  apply orb_false_iff in H. destruct H as [H1 H2].
  rewrite H1. now apply IH.
Qed.

Lemma existsb_snoc (k x : nat) (l : list nat) :
  existsb (Nat.eqb k) (l ++ [x]) = existsb (Nat.eqb k) l || Nat.eqb k x.
Proof. rewrite existsb_app. cbn. now rewrite orb_false_r. Qed.

Lemma distinct_ids_snoc (l : list nat) (x : nat) :
  distinct_ids (l ++ [x]) = true ->
  distinct_ids l = true /\ existsb (Nat.eqb x) l = false.
Proof.
  induction l as [|k l IH]; cbn [app distinct_ids]; intro H; [split; reflexivity|].
  apply andb_true_iff in H. destruct H as [H1 H2].
  apply negb_true_iff in H1. rewrite existsb_snoc in H1.
  apply orb_false_iff in H1. destruct H1 as [H1 H3].
  destruct (IH H2) as [D1 D2]. split.
  - now rewrite H1, D1.
  - cbn [existsb]. rewrite Nat.eqb_sym, H3. exact D2.
Qed.

Lemma map_entry_ids (rs : list StoreRequest) :
  map fst (map entry_of rs) = map req_id rs.
Proof. rewrite map_map. reflexivity. Qed.

(** Storing into a store that has seen [rs], before consolidation. *)
Lemma store_request_raw (cap lcap : nat) (rs : list StoreRequest) (r : StoreRequest) :
  existsb (Nat.eqb (req_id r)) (map req_id rs) = false ->
  store_request (mk (map entry_of rs) (rev (map memory_of rs)) [] cap lcap) r
  = consolidateMemories
      (mk (map entry_of (rs ++ [r])) (rev (map memory_of (rs ++ [r]))) [] cap lcap).
Proof.
  intro H. unfold store_request, store.
  cbn [fst memories shortTermMemory longTermMemory maxShortTermSize maxLongTermSize].
  rewrite set_fresh by now rewrite map_entry_ids.
  rewrite !map_app, rev_app_distr. reflexivity.
Qed.

Lemma store_all_below (cap lcap : nat) (rs : list StoreRequest) :
  distinct_ids (map req_id rs) = true ->
  (List.length rs <= cap)%nat ->
  store_all rs (MemorySystem.new cap lcap)
  = mk (map entry_of rs) (rev (map memory_of rs)) [] cap lcap.
Proof.
  induction rs as [|r rs IH] using rev_ind; intros D L; [reflexivity|].
  rewrite map_app in D. apply distinct_ids_snoc in D. destruct D as [D1 D2].
  rewrite length_app in L. cbn [List.length] in L.
  unfold store_all. rewrite fold_left_app. cbn [fold_left].
  fold (store_all rs (MemorySystem.new cap lcap)). rewrite IH by (assumption || lia).
  rewrite store_request_raw by assumption.
  apply consolidateMemories_within;
    cbn [shortTermMemory longTermMemory maxShortTermSize maxLongTermSize List.length].
  - rewrite length_rev, length_map, length_app. cbn [List.length]. lia.
  - lia.
Qed.

(** [consolidateMemories] as a whole: the two trims, one after the
    other. *)
Lemma consolidateMemories_passes (ms : MemorySystem.t) :
  let removed := skipn (maxShortTermSize ms) (shortTermMemory ms) in
  let promoted := rev (filter important removed) ++ longTermMemory ms in
  consolidateMemories ms
  = mk (fold_left forget_one (skipn (maxLongTermSize ms) promoted)
          (fold_left forget_one (filter (fun m => negb (important m)) removed)
             (memories ms)))
       (firstn (maxShortTermSize ms) (shortTermMemory ms))
       (firstn (maxLongTermSize ms) promoted)
       (maxShortTermSize ms) (maxLongTermSize ms).
Proof.
  intros removed promoted. unfold consolidateMemories.
  destruct (maxShortTermSize ms <? List.length (shortTermMemory ms))%nat eqn:E1.
  - unfold splice. fold removed. rewrite consolidate_fold. fold promoted.
    cbn [longTermMemory maxLongTermSize memories shortTermMemory maxShortTermSize].
    destruct (maxLongTermSize ms <? List.length promoted)%nat eqn:E2.
    + reflexivity.
    + apply Nat.ltb_ge in E2.
      rewrite (firstn_all2 (n := maxLongTermSize ms) promoted) by exact E2.
      rewrite (skipn_all2 (n := maxLongTermSize ms) promoted) by exact E2.
      reflexivity.
  - apply Nat.ltb_ge in E1.
    assert (R : removed = []) by (apply skipn_all2; exact E1).
    assert (P : promoted = longTermMemory ms) by (unfold promoted; now rewrite R).
    rewrite P, R. cbn [filter fold_left].
    rewrite (firstn_all2 (n := maxShortTermSize ms) (shortTermMemory ms)) by exact E1.
    destruct (maxLongTermSize ms <? List.length (longTermMemory ms))%nat eqn:E2.
    + unfold splice. reflexivity.
    + apply Nat.ltb_ge in E2.
      rewrite (firstn_all2 (n := maxLongTermSize ms) (longTermMemory ms)) by exact E2.
      rewrite (skipn_all2 (n := maxLongTermSize ms) (longTermMemory ms)) by exact E2.
      cbn [fold_left]. now destruct ms.
Qed.

(** The state after [cap + 1] stores, before the last consolidation. *)
Lemma store_all_one_over (cap lcap : nat) (first : StoreRequest)
    (rest : list StoreRequest) :
  distinct_ids (map req_id (first :: rest)) = true ->
  List.length rest = cap ->
  store_all (first :: rest) (MemorySystem.new cap lcap)
  = consolidateMemories
      (mk (map entry_of (first :: rest))
          (rev (map memory_of rest) ++ [memory_of first]) [] cap lcap).
Proof.
  intros D L.
  destruct (exists_last (l := first :: rest)) as (init & lst & E); [discriminate|].
  rewrite E in D |- *.
  assert (Li : List.length init = cap).
  { apply (f_equal (@List.length _)) in E. rewrite length_app in E.
    cbn [List.length] in E. lia. }
  rewrite map_app in D. apply distinct_ids_snoc in D. destruct D as [D1 D2].
  unfold store_all. rewrite fold_left_app. cbn [fold_left].
  fold (store_all init (MemorySystem.new cap lcap)).
  rewrite store_all_below by (assumption || lia).
  rewrite store_request_raw by assumption.
  rewrite <- E. reflexivity.
Qed.

(** C3, as the code has it.  [consolidateMemories], which [store] runs
    after every insertion, keeps the first [capacity] entries of the
    short-term list and removes the rest, from the tail; each removed
    memory with importance at least 60 is prepended to the long-term list
    and every other removed memory is deleted from the primary index.
    The long-term list is then cut to its own capacity, from the tail,
    and every memory cut from it is deleted from the primary index as
    well.  This holds of every state, whatever the lengths of the lists.
    Hence storing [capacity + 1] records into a new store whose long-term
    capacity is at least 1 leaves exactly the [capacity] most recent ones
    in the short-term list, and the one record that leaves it is the
    first one stored: it is promoted when its own importance is at least
    60 and deleted from the index otherwise, whatever the importance of
    the last record stored. *)
Theorem store_one_over_capacity_evicts_oldest :
  (forall ms : MemorySystem.t,
      let removed := skipn (maxShortTermSize ms) (shortTermMemory ms) in
      let promoted := rev (filter important removed) ++ longTermMemory ms in
      shortTermMemory (consolidateMemories ms)
        = firstn (maxShortTermSize ms) (shortTermMemory ms)
      /\ longTermMemory (consolidateMemories ms)
         = firstn (maxLongTermSize ms) promoted
      /\ memories (consolidateMemories ms)
         = fold_left forget_one (skipn (maxLongTermSize ms) promoted)
             (fold_left forget_one (filter (fun m => negb (important m)) removed)
                (memories ms)))
  /\ (forall (cap lcap : nat) (first : StoreRequest) (rest : list StoreRequest),
         List.length rest = cap ->
         distinct_ids (map req_id (first :: rest)) = true ->
         (1 <= lcap)%nat ->
         let ms := store_all (first :: rest) (MemorySystem.new cap lcap) in
         shortTermMemory ms = rev (map memory_of rest)
         /\ List.length (shortTermMemory ms) = cap
         /\ (if geb (req_importance first) 60
             then longTermMemory ms = [memory_of first]
                  /\ memories ms = map entry_of (first :: rest)
                  /\ IdMap.get (req_id first) (memories ms) = Some (memory_of first)
             else longTermMemory ms = []
                  /\ memories ms = map entry_of rest
                  /\ IdMap.get (req_id first) (memories ms) = None)).
Proof.
  split.
  - intros ms removed promoted.
    rewrite (consolidateMemories_passes ms). repeat split.
  - intros cap lcap first rest L D Hl ms. subst ms.
    rewrite store_all_one_over by assumption.
    assert (Lr : List.length (rev (map memory_of rest)) = cap)
      by now rewrite length_rev, length_map.
    assert (F : firstn cap (rev (map memory_of rest) ++ [memory_of first])
                = rev (map memory_of rest)).
    { rewrite firstn_app, Lr, Nat.sub_diag, firstn_O, app_nil_r.
      apply firstn_all2. lia. }
    assert (S : skipn cap (rev (map memory_of rest) ++ [memory_of first])
                = [memory_of first]).
    { rewrite skipn_app, Lr, Nat.sub_diag. cbn [skipn].
      rewrite skipn_all2 by lia. reflexivity. }
    rewrite consolidateMemories_law;
      cbn [shortTermMemory longTermMemory memories maxShortTermSize maxLongTermSize];
      rewrite S; cbn [filter]; unfold important at 1; cbn [memory_of importance].
    + rewrite F. split; [reflexivity|]. split; [exact Lr|].
      unfold important. cbn [memory_of importance].
      destruct (geb (req_importance first) 60); cbn [negb rev app fold_left].
      * repeat split. cbn [map entry_of IdMap.get]. now rewrite Nat.eqb_refl.
      * assert (Del : IdMap.delete (req_id first) (map entry_of (first :: rest))
                      = map entry_of rest).
        { cbn [map]. unfold entry_of at 1. cbn [IdMap.delete].
          now rewrite Nat.eqb_refl. }
        unfold forget_one. change (mem_id (memory_of first)) with (req_id first).
        rewrite Del. repeat split.
        apply get_absent. rewrite map_entry_ids.
        cbn [map distinct_ids] in D. apply andb_true_iff in D.
        destruct D as [D _]. now apply negb_true_iff in D.
    + destruct (geb (req_importance first) 60); cbn [rev app List.length]; lia.
Qed.

End Consolidation.

Section ConsolidationScenarios.

Import Js MemorySystem Scenario.
Open Scope Q_scope.

Lemma store_one_over_capacity_evicts_oldest_witness :
  let first := request 1 40 in
  let rest := requests_from 2 50 40 in
  List.length rest = 50%nat
  /\ distinct_ids (map req_id (first :: rest)) = true
  /\ (1 <= 1000)%nat
  /\ (let ms := store_all (first :: rest) (MemorySystem.new 50 1000) in
      shortTermMemory ms = rev (map memory_of rest)
      /\ List.length (shortTermMemory ms) = 50%nat
      /\ longTermMemory ms = []
      /\ memories ms = map entry_of rest
      /\ IdMap.get 1 (memories ms) = None).
Proof.
  cbv zeta.
  split; [reflexivity|]. split; [reflexivity|]. split; [lia|].
  exact (proj2 store_one_over_capacity_evicts_oldest 50%nat 1000%nat
           (request 1 40) (requests_from 2 50 40) eq_refl eq_refl
           (Nat.lt_0_succ 999)).
Defined.

(** The scenario of the specification, read as written: capacity 50, 51
    records stored, the 51st with importance 40.  When the first record
    has importance 100, the record that leaves the short-term list is
    that first record, and it is promoted: it heads the long-term list,
    it is still in the primary index, and nothing has been deleted. *)
Lemma demoted_record_is_promoted_not_deleted :
  let first := request 1 100 in
  let rest := requests_from 2 50 40 in
  let ms := store_all (first :: rest) (MemorySystem.new 50 1000) in
  List.length (first :: rest) = 51%nat
  /\ option_map req_importance (nth_error (first :: rest) 50) = Some 40
  /\ List.length (shortTermMemory ms) = 50%nat
  /\ existsb (fun m => Nat.eqb (mem_id m) 1) (shortTermMemory ms) = false
  /\ longTermMemory ms = [memory_of first]
  /\ IdMap.get 1 (memories ms) = Some (memory_of first)
  /\ IdMap.size (memories ms) = 51%nat.
Proof.
  cbv zeta.
  repeat match goal with |- _ /\ _ => split end; vm_compute; reflexivity.
Qed.

End ConsolidationScenarios.

(* ----------------------------------------------------------------- *)
(** ** Sorting by a numeric key, descending *)

Section SortDescending.

Import Js.
Open Scope Q_scope.

Context {A : Type} (key : A -> Q).

Lemma insert_desc_perm (x : A) (l : list A) :
  Permutation (insert_desc key x l) (x :: l).
Proof.
  induction l as [|y l IH]; cbn [insert_desc]; [apply Permutation_refl|].
  destruct (geb (key x) (key y)); [apply Permutation_refl|].
  eapply perm_trans; [apply perm_skip, IH | apply perm_swap].
Qed.

Lemma sort_desc_perm (l : list A) : Permutation (sort_desc key l) l.
Proof.
  induction l as [|x l IH]; [apply Permutation_refl|].
  unfold sort_desc in *. cbn [fold_right].
  eapply perm_trans; [apply insert_desc_perm | now apply perm_skip].
Qed.

Lemma insert_desc_sorted (x : A) (l : list A) :
  descending key l -> descending key (insert_desc key x l).
Proof.
  unfold descending. induction l as [|y l IH]; intro Hs; cbn [insert_desc].
  - constructor; constructor.
  - apply StronglySorted_inv in Hs. destruct Hs as [Hl Hy].
    destruct (geb (key x) (key y)) eqn:E.
    + apply Qle_bool_iff in E. constructor.
      * now constructor.
      * constructor; [exact E|].
        eapply Forall_impl; [|exact Hy]. intros a Ha. cbn in Ha.
        eapply Qle_trans; eassumption.
    + assert (Hxy : key x <= key y).
      { apply Qlt_le_weak, Qnot_le_lt. intro C.
        apply Qle_bool_iff in C. unfold geb in E. congruence. }
      constructor; [now apply IH|].
      apply Forall_forall. intros a Ha.
      apply (Permutation_in _ (insert_desc_perm x l)) in Ha.
      destruct Ha as [<-|Ha]; [exact Hxy|].
      rewrite Forall_forall in Hy. now apply Hy.
Qed.

Lemma sort_desc_sorted (l : list A) : descending key (sort_desc key l).
Proof.
  induction l as [|x l IH]; [constructor|].
  unfold sort_desc in *. cbn [fold_right]. now apply insert_desc_sorted.
Qed.

Lemma descending_app_r (l1 l2 : list A) : descending key (l1 ++ l2) -> descending key l2.
Proof.
  unfold descending. induction l1 as [|x l1 IH]; cbn [app]; intro H; [exact H|].
  apply StronglySorted_inv in H. now apply IH.
Qed.

Lemma descending_firstn (n : nat) (l : list A) :
  descending key l -> descending key (firstn n l).
Proof.
  unfold descending. revert n. induction l as [|x l IH]; intros n H.
  - rewrite firstn_nil. constructor.
  - destruct n as [|n]; [constructor|]. cbn [firstn].
    apply StronglySorted_inv in H. destruct H as [Hl Hx].
    constructor; [now apply IH|].
    apply Forall_forall. intros a Ha.
    rewrite Forall_forall in Hx. apply Hx.
    rewrite <- (firstn_skipn n l). apply in_or_app. now left.
Qed.

Lemma slice_to_firstn (k : Z) (l : list A) : exists n : nat, slice_to k l = firstn n l.
Proof. unfold slice_to. destruct (k <? 0)%Z; eexists; reflexivity. Qed.

(** In a descending list, an element with a strictly larger key stands
    before every element of a prefix that has a smaller key. *)
Lemma larger_key_first (n : nat) (l : list A) (a b : A) :
  descending key l -> In a l -> In b (firstn n l) -> key b < key a ->
  exists l1 l2 l3, firstn n l = l1 ++ a :: l2 ++ b :: l3.
Proof.
  intros Hs Ha Hb Hlt.
  destruct (in_split _ _ Hb) as (p1 & p2 & Ep).
  assert (El : l = p1 ++ b :: (p2 ++ skipn n l)).
  { rewrite <- (firstn_skipn n l) at 1. rewrite Ep, <- app_assoc. reflexivity. }
  rewrite El in Ha. apply in_app_or in Ha. destruct Ha as [Ha|Ha].
  - destruct (in_split _ _ Ha) as (q1 & q2 & Eq).
    exists q1, q2, p2. rewrite Ep, Eq, <- app_assoc. reflexivity.
  - exfalso. rewrite El in Hs. apply descending_app_r in Hs.
    apply StronglySorted_inv in Hs. destruct Hs as [_ Hall].
    destruct Ha as [<-|Ha].
    + apply (Qlt_irrefl _ Hlt).
    + rewrite Forall_forall in Hall. apply Hall in Ha. cbn in Ha.
      apply (Qlt_not_le _ _ Hlt Ha).
Qed.

End SortDescending.

(* ----------------------------------------------------------------- *)
(** ** Recall *)

Section Recall.

Import Js MemorySystem.
Open Scope Q_scope.

Lemma prefix_toLowerCase (q s : string) :
  prefix q s = true -> prefix (toLowerCase q) (toLowerCase s) = true.
Proof.
  revert s. induction q as [|c q IH]; intros s H; [destruct s; reflexivity|].
  destruct s as [|d s]; [discriminate|].
  cbn [prefix toLowerCase] in *.
  destruct (ascii_dec c d) as [->|]; [|discriminate].
  destruct (ascii_dec (lower_char d) (lower_char d)); [now apply IH | congruence].
Qed.

(** A literal occurrence is also an occurrence after lower-casing. *)
Lemma includes_matches (s q : string) : includes s q = true -> matches s q = true.
Proof.
  unfold matches. induction s as [|c s IH]; cbn [includes toLowerCase]; intro H.
  - rewrite orb_false_r in H. apply prefix_toLowerCase in H.
    cbn [toLowerCase] in H. now rewrite H.
  - apply orb_true_iff in H. destruct H as [H|H].
    + apply prefix_toLowerCase in H. cbn [toLowerCase] in H. now rewrite H.
    + rewrite (IH H). apply orb_true_r.
Qed.

Lemma of_nat_nonneg (n : nat) : 0 <= of_nat n.
Proof. unfold of_nat. change 0 with (inject_Z 0). rewrite <- Zle_Qle. lia. Qed.

Lemma of_nat_succ (n : nat) : of_nat (S n) == 1 + of_nat n.
Proof.
  unfold of_nat. rewrite Nat2Z.inj_succ. unfold Z.succ.
  rewrite inject_Z_plus. change (inject_Z 1) with 1. ring.
Qed.

Lemma tag_fold (q : string) (tgs : list string) :
  forall score : Q,
    fold_left
      (fun score tag =>
         if includes (toLowerCase tag) (toLowerCase q) then score + 50 else score)
      tgs score
    == score + 50 * of_nat (List.length (filter (fun tag => matches tag q) tgs)).
Proof.
  induction tgs as [|tag tgs IH]; intro score; cbn [fold_left filter].
  - change (score == score + 50 * 0). ring.
  - rewrite IH. unfold matches at 2.
    destruct (includes (toLowerCase tag) (toLowerCase q)); cbn [List.length].
    + rewrite of_nat_succ. ring.
    + reflexivity.
Qed.

Lemma calculateRelevance_sum (now : Z) (m : Memory) (q : string) :
  calculateRelevance now m q == relevance_sum now m q.
Proof.
  unfold calculateRelevance, relevance_sum, recencyBonus, matches.
  rewrite tag_fold. unfold matches.
  destruct (includes (toLowerCase (mem_content m)) (toLowerCase q)); ring.
Qed.

Lemma recall_unfold (now : Z) (q : string) (limit : Z) (minImportance : Q)
    (ms : MemorySystem.t) :
  recall now q limit minImportance ms
  = map fst (slice_to limit (sort_desc snd (scored now q minImportance ms))).
Proof. reflexivity. Qed.

Lemma scored_In (now : Z) (q : string) (minImportance : Q) (ms : MemorySystem.t)
    (m : Memory) (r : Q) :
  In (m, r) (scored now q minImportance ms) <->
  In m (IdMap.values (memories ms))
  /\ minImportance <= importance m
  /\ r = calculateRelevance now m q
  /\ 0 < r.
Proof.
  unfold scored. rewrite filter_In, in_map_iff. cbn [snd]. split.
  - intros [(m' & E & Hm) Hpos]. injection E as -> <-.
    apply filter_In in Hm. destruct Hm as [Hin Himp].
    apply Qle_bool_iff in Himp.
    repeat split; try assumption.
    apply Qnot_le_lt. intro C. apply Qle_bool_iff in C.
    unfold gtb in Hpos. rewrite C in Hpos. discriminate.
  - intros (Hin & Himp & -> & Hpos). split.
    + exists m. split; [reflexivity|]. apply filter_In. split; [exact Hin|].
      now apply Qle_bool_iff.
    + unfold gtb. apply negb_true_iff.
      destruct (Qle_bool (calculateRelevance now m q) 0) eqn:C; [|reflexivity].
      apply Qle_bool_iff in C. exfalso. apply (Qlt_not_le _ _ Hpos C).
Qed.

End Recall.

Section RecallRanking.

Import Js MemorySystem Scenario.
Open Scope Q_scope.

Lemma no_tag_matches (q : string) (tgs : list string) :
  forallb (fun tag => negb (matches tag q)) tgs = true ->
  filter (fun tag => matches tag q) tgs = [].
Proof.
  induction tgs as [|tag tgs IH]; cbn [forallb filter]; intro H; [reflexivity|].
  apply andb_true_iff in H. destruct H as [H1 H2].
  apply negb_true_iff in H1. rewrite H1. now apply IH.
Qed.

(** A match in the content outweighs no match at all, other things equal. *)
Lemma content_match_scores_higher (now : Z) (q : string) (a b : Memory) :
  includes (mem_content a) q = true ->
  matches (mem_content b) q = false ->
  forallb (fun tag => negb (matches tag q)) (tags b) = true ->
  importance a == importance b ->
  timestamp a = timestamp b ->
  calculateRelevance now b q < calculateRelevance now a q.
Proof.
  intros Ha Hb Htags Himp Hts.
  rewrite !calculateRelevance_sum. unfold relevance_sum.
  rewrite (includes_matches _ _ Ha), Hb, (no_tag_matches _ _ Htags).
  change (of_nat (List.length (@nil string))) with 0.
  assert (R : recencyBonus now a = recencyBonus now b)
    by (unfold recencyBonus; now rewrite Hts).
  rewrite R.
  pose proof (of_nat_nonneg
                (List.length (filter (fun tag => matches tag q) (tags a)))) as N.
  lra.
Qed.

(** C4, as the code has it.  The score of a record is 100 if the
    lower-cased query occurs in the lower-cased content, plus 50 for each
    tag whose lower-cased text contains the lower-cased query, plus half
    the importance, plus the recency bonus [max(0, 20 - days)].  The
    candidates are the records of the index with importance at least
    [minImportance] and a score above 0; [recall] returns the first
    [limit] of them in an order of descending score.  Hence a record whose
    content holds the query verbatim and whose importance is within the
    documented range from 0 to 100 stands before every returned record of
    equal importance and recency that matches, after lower-casing,
    neither in its content nor in a tag. *)
Theorem recall_orders_by_relevance :
  (forall now m q, calculateRelevance now m q == relevance_sum now m q)
  /\ (forall now q minImportance ms m r,
         In (m, r) (scored now q minImportance ms) <->
         In m (IdMap.values (memories ms))
         /\ minImportance <= importance m
         /\ r = calculateRelevance now m q
         /\ 0 < r)
  /\ (forall now q limit minImportance ms,
         (0 <= limit)%Z ->
         exists sorted,
           Permutation sorted (scored now q minImportance ms)
           /\ descending snd sorted
           /\ recall now q limit minImportance ms
              = map fst (firstn (Z.to_nat limit) sorted))
  /\ (forall now q limit minImportance ms a b,
         In a (IdMap.values (memories ms)) ->
         0 <= importance a <= 100 ->
         includes (mem_content a) q = true ->
         matches (mem_content b) q = false ->
         forallb (fun tag => negb (matches tag q)) (tags b) = true ->
         importance a == importance b ->
         timestamp a = timestamp b ->
         In b (recall now q limit minImportance ms) ->
         exists l1 l2 l3,
           recall now q limit minImportance ms = l1 ++ a :: l2 ++ b :: l3).
Proof.
  split; [exact calculateRelevance_sum|].
  split; [exact scored_In|].
  split.
  - intros now q limit minImportance ms Hl.
    exists (sort_desc snd (scored now q minImportance ms)).
    split; [apply sort_desc_perm|]. split; [apply sort_desc_sorted|].
    rewrite recall_unfold. unfold slice_to.
    apply Z.ltb_ge in Hl. now rewrite Hl.
  - intros now q limit minImportance ms a b Hin _ Ha Hb Htags Himp Hts Hres.
    pose proof (content_match_scores_higher now q a b Ha Hb Htags Himp Hts) as Hlt.
    rewrite recall_unfold in Hres |- *.
    destruct (slice_to_firstn limit (sort_desc snd (scored now q minImportance ms)))
      as [n En].
    rewrite En in Hres |- *.
    apply in_map_iff in Hres. destruct Hres as ([b' rb] & Eb & Hb').
    cbn [fst] in Eb. subst b'.
    assert (Hbs : In (b, rb) (scored now q minImportance ms)).
    { apply (Permutation_in _ (sort_desc_perm snd _)).
      rewrite <- (firstn_skipn n (sort_desc snd _)). apply in_or_app. now left. }
    apply scored_In in Hbs. destruct Hbs as (_ & Hmin & -> & Hpos).
    assert (Has : In (a, calculateRelevance now a q)
                     (sort_desc snd (scored now q minImportance ms))).
    { apply (Permutation_in _ (Permutation_sym (sort_desc_perm snd _))).
      apply scored_In. repeat split.
      - exact Hin.
      - rewrite Himp. exact Hmin.
      - eapply Qlt_trans; eassumption. }
    destruct (@larger_key_first _ snd n _ (a, calculateRelevance now a q)
                (b, calculateRelevance now b q)
                (sort_desc_sorted snd _) Has Hb' Hlt) as (l1 & l2 & l3 & E).
    exists (map fst l1), (map fst l2), (map fst l3).
    rewrite E, map_app. cbn [map fst]. rewrite map_app. reflexivity.
Qed.

End RecallRanking.

Section RecallScenarios.

Import Js MemorySystem Scenario.
Open Scope Q_scope.

Lemma recall_orders_by_relevance_witness :
  let a := mkMemory 1 "the cat sat" episodic 50 0 0 [] [] in
  let b := mkMemory 2 "a dog ran" episodic 50 0 0 [] [] in
  In a (IdMap.values (memories cat_and_dog))
  /\ 0 <= importance a <= 100
  /\ includes (mem_content a) "cat" = true
  /\ matches (mem_content b) "cat" = false
  /\ forallb (fun tag => negb (matches tag "cat")) (tags b) = true
  /\ importance a == importance b
  /\ timestamp a = timestamp b
  /\ In b (recall 0 "cat" 10 0 cat_and_dog)
  /\ exists l1 l2 l3, recall 0 "cat" 10 0 cat_and_dog = l1 ++ a :: l2 ++ b :: l3.
Proof.
  cbv zeta.
  assert (Ha : In (mkMemory 1 "the cat sat" episodic 50 0 0 [] [])
                  (IdMap.values (memories cat_and_dog)))
    by (vm_compute; left; reflexivity).
  assert (Hb : In (mkMemory 2 "a dog ran" episodic 50 0 0 [] [])
                  (recall 0 "cat" 10 0 cat_and_dog))
    by (vm_compute; right; left; reflexivity).
  assert (Hr : 0 <= importance (mkMemory 1 "the cat sat" episodic 50 0 0 [] []) <= 100)
    by (split; discriminate).
  split; [exact Ha|]. split; [exact Hr|]. split; [reflexivity|]. split; [reflexivity|].
  split; [reflexivity|]. split; [reflexivity|]. split; [reflexivity|].
  split; [exact Hb|].
  exact (proj2 (proj2 (proj2 recall_orders_by_relevance))
           0%Z "cat"%string 10%Z 0 cat_and_dog
           (mkMemory 1 "the cat sat" episodic 50 0 0 [] [])
           (mkMemory 2 "a dog ran" episodic 50 0 0 [] [])
           Ha Hr eq_refl eq_refl eq_refl (Qeq_refl 50) eq_refl Hb).
Defined.

(** The specification's "occurs literally" fails on capitals.  The
    query "cat" occurs verbatim in the content of the first record and
    nowhere, literally, in the content or the tag of the second, and both
    have the same importance and time; the second scores 195 where the
    literal formula gives 45, and [recall] returns it first. *)
Lemma capitals_rank_above_verbatim_match :
  let a := mkMemory 1 "the cat sat" episodic 50 0 0 [] [] in
  let b := mkMemory 2 "THE CAT SAT" episodic 50 0 0 ["CAT"%string] [] in
  includes (mem_content a) "cat" = true
  /\ includes (mem_content b) "cat" = false
  /\ forallb (fun tag => negb (includes tag "cat")) (tags b) = true
  /\ importance a == importance b
  /\ timestamp a = timestamp b
  /\ spec_relevance 0 b "cat" == 45
  /\ calculateRelevance 0 b "cat" == 195
  /\ calculateRelevance 0 a "cat" == 145
  /\ recall 0 "cat" 10 0 cat_and_capitals = [b; a].
Proof.
  cbv zeta.
  repeat match goal with |- _ /\ _ => split end; vm_compute; reflexivity.
Qed.

(** Lower-casing folds the accented capitals of the Latin-1 range, as
    the code does: for the query "CAF" followed by E-acute (201), the
    record "caf" followed by e-acute (233), tagged with the query,
    scores 195, and the record that holds the query verbatim, followed
    by " au lait", scores 145. *)
Lemma accented_capitals_match :
  let q := ("CAF" ++ String (ascii_of_nat 201) EmptyString)%string in
  let lower := ("caf" ++ String (ascii_of_nat 233) EmptyString)%string in
  let a := mkMemory 1 (q ++ " au lait")%string episodic 50 0 0 [] [] in
  let b := mkMemory 2 lower episodic 50 0 0 [q] [] in
  toLowerCase q = lower
  /\ matches (mem_content b) q = true
  /\ calculateRelevance 0 b q == 195
  /\ calculateRelevance 0 a q == 145.
Proof.
  cbv zeta.
  repeat match goal with |- _ /\ _ => split end; vm_compute; reflexivity.
Qed.

End RecallScenarios.

(* ================================================================= *)
(** * Further properties of the code *)

Unset Implicit Arguments.

(* ----------------------------------------------------------------- *)
(** ** The primary index as a map *)

Section IndexFacts.

Lemma get_set_same (k : nat) (v : Memory) (m : IdMap.t) :
  IdMap.get k (IdMap.set k v m) = Some v.
Proof.
  induction m as [|[k' v'] m IH]; cbn [IdMap.set IdMap.get].
  - now rewrite Nat.eqb_refl.
  - destruct (Nat.eqb k k') eqn:E; cbn [IdMap.get]; rewrite E; [reflexivity | exact IH].
Qed.

Lemma get_set_other (j k : nat) (v : Memory) (m : IdMap.t) :
  j <> k -> IdMap.get j (IdMap.set k v m) = IdMap.get j m.
Proof.
  intro N. apply Nat.eqb_neq in N.
  induction m as [|[k' v'] m IH]; cbn [IdMap.set IdMap.get].
  - now rewrite N.
  - destruct (Nat.eqb k k') eqn:E; cbn [IdMap.get].
    + apply Nat.eqb_eq in E. subst k'. now rewrite N.
    + now rewrite IH.
Qed.

Lemma has_false_keys (k : nat) (m : IdMap.t) :
  IdMap.has k m = false -> existsb (Nat.eqb k) (map fst m) = false.
Proof.
  unfold IdMap.has.
  induction m as [|[k' v'] m IH]; cbn [IdMap.get map fst existsb]; [reflexivity|].
  destruct (Nat.eqb k k'); [discriminate | exact IH].
Qed.

Lemma keys_not_in (k : nat) (l : list nat) :
  existsb (Nat.eqb k) l = false -> ~ In k l.
Proof.
  intros H C. assert (existsb (Nat.eqb k) l = true).
  { apply existsb_exists. exists k. split; [exact C | apply Nat.eqb_refl]. }
  congruence.
Qed.

Lemma keys_set_existing (k : nat) (v : Memory) (m : IdMap.t) :
  IdMap.has k m = true -> map fst (IdMap.set k v m) = map fst m.
Proof.
  unfold IdMap.has.
  induction m as [|[k' v'] m IH]; cbn [IdMap.get IdMap.set map fst]; [discriminate|].
  destruct (Nat.eqb k k'); cbn [map fst]; intro H; [reflexivity|].
  now rewrite IH.
Qed.

Lemma has_set (j k : nat) (v : Memory) (m : IdMap.t) :
  IdMap.has j m = true -> IdMap.has j (IdMap.set k v m) = true.
Proof.
  unfold IdMap.has. intro H. destruct (Nat.eq_dec j k) as [->|N].
  - now rewrite get_set_same.
  - now rewrite get_set_other.
Qed.

Lemma keys_delete_incl (k x : nat) (m : IdMap.t) :
  In x (map fst (IdMap.delete k m)) -> In x (map fst m).
Proof.
  induction m as [|[k' v'] m IH]; cbn [IdMap.delete map fst]; [tauto|].
  destruct (Nat.eqb k k'); cbn [map fst In]; tauto.
Qed.

Lemma keys_delete_nodup (k : nat) (m : IdMap.t) :
  NoDup (map fst m) -> NoDup (map fst (IdMap.delete k m)).
Proof.
  induction m as [|[k' v'] m IH]; cbn [IdMap.delete map fst]; intro H; [exact H|].
  apply NoDup_cons_iff in H. destruct H as [H1 H2].
  destruct (Nat.eqb k k'); cbn [map fst]; [exact H2|].
  constructor; [|now apply IH].
  intro C. apply H1. now apply keys_delete_incl in C.
Qed.

Lemma entries_delete (P : nat * Memory -> Prop) (k : nat) (m : IdMap.t) :
  Forall P m -> Forall P (IdMap.delete k m).
Proof.
  induction m as [|[k' v'] m IH]; cbn [IdMap.delete]; intro H; [exact H|].
  apply Forall_cons_iff in H. destruct H as [H1 H2].
  destruct (Nat.eqb k k'); [exact H2 | constructor; auto].
Qed.

(** Deleting the key of an entry removes exactly that entry. *)
Lemma delete_entry (k : nat) (v : Memory) (m : IdMap.t) :
  NoDup (map fst m) -> In (k, v) m ->
  Permutation (IdMap.values m) (v :: IdMap.values (IdMap.delete k m)).
Proof.
  unfold IdMap.values.
  induction m as [|[k' v'] m IH]; cbn [IdMap.delete map fst snd]; intros D H;
    [contradiction|].
  apply NoDup_cons_iff in D. destruct D as [D1 D2].
  destruct H as [H|H].
  - injection H as -> ->. rewrite Nat.eqb_refl. apply Permutation_refl.
  - destruct (Nat.eqb k k') eqn:E.
    + apply Nat.eqb_eq in E. subst k'. exfalso. apply D1.
      apply in_map_iff. exists (k, v). split; [reflexivity | exact H].
    + cbn [map snd]. eapply perm_trans; [apply perm_skip, IH; assumption|].
      apply perm_swap.
Qed.

Lemma value_entry (v : Memory) (m : IdMap.t) :
  Forall (fun e => mem_id (snd e) = fst e) m ->
  In v (IdMap.values m) -> In (mem_id v, v) m.
Proof.
  unfold IdMap.values. intros F H. apply in_map_iff in H.
  destruct H as ([k v'] & E & H). cbn [snd] in E. subst v'.
  rewrite Forall_forall in F. specialize (F _ H). cbn [fst snd] in F.
  now rewrite F.
Qed.

End IndexFacts.

(* ----------------------------------------------------------------- *)
(** ** Agreement of the index and the lists *)

Section StoreInvariants.

Import Js MemorySystem.
Open Scope Q_scope.

Lemma consolidate_one_step (lt : list Memory) (idx : IdMap.t) (m : Memory) :
  consolidate_one (lt, idx) m
  = if geb (importance m) 60 then (m :: lt, idx)
    else (lt, IdMap.delete (mem_id m) idx).
Proof. reflexivity. Qed.

(** The short-term pass keeps the agreement: [kept] is what stays in the
    short-term list. *)
Lemma consolidate_pass_agrees (removed : list Memory) :
  forall (kept lt : list Memory) (idx : IdMap.t),
    NoDup (map fst idx) ->
    Forall (fun e => mem_id (snd e) = fst e) idx ->
    Permutation (IdMap.values idx) (kept ++ removed ++ lt) ->
    NoDup (map fst (snd (fold_left consolidate_one removed (lt, idx))))
    /\ Forall (fun e => mem_id (snd e) = fst e)
              (snd (fold_left consolidate_one removed (lt, idx)))
    /\ Permutation
         (IdMap.values (snd (fold_left consolidate_one removed (lt, idx))))
         (kept ++ fst (fold_left consolidate_one removed (lt, idx))).
Proof.
  induction removed as [|m removed IH]; intros kept lt idx D F P.
  - cbn [fold_left fst snd]. repeat split; assumption.
  - cbn [fold_left]. rewrite consolidate_one_step.
    destruct (geb (importance m) 60).
    + apply IH; try assumption.
      eapply perm_trans; [exact P|].
      apply Permutation_app_head. cbn [app].
      apply (Permutation_middle removed lt m).
    + assert (Hin : In (mem_id m, m) idx).
      { apply value_entry; [exact F|].
        apply (Permutation_in _ (Permutation_sym P)).
        apply in_or_app. right. now left. }
      apply IH.
      * now apply keys_delete_nodup.
      * now apply entries_delete.
      * pose proof (@delete_entry _ _ _ D Hin) as Pd.
        apply Permutation_cons_app_inv with (a := m).
        eapply perm_trans; [apply Permutation_sym, Pd | exact P].
Qed.

(** The long-term pass keeps the agreement: [keepers] is what stays. *)
Lemma forget_pass_agrees (forgotten : list Memory) :
  forall (keepers : list Memory) (idx : IdMap.t),
    NoDup (map fst idx) ->
    Forall (fun e => mem_id (snd e) = fst e) idx ->
    Permutation (IdMap.values idx) (keepers ++ forgotten) ->
    NoDup (map fst (fold_left forget_one forgotten idx))
    /\ Forall (fun e => mem_id (snd e) = fst e) (fold_left forget_one forgotten idx)
    /\ Permutation (IdMap.values (fold_left forget_one forgotten idx)) keepers.
Proof.
  induction forgotten as [|m forgotten IH]; intros keepers idx D F P.
  - cbn [fold_left]. rewrite app_nil_r in P. repeat split; assumption.
  - cbn [fold_left]. change (forget_one idx m) with (IdMap.delete (mem_id m) idx).
    assert (Hin : In (mem_id m, m) idx).
    { apply value_entry; [exact F|].
      apply (Permutation_in _ (Permutation_sym P)).
      apply in_or_app. right. now left. }
    apply IH.
    + now apply keys_delete_nodup.
    + now apply entries_delete.
    + pose proof (@delete_entry _ _ _ D Hin) as Pd.
      apply Permutation_cons_app_inv with (a := m).
      eapply perm_trans; [apply Permutation_sym, Pd | exact P].
Qed.

Lemma consolidateMemories_agrees (ms : MemorySystem.t) :
  well_formed ms -> well_formed (consolidateMemories ms).
Proof.
  intros (D & F & P). unfold consolidateMemories.
  set (ms1 := if (maxShortTermSize ms <? List.length (shortTermMemory ms))%nat
              then _ else ms).
  assert (W1 : well_formed ms1).
  { subst ms1.
    destruct (maxShortTermSize ms <? List.length (shortTermMemory ms))%nat;
      [|repeat split; assumption].
    unfold splice.
    rewrite <- (firstn_skipn (maxShortTermSize ms) (shortTermMemory ms)) in P.
    rewrite <- app_assoc in P.
    destruct (@consolidate_pass_agrees _ _ _ _ D F P) as (D1 & F1 & P1).
    destruct (fold_left consolidate_one
                (skipn (maxShortTermSize ms) (shortTermMemory ms))
                (longTermMemory ms, memories ms)) as [lt idx].
    repeat split; assumption. }
  clearbody ms1. destruct W1 as (D1 & F1 & P1).
  destruct (maxLongTermSize ms1 <? List.length (longTermMemory ms1))%nat;
    [|repeat split; assumption].
  unfold splice.
  rewrite <- (firstn_skipn (maxLongTermSize ms1) (longTermMemory ms1)) in P1.
  rewrite app_assoc in P1.
  destruct (@forget_pass_agrees _ _ _ D1 F1 P1) as (D2 & F2 & P2).
  repeat split; cbn [memories shortTermMemory longTermMemory]; assumption.
Qed.

Lemma store_agrees (mid : nat) (now : Z) (text : string) (ty : MemoryType)
    (imp weight : Q) (tgs : list string) (ms : MemorySystem.t) :
  IdMap.has mid (memories ms) = false ->
  well_formed ms ->
  well_formed (fst (store mid now text ty imp weight tgs ms)).
Proof.
  intros Hf (D & F & P). unfold store. cbn [fst].
  apply consolidateMemories_agrees.
  apply has_false_keys in Hf.
  repeat split; cbn [memories shortTermMemory longTermMemory];
    rewrite (@set_fresh _ _ _ Hf).
  - rewrite map_app. cbn [map fst].
    apply NoDup_app_remove_l with (l := @nil nat). cbn [app].
    apply (Permutation_NoDup (l := mid :: map fst (memories ms))).
    + apply Permutation_cons_append.
    + constructor; [now apply keys_not_in | exact D].
  - apply Forall_app. split; [exact F|]. constructor; [reflexivity | constructor].
  - unfold IdMap.values. rewrite map_app. cbn [map snd app].
    eapply perm_trans; [apply Permutation_sym, Permutation_cons_append|].
    now apply perm_skip.
Qed.

End StoreInvariants.

(* ----------------------------------------------------------------- *)
(** ** In-place updates of a memory object *)

Section ObjectUpdates.

Import Js MemorySystem.
Open Scope Q_scope.

Lemma get_In (k : nat) (v : Memory) (m : IdMap.t) :
  IdMap.get k m = Some v -> In (k, v) m.
Proof.
  induction m as [|[k' v'] m IH]; cbn [IdMap.get]; [discriminate|].
  destruct (Nat.eqb k k') eqn:E.
  - apply Nat.eqb_eq in E. subst k'. intro H. injection H as ->. now left.
  - intro H. right. now apply IH.
Qed.

Lemma set_same (k : nat) (v : Memory) (m : IdMap.t) :
  IdMap.get k m = Some v -> IdMap.set k v m = m.
Proof.
  induction m as [|[k' v'] m IH]; cbn [IdMap.get IdMap.set]; [discriminate|].
  destruct (Nat.eqb k k'); intro H.
  - now injection H as ->.
  - now rewrite IH.
Qed.

Lemma has_get (k : nat) (m : IdMap.t) :
  IdMap.has k m = true -> exists v, IdMap.get k m = Some v.
Proof.
  unfold IdMap.has. destruct (IdMap.get k m) as [v|]; [now exists v | discriminate].
Qed.

Lemma entries_set (P : nat * Memory -> Prop) (k : nat) (v : Memory) (m : IdMap.t) :
  Forall P m -> P (k, v) -> Forall P (IdMap.set k v m).
Proof.
  intros F Pv. induction m as [|[k' v'] m IH]; cbn [IdMap.set].
  - now constructor.
  - apply Forall_cons_iff in F. destruct F as [F1 F2].
    destruct (Nat.eqb k k') eqn:E.
    + apply Nat.eqb_eq in E. subst k'. now constructor.
    + constructor; auto.
Qed.

(** Replacing the object under [k] by its image maps the values. *)
Lemma values_set_map (k : nat) (f : Memory -> Memory) (m : IdMap.t) :
  forall v,
    NoDup (map fst m) ->
    Forall (fun e => mem_id (snd e) = fst e) m ->
    IdMap.get k m = Some v ->
    IdMap.values (IdMap.set k (f v) m)
    = map (fun x => if Nat.eqb (mem_id x) k then f x else x) (IdMap.values m).
Proof.
  unfold IdMap.values.
  induction m as [|[k' v'] m IH]; intros v D F G; cbn [IdMap.get] in G;
    [discriminate|].
  apply NoDup_cons_iff in D. destruct D as [D1 D2].
  apply Forall_cons_iff in F. destruct F as [F1 F2]. cbn [fst snd] in F1.
  cbn [IdMap.set map fst snd] in *.
  destruct (Nat.eqb k k') eqn:E.
  - apply Nat.eqb_eq in E. revert F1. subst k'. intro F1. injection G as ->.
    cbn [map snd]. rewrite F1, Nat.eqb_refl. f_equal.
    rewrite <- (map_id (map snd m)) at 1. rewrite !map_map.
    apply map_ext_in. intros [j x] Hj. cbn [snd].
    rewrite Forall_forall in F2. specialize (F2 _ Hj). cbn [fst snd] in F2.
    destruct (Nat.eqb (mem_id x) k) eqn:Ex; [|reflexivity].
    apply Nat.eqb_eq in Ex. exfalso. apply D1.
    apply in_map_iff. exists (j, x). split; [cbn [fst]; congruence | exact Hj].
  - cbn [map snd]. rewrite F1, Nat.eqb_sym, E. f_equal. now apply IH.
Qed.

Lemma modify_agrees (k : nat) (f : Memory -> Memory) (ms : MemorySystem.t) :
  (forall m, mem_id (f m) = mem_id m) ->
  well_formed ms -> well_formed (modify k f ms).
Proof.
  intros Hf (D & F & P). unfold modify.
  destruct (IdMap.get k (memories ms)) as [v|] eqn:G; [|repeat split; assumption].
  assert (Hhas : IdMap.has k (memories ms) = true) by (unfold IdMap.has; now rewrite G).
  repeat split; cbn [memories shortTermMemory longTermMemory].
  - now rewrite keys_set_existing.
  - apply entries_set; [exact F|]. cbn [fst snd]. rewrite Hf.
    apply get_In in G. rewrite Forall_forall in F. exact (F _ G).
  - rewrite (values_set_map k f _ v D F G). unfold update_by_id.
    rewrite <- map_app. now apply Permutation_map.
Qed.

Lemma modify_lengths (k : nat) (f : Memory -> Memory) (ms : MemorySystem.t) :
  List.length (shortTermMemory (modify k f ms)) = List.length (shortTermMemory ms)
  /\ List.length (longTermMemory (modify k f ms)) = List.length (longTermMemory ms)
  /\ maxShortTermSize (modify k f ms) = maxShortTermSize ms
  /\ maxLongTermSize (modify k f ms) = maxLongTermSize ms.
Proof.
  unfold modify. destruct (IdMap.get k (memories ms)); [|repeat split].
  cbn [shortTermMemory longTermMemory maxShortTermSize maxLongTermSize].
  unfold update_by_id. rewrite !length_map. repeat split.
Qed.

Lemma modify_has (j k : nat) (f : Memory -> Memory) (ms : MemorySystem.t) :
  IdMap.has j (memories ms) = true -> IdMap.has j (memories (modify k f ms)) = true.
Proof.
  intro H. unfold modify. destruct (IdMap.get k (memories ms)); [|exact H].
  cbn [memories]. now apply has_set.
Qed.

Lemma strengthenMemory_modify (k : nat) (amount : Q) (ms : MemorySystem.t) :
  strengthenMemory k amount ms = modify k (boost amount) ms.
Proof. reflexivity. Qed.

Lemma add_association_id (j : nat) (m : Memory) :
  mem_id (add_association j m) = mem_id m.
Proof. unfold add_association. now destruct (existsb (Nat.eqb j) (associations m)). Qed.

Lemma add_association_has (j : nat) (m : Memory) :
  In j (associations (add_association j m)).
Proof.
  unfold add_association.
  destruct (existsb (Nat.eqb j) (associations m)) eqn:E.
  - apply existsb_exists in E. destruct E as (x & Hx & Ex).
    apply Nat.eqb_eq in Ex. now subst x.
  - cbn [associations]. apply in_or_app. right. now left.
Qed.

Lemma add_association_keeps (i j : nat) (m : Memory) :
  In i (associations m) -> In i (associations (add_association j m)).
Proof.
  intro H. unfold add_association.
  destruct (existsb (Nat.eqb j) (associations m)); [exact H|].
  cbn [associations]. apply in_or_app. now left.
Qed.

Lemma add_association_fix (j : nat) (m : Memory) :
  In j (associations m) -> add_association j m = m.
Proof.
  intro H. unfold add_association.
  assert (E : existsb (Nat.eqb j) (associations m) = true).
  { apply existsb_exists. exists j. split; [exact H | apply Nat.eqb_refl]. }
  now rewrite E.
Qed.

Lemma modify_links (j k : nat) (ms : MemorySystem.t) :
  IdMap.has k (memories ms) = true ->
  linked j k (modify k (add_association j) ms).
Proof.
  intro H. destruct (has_get _ _ H) as [v G]. unfold modify. rewrite G. split.
  - cbn [memories]. intros m Hm. rewrite get_set_same in Hm.
    injection Hm as <-. apply add_association_has.
  - cbn [shortTermMemory longTermMemory]. unfold update_by_id.
    rewrite <- map_app. apply Forall_forall. intros x Hx.
    apply in_map_iff in Hx. destruct Hx as (y & <- & _).
    destruct (Nat.eqb (mem_id y) k) eqn:E.
    + intros _. apply add_association_has.
    + intro C. apply Nat.eqb_neq in E. contradiction.
Qed.

Lemma modify_keeps_links (j k j' k' : nat) (ms : MemorySystem.t) :
  linked j k ms -> linked j k (modify k' (add_association j') ms).
Proof.
  intros [L1 L2]. unfold modify.
  destruct (IdMap.get k' (memories ms)) as [v|] eqn:G; [|split; assumption].
  split.
  - cbn [memories]. intros m Hm. destruct (Nat.eq_dec k k') as [->|N].
    + rewrite get_set_same in Hm. injection Hm as <-.
      apply add_association_keeps. now apply L1.
    + rewrite get_set_other in Hm by exact N. now apply L1.
  - cbn [shortTermMemory longTermMemory]. unfold update_by_id.
    rewrite <- map_app. apply Forall_forall. intros x Hx.
    apply in_map_iff in Hx. destruct Hx as (y & <- & Hy).
    rewrite Forall_forall in L2. specialize (L2 y Hy).
    destruct (Nat.eqb (mem_id y) k').
    + rewrite add_association_id. intro C. apply add_association_keeps. now apply L2.
    + exact L2.
Qed.

Lemma linked_fix (j k : nat) (ms : MemorySystem.t) :
  linked j k ms -> modify k (add_association j) ms = ms.
Proof.
  intros [L1 L2]. unfold modify.
  destruct (IdMap.get k (memories ms)) as [v|] eqn:G; [|reflexivity].
  rewrite (add_association_fix j v (L1 v eq_refl)), (set_same _ _ _ G).
  apply Forall_app in L2. destruct L2 as [Ls Ll].
  assert (U : forall l, Forall (fun m => mem_id m = k -> In j (associations m)) l ->
                        update_by_id k (add_association j) l = l).
  { intros l Hl. unfold update_by_id. rewrite <- (map_id l) at 2.
    apply map_ext_in. intros x Hx. rewrite Forall_forall in Hl.
    destruct (Nat.eqb (mem_id x) k) eqn:E; [|reflexivity].
    apply Nat.eqb_eq in E. apply add_association_fix. now apply Hl. }
  rewrite (U _ Ls), (U _ Ll). now destruct ms.
Qed.

End ObjectUpdates.

(* ----------------------------------------------------------------- *)
(** ** Capacity, agreement and queries of the memory store *)

Section StoreProperties.

Import Js MemorySystem.
Open Scope Q_scope.

Lemma consolidateMemories_capacity (ms : MemorySystem.t) :
  (List.length (shortTermMemory (consolidateMemories ms)) <= maxShortTermSize ms)%nat
  /\ (List.length (longTermMemory (consolidateMemories ms)) <= maxLongTermSize ms)%nat
  /\ maxShortTermSize (consolidateMemories ms) = maxShortTermSize ms
  /\ maxLongTermSize (consolidateMemories ms) = maxLongTermSize ms.
Proof.
  unfold consolidateMemories.
  set (ms1 := if (maxShortTermSize ms <? List.length (shortTermMemory ms))%nat
              then _ else ms).
  assert (H1 : (List.length (shortTermMemory ms1) <= maxShortTermSize ms)%nat
               /\ maxShortTermSize ms1 = maxShortTermSize ms
               /\ maxLongTermSize ms1 = maxLongTermSize ms).
  { subst ms1.
    destruct (maxShortTermSize ms <? List.length (shortTermMemory ms))%nat eqn:E.
    - unfold splice.
      destruct (fold_left consolidate_one
                  (skipn (maxShortTermSize ms) (shortTermMemory ms))
                  (longTermMemory ms, memories ms)) as [lt idx].
      cbn [shortTermMemory maxShortTermSize maxLongTermSize].
      split; [apply firstn_le_length | split; reflexivity].
    - apply Nat.ltb_ge in E. repeat split. exact E. }
  clearbody ms1. destruct H1 as (Hs & Hc1 & Hc2).
  destruct (maxLongTermSize ms1 <? List.length (longTermMemory ms1))%nat eqn:E.
  - unfold splice.
    cbn [shortTermMemory longTermMemory maxShortTermSize maxLongTermSize].
    rewrite <- Hc2 at 1. repeat split; try assumption. apply firstn_le_length.
  - apply Nat.ltb_ge in E. rewrite <- Hc2. repeat split; assumption.
Qed.

Lemma import_fold_capacities (mems : list Memory) :
  forall ms : MemorySystem.t,
    maxShortTermSize (fold_left import_one mems ms) = maxShortTermSize ms
    /\ maxLongTermSize (fold_left import_one mems ms) = maxLongTermSize ms.
Proof.
  induction mems as [|m mems IH]; intro ms; [split; reflexivity|].
  cbn [fold_left]. destruct (IH (import_one ms m)) as [H1 H2].
  rewrite H1, H2. unfold import_one.
  destruct (geb (importance m) 60); split; reflexivity.
Qed.

Lemma consolidateMemories_within_capacity (ms : MemorySystem.t) :
  within_capacity (consolidateMemories ms).
Proof.
  destruct (consolidateMemories_capacity ms) as (H1 & H2 & H3 & H4).
  unfold within_capacity. rewrite H3, H4. split; assumption.
Qed.

(** X1. Whatever the state before, [consolidateMemories] leaves at most
    [maxShortTermSize] records in the short-term list and at most
    [maxLongTermSize] in the long-term list, and it leaves the two
    capacities alone; so every [store] and every [import] ends with both
    lists within capacity. *)
Theorem lists_within_capacity_after_consolidation :
  (forall ms : MemorySystem.t,
      within_capacity (consolidateMemories ms)
      /\ maxShortTermSize (consolidateMemories ms) = maxShortTermSize ms
      /\ maxLongTermSize (consolidateMemories ms) = maxLongTermSize ms)
  /\ (forall mid now text ty imp weight tgs ms,
         within_capacity (fst (store mid now text ty imp weight tgs ms)))
  /\ (forall mems ms, within_capacity (import mems ms)).
Proof.
  pose proof consolidateMemories_within_capacity as C.
  split; [|split].
  - intro ms. destruct (consolidateMemories_capacity ms) as (_ & _ & H3 & H4).
    split; [apply C | split; assumption].
  - intros. unfold store. cbn [fst]. apply C.
  - intros. unfold import. apply C.
Qed.

Lemma In_get (k : nat) (v : Memory) (m : IdMap.t) :
  NoDup (map fst m) -> In (k, v) m -> IdMap.get k m = Some v.
Proof.
  induction m as [|[k' v'] m IH]; cbn [map fst IdMap.get]; intros D H;
    [contradiction|].
  apply NoDup_cons_iff in D. destruct D as [D1 D2].
  destruct H as [H|H].
  - injection H as -> ->. now rewrite Nat.eqb_refl.
  - destruct (Nat.eqb k k') eqn:E; [|now apply IH].
    apply Nat.eqb_eq in E. subst k'. exfalso. apply D1.
    apply in_map_iff. exists (k, v). split; [reflexivity | exact H].
Qed.

Lemma step_agrees (ms ms' : MemorySystem.t) :
  step ms ms' -> well_formed ms -> well_formed ms'.
Proof.
  intros S W. destruct S as [mid now text ty imp weight tgs ms Hf | k amount ms | k1 k2 ms].
  - now apply store_agrees.
  - rewrite strengthenMemory_modify. apply modify_agrees; [reflexivity | exact W].
  - unfold associateMemories.
    destruct (IdMap.has k1 (memories ms) && IdMap.has k2 (memories ms)); [|exact W].
    apply modify_agrees; [apply add_association_id|].
    apply modify_agrees; [apply add_association_id | exact W].
Qed.

Lemma step_capacity (ms ms' : MemorySystem.t) :
  step ms ms' -> within_capacity ms -> within_capacity ms'.
Proof.
  assert (M : forall k f ms, within_capacity ms -> within_capacity (modify k f ms)).
  { intros k f ms0 [H1 H2]. destruct (modify_lengths k f ms0) as (L1 & L2 & C1 & C2).
    unfold within_capacity. rewrite L1, L2, C1, C2. split; assumption. }
  intros S W. destruct S as [mid now text ty imp weight tgs ms Hf | k amount ms | k1 k2 ms].
  - unfold store. cbn [fst]. apply consolidateMemories_within_capacity.
  - rewrite strengthenMemory_modify. now apply M.
  - unfold associateMemories.
    destruct (IdMap.has k1 (memories ms) && IdMap.has k2 (memories ms)); [|exact W].
    now apply M, M.
Qed.


(** X2. In every state that a new store reaches by [store] calls with
    fresh identifiers, [strengthenMemory] and [associateMemories], the
    index and the lists agree: the keys of the index are distinct and are
    the identifiers of the records, the index holds exactly the records of
    the short-term and long-term lists, both lists are within capacity,
    every listed record is found under its identifier, and [getStats]
    reports [totalMemories = shortTermCount + longTermCount]. *)
Theorem reachable_store_agrees (ms : MemorySystem.t) :
  reachable ms ->
  well_formed ms
  /\ within_capacity ms
  /\ Forall (fun m => IdMap.get (mem_id m) (memories ms) = Some m)
            (shortTermMemory ms ++ longTermMemory ms)
  /\ totalMemories (getStats ms)
     = (shortTermCount (getStats ms) + longTermCount (getStats ms))%nat.
Proof.
  intro R.
  assert (W : well_formed ms /\ within_capacity ms).
  { induction R as [shortCap longCap | ms ms' R IH S].
    - split.
      + repeat split; cbn; constructor.
      + split; cbn; lia.
    - destruct IH as [W C]. split; [eapply step_agrees | eapply step_capacity]; eassumption. }
  destruct W as [W C]. split; [exact W|]. split; [exact C|].
  destruct W as (D & F & P). split.
  - apply Forall_forall. intros m Hm. apply In_get; [exact D|].
    apply value_entry; [exact F|].
    apply (Permutation_in _ (Permutation_sym P)). exact Hm.
  - unfold getStats. cbn [totalMemories shortTermCount longTermCount].
    rewrite (Permutation_length P). apply length_app.
Qed.

Lemma reachable_store_agrees_witness :
  let ms := fst (store 1 0 "x" episodic 50 0 [] (MemorySystem.new 50 1000)) in
  reachable ms
  /\ well_formed ms
  /\ within_capacity ms
  /\ Forall (fun m => IdMap.get (mem_id m) (memories ms) = Some m)
            (shortTermMemory ms ++ longTermMemory ms)
  /\ totalMemories (getStats ms)
     = (shortTermCount (getStats ms) + longTermCount (getStats ms))%nat.
Proof.
  cbv zeta.
  assert (R : reachable (fst (store 1 0 "x" episodic 50 0 [] (MemorySystem.new 50 1000)))).
  { apply reachable_step with (ms := MemorySystem.new 50 1000).
    - apply reachable_new.
    - apply step_store. reflexivity. }
  split; [exact R|].
  exact (reachable_store_agrees _ R).
Defined.


(** X4. [associateMemories a b] does nothing unless both identifiers are
    in the index; when they are, afterwards the record under [a] lists
    [b], the record under [b] lists [a], and [getAssociatedMemories a]
    returns the record under [b].  Associating the same pair a second
    time changes nothing. *)
Theorem associateMemories_symmetric_idempotent :
  forall (a b : nat) (ms : MemorySystem.t),
    let ms' := associateMemories a b ms in
    associateMemories a b ms' = ms'
    /\ if IdMap.has a (memories ms) && IdMap.has b (memories ms)
       then exists ma mb,
           IdMap.get a (memories ms') = Some ma /\ In b (associations ma)
           /\ IdMap.get b (memories ms') = Some mb /\ In a (associations mb)
           /\ In mb (getAssociatedMemories a ms')
       else ms' = ms.
Proof.
  intros a b ms ms'. subst ms'. unfold associateMemories at 2 3 4 5 6 7.
  destruct (IdMap.has a (memories ms) && IdMap.has b (memories ms)) eqn:H.
  - apply andb_true_iff in H. destruct H as [Ha Hb].
    set (s1 := modify a (add_association b) ms).
    set (s2 := modify b (add_association a) s1).
    assert (Ha2 : IdMap.has a (memories s2) = true) by now apply modify_has, modify_has.
    assert (Hb1 : IdMap.has b (memories s1) = true) by now apply modify_has.
    assert (Hb2 : IdMap.has b (memories s2) = true) by now apply modify_has.
    assert (La : linked b a s2) by (apply modify_keeps_links, modify_links; exact Ha).
    assert (Lb : linked a b s2) by (apply modify_links; exact Hb1).
    split.
    + unfold associateMemories. rewrite Ha2, Hb2. cbn [andb].
      rewrite (linked_fix b a s2 La). apply linked_fix. exact Lb.
    + destruct (has_get _ _ Ha2) as [ma Ga]. destruct (has_get _ _ Hb2) as [mb Gb].
      exists ma, mb. destruct La as [La _]. destruct Lb as [Lb _].
      pose proof (La ma Ga) as Ia.
      repeat split; try assumption; [now apply Lb|].
      unfold getAssociatedMemories. rewrite Ga. apply in_flat_map.
      exists b. split; [exact Ia|]. rewrite Gb. now left.
  - split; [|reflexivity]. unfold associateMemories. now rewrite H.
Qed.

(** X5. [getAssociatedMemories] returns only records that the index
    holds: an association to a record that has been evicted is skipped,
    so the result is at most as long as the association list, and an
    unknown identifier gives the empty list. *)
Theorem getAssociatedMemories_in_index :
  forall (k : nat) (ms : MemorySystem.t),
    Forall (fun m => In m (IdMap.values (memories ms))) (getAssociatedMemories k ms)
    /\ match IdMap.get k (memories ms) with
       | None => getAssociatedMemories k ms = []
       | Some memory =>
           (List.length (getAssociatedMemories k ms)
            <= List.length (associations memory))%nat
       end.
Proof.
  intros k ms. unfold getAssociatedMemories.
  destruct (IdMap.get k (memories ms)) as [memory|]; [|split; [constructor | reflexivity]].
  split.
  - apply Forall_forall. intros m Hm. apply in_flat_map in Hm.
    destruct Hm as (j & _ & Hj).
    destruct (IdMap.get j (memories ms)) as [x|] eqn:G; [|contradiction].
    destruct Hj as [<-|[]]. apply get_In in G.
    unfold IdMap.values. apply in_map_iff. exists (j, x). now split.
  - induction (associations memory) as [|j l IH]; cbn [flat_map List.length]; [lia|].
    rewrite length_app.
    destruct (IdMap.get j (memories ms)); cbn [List.length]; lia.
Qed.

End StoreProperties.

(* ----------------------------------------------------------------- *)
(** ** Ranges, snapshots, statistics and queries of the memory store *)

Section StoreRanges.

Import Js MemorySystem.
Open Scope Q_scope.

Lemma modify_in_range (k : nat) (f : Memory -> Memory) (ms : MemorySystem.t) :
  (forall m, memory_in_range m -> memory_in_range (f m)) ->
  records_in_range ms -> records_in_range (modify k f ms).
Proof.
  intros Hf (Hidx & Hs & Hl). unfold modify.
  destruct (IdMap.get k (memories ms)) as [v|] eqn:G; [|repeat split; assumption].
  assert (U : forall l, Forall memory_in_range l ->
                        Forall memory_in_range (update_by_id k f l)).
  { intros l H. unfold update_by_id. apply Forall_forall. intros x Hx.
    apply in_map_iff in Hx. destruct Hx as (y & <- & Hy).
    rewrite Forall_forall in H. specialize (H y Hy).
    destruct (Nat.eqb (mem_id y) k); auto. }
  repeat split; cbn [memories shortTermMemory longTermMemory]; auto.
  apply set_in_range; [|exact Hidx]. apply Hf.
  rewrite Forall_forall in Hidx. apply Hidx.
  apply get_In in G. unfold IdMap.values. apply in_map_iff. exists (k, v). now split.
Qed.

(** X6. A store whose records are all within the documented ranges
    (importance 0 to 100, weight -100 to 100) stays so under any sequence
    of [store] calls whose importance and weight arguments are in range,
    under [strengthenMemory] with a non-negative amount, and under
    [associateMemories]. *)
Theorem records_stay_in_range (ms : MemorySystem.t) :
  records_in_range ms ->
  (forall rs : list StoreRequest,
      Forall request_in_range rs -> records_in_range (store_all rs ms))
  /\ (forall (k : nat) (amount : Q),
         0 <= amount -> records_in_range (strengthenMemory k amount ms))
  /\ (forall a b : nat, records_in_range (associateMemories a b ms)).
Proof.
  intro R. split; [|split].
  - intros rs. revert ms R. induction rs as [|r rs IH]; intros ms R F; [exact R|].
    apply Forall_cons_iff in F. destruct F as [[Hi Hw] F].
    unfold store_all. cbn [fold_left]. apply IH; [|exact F].
    unfold store_request. now apply store_in_range.
  - intros k amount Ha. rewrite strengthenMemory_modify.
    apply modify_in_range; [|exact R].
    intros m [[I1 I2] W]. unfold boost, set_importance, memory_in_range, Math_min.
    cbn [importance emotional_weight]. split; [|exact W]. split.
    + apply Q.min_glb; [discriminate | lra].
    + apply Q.le_min_l.
  - intros a b. unfold associateMemories.
    destruct (IdMap.has a (memories ms) && IdMap.has b (memories ms)); [|exact R].
    assert (A : forall j m, memory_in_range m -> memory_in_range (add_association j m)).
    { intros j m H. unfold add_association.
      destruct (existsb (Nat.eqb j) (associations m)); exact H. }
    apply modify_in_range; [apply A|]. apply modify_in_range; [apply A | exact R].
Qed.

Lemma records_stay_in_range_witness :
  let ms := MemorySystem.new 50 1000 in
  let rs := [mkRequest 1 0 "x" episodic 100 (-100) []; mkRequest 2 0 "y" semantic 0 100 []] in
  records_in_range ms
  /\ Forall request_in_range rs
  /\ records_in_range (store_all rs ms).
Proof.
  cbv zeta.
  assert (R : records_in_range (MemorySystem.new 50 1000))
    by (repeat split; constructor).
  assert (F : Forall request_in_range
                [mkRequest 1 0 "x" episodic 100 (-100) [];
                 mkRequest 2 0 "y" semantic 0 100 []]).
  { repeat constructor; cbn; discriminate. }
  split; [exact R|]. split; [exact F|].
  exact (proj1 (records_stay_in_range _ R) _ F).
Defined.

Lemma import_fold_new (cap lcap : nat) (mems : list Memory) :
  distinct_ids (map mem_id mems) = true ->
  fold_left import_one mems (MemorySystem.new cap lcap)
  = mk (map index_entry mems)
       (filter (fun m => negb (important m)) mems)
       (filter important mems) cap lcap.
Proof.
  induction mems as [|m mems IH] using rev_ind; intro D; [reflexivity|].
  rewrite map_app in D. apply distinct_ids_snoc in D. destruct D as [D1 D2].
  rewrite fold_left_app. cbn [fold_left]. rewrite IH by exact D1.
  unfold import_one. cbn [memories shortTermMemory longTermMemory maxShortTermSize maxLongTermSize].
  rewrite set_fresh by (rewrite map_map; exact D2).
  rewrite !filter_app, map_app. cbn [filter map].
  change (geb (importance m) 60) with (important m).
  destruct (important m); cbn [negb]; rewrite ?app_nil_r; reflexivity.
Qed.

(** X7. Importing records with distinct identifiers into a new store
    reproduces them: when at most [shortTermCapacity] of them have
    importance below 60 and at most [longTermCapacity] have importance 60
    or more, [export] after [import] returns the same records in the same
    order, the short-term list holds those below 60 and the long-term
    list the others. *)
Theorem import_into_new_store_round_trip
    (cap lcap : nat) (mems : list Memory) :
  distinct_ids (map mem_id mems) = true ->
  (List.length (filter (fun m => negb (important m)) mems) <= cap)%nat ->
  (List.length (filter important mems) <= lcap)%nat ->
  let ms := import mems (MemorySystem.new cap lcap) in
  export ms = mems
  /\ memories ms = map index_entry mems
  /\ shortTermMemory ms = filter (fun m => negb (important m)) mems
  /\ longTermMemory ms = filter important mems.
Proof.
  intros D Hs Hl ms. subst ms. unfold import.
  rewrite import_fold_new by exact D.
  rewrite consolidateMemories_within by assumption.
  unfold export, IdMap.values. cbn [memories shortTermMemory longTermMemory].
  repeat split. rewrite map_map. cbn [index_entry snd]. apply map_id.
Qed.

Lemma import_into_new_store_round_trip_witness :
  let mems := [mkMemory 1 "a" episodic 40 0 0 [] []; mkMemory 2 "b" semantic 100 0 5 [] [1%nat]] in
  distinct_ids (map mem_id mems) = true
  /\ (List.length (filter (fun m => negb (important m)) mems) <= 50)%nat
  /\ (List.length (filter important mems) <= 1000)%nat
  /\ (let ms := import mems (MemorySystem.new 50 1000) in
      export ms = mems
      /\ memories ms = map index_entry mems
      /\ shortTermMemory ms = filter (fun m => negb (important m)) mems
      /\ longTermMemory ms = filter important mems).
Proof.
  intro mems.
  assert (H1 : (List.length (filter (fun m => negb (important m)) mems) <= 50)%nat)
    by (vm_compute; lia).
  assert (H2 : (List.length (filter important mems) <= 1000)%nat)
    by (vm_compute; lia).
  split; [reflexivity|]. split; [exact H1|]. split; [exact H2|].
  exact (import_into_new_store_round_trip 50 1000 mems eq_refl H1 H2).
Defined.

End StoreRanges.

(* ----------------------------------------------------------------- *)
(** ** Rounding *)

Section Rounding.

Import Js.
Open Scope Q_scope.

(** [Math.round] maps a number between two integers to an integer
    between them. *)
Lemma Math_round_between (lo hi : Z) (x : Q) :
  inject_Z lo <= x -> x <= inject_Z hi ->
  (lo <= Math_round x <= hi)%Z.
Proof.
  intros Hl Hh. unfold Math_round. split.
  - rewrite <- (Qfloor_Z lo). apply Qfloor_resp_le. lra.
  - pose proof (Qfloor_le (x + (1 # 2))) as F.
    assert (L : inject_Z (Qfloor (x + (1 # 2))) < inject_Z (hi + 1)).
    { rewrite inject_Z_plus. change (inject_Z 1) with 1. lra. }
    rewrite <- Zlt_Qlt in L. lia.
Qed.

End Rounding.

(* ----------------------------------------------------------------- *)
(** ** Statistics and queries *)

Section StatisticsAndQueries.

Import Js MemorySystem.
Open Scope Q_scope.

Lemma MemoryType_eqb_eq (a b : MemoryType) : MemoryType_eqb a b = true <-> a = b.
Proof. destruct a, b; cbn; split; intro H; congruence. Qed.

Lemma type_count_step (ty ty' : MemoryType) (c : list (MemoryType * nat)) :
  type_count ty (count_type ty' c)
  = if MemoryType_eqb ty' ty then S (type_count ty c) else type_count ty c.
Proof.
  induction c as [|[k n] c IH]; cbn [count_type type_count].
  - destruct ty, ty'; reflexivity.
  - destruct (MemoryType_eqb ty' k) eqn:E1; cbn [type_count].
    + apply MemoryType_eqb_eq in E1. subst k.
      destruct (MemoryType_eqb ty ty') eqn:E2.
      * apply MemoryType_eqb_eq in E2. subst ty'.
        now destruct ty.
      * destruct ty, ty'; try discriminate; reflexivity.
    + destruct (MemoryType_eqb ty k) eqn:E2; [|exact IH].
      apply MemoryType_eqb_eq in E2. subst k.
      destruct ty, ty'; try discriminate; reflexivity.
Qed.

Lemma type_count_fold (ty : MemoryType) (l : list Memory) :
  forall c : list (MemoryType * nat),
    type_count ty (fold_left (fun c m => count_type (mem_type m) c) l c)
    = (type_count ty c
       + List.length (filter (fun m => MemoryType_eqb (mem_type m) ty) l))%nat.
Proof.
  induction l as [|m l IH]; intro c; cbn [fold_left filter].
  - cbn. lia.
  - rewrite IH, type_count_step.
    destruct (MemoryType_eqb (mem_type m) ty); cbn [List.length]; lia.
Qed.

Lemma importance_sum_bounds (l : list Memory) :
  Forall (fun m => 0 <= importance m <= 100) l ->
  forall acc : Q,
    acc <= fold_left (fun sum m => sum + importance m) l acc
    /\ fold_left (fun sum m => sum + importance m) l acc
       <= acc + 100 * of_nat (List.length l).
Proof.
  induction 1 as [|m l [H1 H2] F IH]; intro acc; cbn [fold_left List.length].
  - change (of_nat 0) with 0. split; lra.
  - destruct (IH (acc + importance m)) as [I1 I2]. rewrite of_nat_succ. split; lra.
Qed.

(** X8. The type histogram of [getStats] counts, for every type, the
    records of that type in the index; a type that does not occur has no
    entry, which reads as 0. *)
Theorem getStats_histogram :
  forall (ms : MemorySystem.t) (ty : MemoryType),
    type_count ty (memoryTypes (getStats ms))
    = List.length (filter (fun m => MemoryType_eqb (mem_type m) ty)
                          (IdMap.values (memories ms))).
Proof.
  intros ms ty. unfold getStats. cbn [memoryTypes]. now rewrite type_count_fold.
Qed.

(** X9. When every record of the index has an importance between 0 and
    100, the average importance that [getStats] reports is an integer
    between 0 and 100. *)
Theorem getStats_average_in_range (ms : MemorySystem.t) :
  Forall (fun m => 0 <= importance m <= 100) (IdMap.values (memories ms)) ->
  exists z : Z,
    averageImportance (getStats ms) = JFin (inject_Z z) /\ (0 <= z <= 100)%Z.
Proof.
  intro R. unfold getStats. cbn [averageImportance].
  revert R. generalize (IdMap.values (memories ms)) as l. intros l R.
  destruct l as [|m rest].
  - exists 0%Z. split; [reflexivity | lia].
  - set (l := m :: rest) in *.
    set (n := List.length l).
    assert (Hn : 0 < inject_Z (Z.of_nat n)).
    { change 0 with (inject_Z 0). rewrite <- Zlt_Qlt. subst n l.
      cbn [List.length]. lia. }
    destruct (importance_sum_bounds _ R 0) as [S1 S2]. fold n in S2.
    set (sum := fold_left (fun sum m => sum + importance m) l 0) in *.
    assert (A : 0 <= sum / inject_Z (Z.of_nat n) <= 100).
    { split.
      * apply Qle_shift_div_l; [exact Hn | lra].
      * apply Qle_shift_div_r; [exact Hn|]. unfold of_nat in S2. lra. }
    unfold div.
    assert (Z0 : Qeq_bool (inject_Z (Z.of_nat n)) 0 = false).
    { destruct (Qeq_bool (inject_Z (Z.of_nat n)) 0) eqn:Q0; [|reflexivity].
      apply Qeq_bool_iff in Q0. lra. }
    rewrite Z0. cbn [or_zero].
    destruct (Qeq_bool (sum / inject_Z (Z.of_nat n)) 0); cbn [round].
    + exists (Math_round 0). split; [reflexivity|].
      apply Math_round_between;
        [change (inject_Z 0) with 0 | change (inject_Z 100) with 100]; lra.
    + exists (Math_round (sum / inject_Z (Z.of_nat n))). split; [reflexivity|].
      apply Math_round_between;
        [change (inject_Z 0) with 0 | change (inject_Z 100) with 100]; lra.
Qed.

Lemma getStats_average_in_range_witness :
  let ms := store_all [mkRequest 1 0 "x" episodic 35 0 []; mkRequest 2 0 "y" episodic 40 0 []]
                      (MemorySystem.new 50 1000) in
  Forall (fun m => 0 <= importance m <= 100) (IdMap.values (memories ms))
  /\ exists z : Z,
      averageImportance (getStats ms) = JFin (inject_Z z) /\ (0 <= z <= 100)%Z.
Proof.
  intro ms.
  assert (R : Forall (fun m => 0 <= importance m <= 100) (IdMap.values (memories ms))).
  { vm_compute. repeat constructor; intro C; discriminate C. }
  split; [exact R|].
  exact (getStats_average_in_range ms R).
Defined.

Lemma descending_cross {A : Type} (key : A -> Q) (l1 l2 : list A) :
  descending key (l1 ++ l2) ->
  forall a b, In a l1 -> In b l2 -> key b <= key a.
Proof.
  unfold descending. induction l1 as [|x l1 IH]; cbn [app]; intros H a b Ha Hb;
    [contradiction|].
  apply StronglySorted_inv in H. destruct H as [H1 H2].
  destruct Ha as [<-|Ha]; [|now apply IH].
  rewrite Forall_forall in H2. apply H2. apply in_or_app. now right.
Qed.

(** X10. [getMemoriesByType ty] returns exactly the records of the index
    whose type is [ty], each as often as the index holds it, ordered from
    the newest to the oldest timestamp. *)
Theorem getMemoriesByType_exact_and_sorted :
  forall (ty : MemoryType) (ms : MemorySystem.t),
    Permutation (getMemoriesByType ty ms)
                (filter (fun m => MemoryType_eqb (mem_type m) ty)
                        (IdMap.values (memories ms)))
    /\ Forall (fun m => mem_type m = ty /\ In m (IdMap.values (memories ms)))
              (getMemoriesByType ty ms)
    /\ descending (fun m => inject_Z (timestamp m)) (getMemoriesByType ty ms).
Proof.
  intros ty ms. unfold getMemoriesByType. split; [apply sort_desc_perm|]. split.
  - apply Forall_forall. intros m Hm.
    apply (Permutation_in _ (sort_desc_perm _ _)) in Hm.
    apply filter_In in Hm. destruct Hm as [Hin Ht].
    split; [now apply MemoryType_eqb_eq | exact Hin].
  - apply sort_desc_sorted.
Qed.

(** X11. For a count that is not negative, [getRecentMemories count]
    returns [min(count, size)] records of the index, ordered from the
    newest to the oldest timestamp, and every record it leaves out is no
    newer than any record it returns. *)
Theorem getRecentMemories_newest (count : Z) (ms : MemorySystem.t) :
  (0 <= count)%Z ->
  exists rest : list Memory,
    Permutation (getRecentMemories count ms ++ rest) (IdMap.values (memories ms))
    /\ List.length (getRecentMemories count ms)
       = Nat.min (Z.to_nat count) (IdMap.size (memories ms))
    /\ descending (fun m => inject_Z (timestamp m)) (getRecentMemories count ms)
    /\ forall a b, In a (getRecentMemories count ms) -> In b rest ->
                   (timestamp b <= timestamp a)%Z.
Proof.
  intro Hc. unfold getRecentMemories, slice_to.
  apply Z.ltb_ge in Hc. rewrite Hc.
  set (key := fun m : Memory => inject_Z (timestamp m)).
  set (sorted := sort_desc key (IdMap.values (memories ms))).
  exists (skipn (Z.to_nat count) sorted).
  assert (S : descending key sorted) by apply sort_desc_sorted.
  split; [|split; [|split]].
  - rewrite firstn_skipn. apply sort_desc_perm.
  - rewrite length_firstn. f_equal. subst sorted.
    rewrite (Permutation_length (sort_desc_perm key _)).
    unfold IdMap.values, IdMap.size. apply length_map.
  - now apply descending_firstn.
  - intros a b Ha Hb. rewrite Zle_Qle.
    rewrite <- (firstn_skipn (Z.to_nat count) sorted) in S.
    exact (descending_cross key _ _ S a b Ha Hb).
Qed.

Lemma getRecentMemories_newest_witness :
  let ms := store_all [mkRequest 1 10 "x" episodic 35 0 []; mkRequest 2 20 "y" episodic 40 0 []]
                      (MemorySystem.new 50 1000) in
  (0 <= 1)%Z
  /\ exists rest : list Memory,
      Permutation (getRecentMemories 1 ms ++ rest) (IdMap.values (memories ms))
      /\ List.length (getRecentMemories 1 ms)
         = Nat.min (Z.to_nat 1) (IdMap.size (memories ms))
      /\ descending (fun m => inject_Z (timestamp m)) (getRecentMemories 1 ms)
      /\ forall a b, In a (getRecentMemories 1 ms) -> In b rest ->
                     (timestamp b <= timestamp a)%Z.
Proof.
  intro ms.
  assert (H : (0 <= 1)%Z) by lia.
  split; [exact H|].
  exact (getRecentMemories_newest 1 ms H).
Defined.

End StatisticsAndQueries.

(* ----------------------------------------------------------------- *)
(** ** Reachable states of the mood engine *)

Section EngineInvariants.

Import Js MoodEngine.
Open Scope Q_scope.

Lemma slice_last_length {A : Type} (n : nat) (l : list A) :
  (n <= List.length l)%nat -> (0 < n)%nat -> List.length (slice_last n l) = n.
Proof.
  intros H Hn. unfold slice_last. destruct n as [|n]; [lia|].
  rewrite length_skipn. lia.
Qed.

Lemma addThought_bounded (tid : nat) (now : Z) (text : string) (ty : ThoughtType)
    (triggers : option (list string)) (me : MoodEngine.t) :
  (List.length (thoughts (addThought tid now text ty triggers me)) <= 100)%nat
  /\ moodHistory (addThought tid now text ty triggers me) = moodHistory me
  /\ emotionalState (addThought tid now text ty triggers me) = emotionalState me.
Proof.
  unfold addThought. cbn [thoughts moodHistory emotionalState].
  split; [|split; reflexivity].
  destruct (100 <? List.length (thoughts me ++ [mkThought tid text ty now triggers]))%nat
    eqn:E.
  - apply Nat.ltb_lt in E. rewrite slice_last_length; lia.
  - apply Nat.ltb_ge in E. exact E.
Qed.

Lemma recordMoodChange_bounded (now : Z) (m : MoodState) (me : MoodEngine.t) :
  (1 <= List.length (moodHistory (recordMoodChange now m me)) <= 200)%nat
  /\ thoughts (recordMoodChange now m me) = thoughts me
  /\ emotionalState (recordMoodChange now m me) = emotionalState me.
Proof.
  unfold recordMoodChange. cbn [thoughts moodHistory emotionalState].
  split; [|split; reflexivity].
  destruct (200 <? List.length (moodHistory me ++ [(m, now)]))%nat eqn:E.
  - apply Nat.ltb_lt in E. rewrite slice_last_length; lia.
  - apply Nat.ltb_ge in E. rewrite length_app in *. cbn [List.length] in *. lia.
Qed.

Lemma updateMood_bounded (tid : nat) (now : Z) (s : Stimulus) (me : MoodEngine.t) :
  buffers_bounded me -> buffers_bounded (updateMood tid now s me).
Proof.
  intros [Ht Hh]. unfold updateMood.
  destruct (MoodState_eqb (calculateMoodFromState (adjust s (emotionalState me)))
                          (mood (adjust s (emotionalState me)))).
  - split; assumption.
  - match goal with
    | |- buffers_bounded (addThought ?a ?b ?c ?d ?e ?m) =>
        destruct (addThought_bounded a b c d e m) as (A1 & A2 & _)
    end.
    split; [exact A1|]. rewrite A2.
    apply recordMoodChange_bounded.
Qed.

Lemma simulateTimePassage_bounded (now : Z) (minutes : Q) (me : MoodEngine.t) :
  buffers_bounded me -> buffers_bounded (simulateTimePassage now minutes me).
Proof.
  intros [Ht Hh]. unfold simulateTimePassage.
  match goal with |- buffers_bounded (if ?c then _ else _) => destruct c end.
  - split; assumption.
  - match goal with
    | |- buffers_bounded (recordMoodChange ?a ?b ?m) =>
        destruct (recordMoodChange_bounded a b m) as (R1 & R2 & _)
    end.
    split; [rewrite R2; exact Ht | exact R1].
Qed.

Lemma generateInternalMonologue_state (tid : nat) (now : Z) (rnd : Q) (me : MoodEngine.t) :
  emotionalState (fst (generateInternalMonologue tid now rnd me)) = emotionalState me
  /\ (buffers_bounded me ->
      buffers_bounded (fst (generateInternalMonologue tid now rnd me))).
Proof.
  unfold generateInternalMonologue.
  match goal with |- context [if ?c then _ else _] => destruct c end;
    [split; [reflexivity | tauto]|].
  destruct (generateThoughtContent rnd me) as [[text ty]|]; [|split; [reflexivity | tauto]].
  cbn [fst]. destruct (addThought_bounded tid now text ty None me) as (A1 & A2 & A3).
  split; [exact A3|]. intros [_ Hh]. split; [exact A1 | now rewrite A2].
Qed.

Lemma simulateTimePassage_state (now : Z) (minutes : Q) (me : MoodEngine.t) :
  let es := emotionalState me in
  let es' := emotionalState (simulateTimePassage now minutes me) in
  energy es' = Math_max 0 (energy es - minutes * 0.1)
  /\ stress es' = Math_max 0 (stress es - minutes * 0.05)
  /\ confidence es' = confidence es
  /\ socialBattery es' = Math_min 100 (socialBattery es + minutes * 0.2)
  /\ mood es' = calculateMoodFromState es'.
Proof.
  cbv zeta. unfold simulateTimePassage.
  match goal with |- context [if MoodState_eqb ?a ?b then _ else _] =>
    destruct (MoodState_eqb a b) eqn:E end.
  - apply MoodState_eqb_eq in E. cbn [set_state emotionalState mood] in *.
    repeat split. cbn [energy stress confidence socialBattery mood]. symmetry. exact E.
  - repeat split.
Qed.

Lemma step_in_range (me me' : MoodEngine.t) :
  step me me' ->
  scalars_in_range (emotionalState me) -> scalars_in_range (emotionalState me').
Proof.
  intros S (He & Hs & Hc & Hb).
  destruct S as [tid now s me Hi | change me | now minutes me Hm
                | tid now text ty trg me | tid now rnd me].
  - apply updateMood_in_range; [exact Hi | repeat split; tauto].
  - unfold adjustSocialBattery, scalars_in_range.
    cbn [set_state emotionalState energy stress confidence socialBattery].
    repeat split; try tauto; apply clamp_in_range.
  - destruct (simulateTimePassage_state now minutes me) as (E1 & E2 & E3 & E4 & _).
    unfold scalars_in_range. rewrite E1, E2, E3, E4. unfold Math_max, Math_min.
    repeat split; try tauto;
      first [ apply Q.le_max_l | apply Q.le_min_l
            | apply Q.max_lub; [discriminate | lra]
            | apply Q.min_glb; [discriminate | lra] ].
  - destruct (addThought_bounded tid now text ty trg me) as (_ & _ & A).
    rewrite A. repeat split; tauto.
  - destruct (generateInternalMonologue_state tid now rnd me) as [A _].
    rewrite A. repeat split; tauto.
Qed.

Lemma step_bounded (me me' : MoodEngine.t) :
  step me me' -> buffers_bounded me -> buffers_bounded me'.
Proof.
  intros S B.
  destruct S as [tid now s me Hi | change me | now minutes me Hm
                | tid now text ty trg me | tid now rnd me].
  - now apply updateMood_bounded.
  - exact B.
  - now apply simulateTimePassage_bounded.
  - destruct (addThought_bounded tid now text ty trg me) as (A1 & A2 & _).
    destruct B as [_ Hh]. split; [exact A1 | now rewrite A2].
  - now apply generateInternalMonologue_state.
Qed.

(** X12. In every state that the engine reaches from its constructor by
    [updateMood] (intensity not negative), [adjustSocialBattery],
    [simulateTimePassage] (minutes not negative), [addThought] and
    [generateInternalMonologue], the four scalars are between 0 and 100,
    there are at most 100 thoughts, and the mood history has between 1
    and 200 entries. *)
Theorem reachable_engine_bounded (me : MoodEngine.t) :
  reachable me ->
  scalars_in_range (emotionalState me) /\ buffers_bounded me.
Proof.
  induction 1 as [now m | me me' R IH S].
  - split.
    + unfold scalars_in_range. cbn. repeat split; discriminate.
    + split; cbn; lia.
  - destruct IH as [I B]. split; [eapply step_in_range | eapply step_bounded]; eassumption.
Qed.

Lemma reachable_engine_bounded_witness :
  let me := updateMood 1 5 (mkStimulus positive 80 None) (MoodEngine.new 0 neutral) in
  reachable me
  /\ scalars_in_range (emotionalState me) /\ buffers_bounded me.
Proof.
  intro me.
  assert (R : reachable me).
  { apply reachable_step with (me := MoodEngine.new 0 neutral).
    - apply reachable_new.
    - apply step_updateMood. cbn [intensity]. discriminate. }
  split; [exact R|].
  exact (reachable_engine_bounded me R).
Defined.

End EngineInvariants.

(* ----------------------------------------------------------------- *)
(** ** Return to baseline, decay and the monologue *)

Section EngineDynamics.

Import Js MoodEngine.
Open Scope Q_scope.

Lemma gtb_false (x y : Q) : x <= y -> gtb x y = false.
Proof. intro H. unfold gtb. apply Qle_bool_iff in H. now rewrite H. Qed.

Lemma gtb_true (x y : Q) : y < x -> gtb x y = true.
Proof.
  intro H. unfold gtb. destruct (Qle_bool x y) eqn:E; [|reflexivity].
  apply Qle_bool_iff in E. lra.
Qed.

Lemma ltb_false (x y : Q) : y <= x -> ltb x y = false.
Proof. intro H. unfold ltb. apply Qle_bool_iff in H. now rewrite H. Qed.

Lemma ltb_true (x y : Q) : x < y -> ltb x y = true.
Proof.
  intro H. unfold ltb. destruct (Qle_bool y x) eqn:E; [|reflexivity].
  apply Qle_bool_iff in E. lra.
Qed.

(** One step of [moveToward] brings a value that is within [n + 1] steps
    of the target to within [n] steps of it. *)
Lemma moveToward_closer (n : nat) (x target step : Q) :
  0 <= step ->
  target - of_nat (S n) * step <= x <= target + of_nat (S n) * step ->
  target - of_nat n * step <= moveToward x target step <= target + of_nat n * step.
Proof.
  intros Hs [H1 H2]. rewrite of_nat_succ in H1, H2.
  pose proof (of_nat_nonneg n) as Hn.
  assert (Hns : 0 <= of_nat n * step) by (apply Qmult_le_0_compat; assumption).
  unfold moveToward, ltb, gtb, Math_min, Math_max.
  destruct (Qle_bool target x) eqn:E1; cbn [negb].
  - apply Qle_bool_iff in E1.
    destruct (Qle_bool x target) eqn:E2; cbn [negb].
    + apply Qle_bool_iff in E2. split; lra.
    + split.
      * apply Qle_trans with target; [lra | apply Q.le_max_l].
      * apply Q.max_lub; lra.
  - assert (x < target).
    { apply Qnot_le_lt. intro C. apply Qle_bool_iff in C. congruence. }
    split.
    + apply Q.min_glb; lra.
    + apply Qle_trans with target; [apply Q.le_min_l | lra].
Qed.

Lemma moveToward_reaches (n : nat) (target step : Q) :
  0 <= step ->
  forall x : Q,
    target - of_nat n * step <= x <= target + of_nat n * step ->
    Nat.iter n (fun y => moveToward y target step) x == target.
Proof.
  intro Hs. induction n as [|n IH]; intros x H.
  - destruct H as [H1 H2].
    assert (Z0 : of_nat 0 * step == 0) by (change (of_nat 0) with 0; ring).
    rewrite Z0 in H1, H2. unfold Nat.iter. cbn [nat_rect]. apply Qle_antisym; lra.
  - rewrite Nat.iter_succ_r. apply IH. now apply moveToward_closer.
Qed.

Lemma neutral_calls_scalars (calls : list MoodCall) :
  Forall is_neutral calls ->
  forall me : MoodEngine.t,
    let es := emotionalState me in
    let es' := emotionalState (updateMood_all calls me) in
    energy es' = Nat.iter (List.length calls) (fun y => moveToward y 70 5) (energy es)
    /\ stress es' = Nat.iter (List.length calls) (fun y => moveToward y 20 5) (stress es)
    /\ confidence es'
       = Nat.iter (List.length calls) (fun y => moveToward y 60 3) (confidence es)
    /\ socialBattery es' = socialBattery es.
Proof.
  induction 1 as [|c calls Hc F IH]; intro me; cbv zeta; [repeat split|].
  unfold updateMood_all. cbn [fold_left List.length].
  fold (updateMood_all calls (updateMood (call_tid c) (call_now c) (call_stimulus c) me)).
  destruct (IH (updateMood (call_tid c) (call_now c) (call_stimulus c) me))
    as (E1 & E2 & E3 & E4).
  rewrite E1, E2, E3, E4, !Nat.iter_succ_r, updateMood_state.
  unfold adjust. unfold is_neutral in Hc. rewrite Hc.
  repeat split.
Qed.

(** X13. Twenty or more neutral stimuli in a row bring an engine whose
    scalars are between 0 and 100 back to the baseline: energy 70, stress
    20 and confidence 60, with socialBattery as it was; the mood is then
    curious when socialBattery is above 70 and neutral otherwise. *)
Theorem neutral_stimuli_reach_baseline
    (calls : list MoodCall) (me : MoodEngine.t) :
  Forall is_neutral calls ->
  (20 <= List.length calls)%nat ->
  scalars_in_range (emotionalState me) ->
  let es' := emotionalState (updateMood_all calls me) in
  energy es' == 70 /\ stress es' == 20 /\ confidence es' == 60
  /\ socialBattery es' = socialBattery (emotionalState me)
  /\ mood es' = if gtb (socialBattery (emotionalState me)) 70 then curious else neutral.
Proof.
  intros F L (He & Hs & Hc & Hb) es'.
  destruct (neutral_calls_scalars calls F me) as (E1 & E2 & E3 & E4).
  fold es' in E1, E2, E3, E4.
  assert (N : 20 <= of_nat (List.length calls)).
  { unfold of_nat. change 20 with (inject_Z 20). rewrite <- Zle_Qle. lia. }
  assert (A1 : energy es' == 70).
  { rewrite E1. apply moveToward_reaches; [discriminate | split; lra]. }
  assert (A2 : stress es' == 20).
  { rewrite E2. apply moveToward_reaches; [discriminate | split; lra]. }
  assert (A3 : confidence es' == 60).
  { rewrite E3. apply moveToward_reaches; [discriminate | split; lra]. }
  repeat split; try assumption.
  assert (M : mood es' = calculateMoodFromState es').
  { subst es'. destruct calls as [|c calls] using rev_ind; [cbn in L; lia|].
    unfold updateMood_all. rewrite fold_left_app. cbn [fold_left].
    now rewrite updateMood_state. }
  rewrite M. unfold calculateMoodFromState.
  rewrite (gtb_false (stress es') 70) by lra.
  rewrite (ltb_false (energy es') 30) by lra.
  rewrite (gtb_false (energy es') 80) by lra.
  rewrite (gtb_false (confidence es') 70) by lra.
  rewrite (gtb_true (confidence es') 50) by lra.
  rewrite (ltb_true (confidence es') 80) by lra.
  rewrite E4. cbn [andb]. now rewrite !andb_true_r.
Qed.

Lemma neutral_stimuli_reach_baseline_witness :
  let calls := map (fun k => mkMoodCall k (Z.of_nat k) (mkStimulus neutral_stimulus 0 None))
                   (seq 1 20) in
  let me := updateMood 0 0 (mkStimulus negative 100 None) (MoodEngine.new 0 neutral) in
  Forall is_neutral calls
  /\ (20 <= List.length calls)%nat
  /\ scalars_in_range (emotionalState me)
  /\ (let es' := emotionalState (updateMood_all calls me) in
      energy es' == 70 /\ stress es' == 20 /\ confidence es' == 60
      /\ socialBattery es' = socialBattery (emotionalState me)
      /\ mood es' = if gtb (socialBattery (emotionalState me)) 70 then curious else neutral).
Proof.
  intros calls me.
  assert (F : Forall is_neutral calls).
  { apply Forall_forall. intros c Hc. apply in_map_iff in Hc.
    destruct Hc as (k & <- & _). reflexivity. }
  assert (L : (20 <= List.length calls)%nat) by (vm_compute; lia).
  assert (R : scalars_in_range (emotionalState me)).
  { vm_compute. repeat split; intro C; discriminate C. }
  split; [exact F|]. split; [exact L|]. split; [exact R|].
  exact (neutral_stimuli_reach_baseline calls me F L R).
Defined.

(** X14. On an engine whose scalars are between 0 and 100,
    [simulateTimePassage] with minutes that are not negative never raises
    energy or stress, never lowers socialBattery, leaves confidence alone,
    keeps the scalars between 0 and 100, and leaves the mood that
    classifies the new scalars. *)
Theorem simulateTimePassage_decays
    (now : Z) (minutes : Q) (me : MoodEngine.t) :
  0 <= minutes ->
  scalars_in_range (emotionalState me) ->
  let es := emotionalState me in
  let es' := emotionalState (simulateTimePassage now minutes me) in
  energy es' <= energy es
  /\ stress es' <= stress es
  /\ socialBattery es <= socialBattery es'
  /\ confidence es' = confidence es
  /\ scalars_in_range es'
  /\ mood es' = calculateMoodFromState es'.
Proof.
  intros Hm R es es'.
  assert (R' : scalars_in_range es').
  { apply (step_in_range me); [now apply step_simulateTimePassage | exact R]. }
  destruct R as (He & Hs & Hc & Hb).
  destruct (simulateTimePassage_state now minutes me) as (E1 & E2 & E3 & E4 & E5).
  fold es es' in E1, E2, E3, E4, E5.
  split; [|split; [|split; [|split; [|split]]]]; try assumption.
  - rewrite E1. unfold Math_max. apply Q.max_lub; [tauto | lra].
  - rewrite E2. unfold Math_max. apply Q.max_lub; [tauto | lra].
  - rewrite E4. unfold Math_min. apply Q.min_glb; [tauto | lra].
Qed.

Lemma simulateTimePassage_decays_witness :
  let me := MoodEngine.new 0 neutral in
  0 <= 30
  /\ scalars_in_range (emotionalState me)
  /\ (let es := emotionalState me in
      let es' := emotionalState (simulateTimePassage 1800000 30 me) in
      energy es' <= energy es
      /\ stress es' <= stress es
      /\ socialBattery es <= socialBattery es'
      /\ confidence es' = confidence es
      /\ scalars_in_range es'
      /\ mood es' = calculateMoodFromState es').
Proof.
  intro me.
  assert (H : 0 <= 30) by discriminate.
  assert (R : scalars_in_range (emotionalState me)).
  { vm_compute. repeat split; intro C; discriminate C. }
  split; [exact H|]. split; [exact R|].
  exact (simulateTimePassage_decays 1800000 30 me H R).
Defined.




End EngineDynamics.

(* ----------------------------------------------------------------- *)
(** ** The personality model *)

Section PersonalityProperties.

Import Js PersonalitySystem.
Open Scope Q_scope.

Lemma rate_fraction (r : Q) : 0 <= r <= 100 -> 0 <= r / 100 <= 1.
Proof.
  intros [H1 H2]. split.
  - apply Qle_shift_div_l; [reflexivity | lra].
  - apply Qle_shift_div_r; [reflexivity | lra].
Qed.

(** A clamped step of the moving average does not leave the current
    value on the side away from the target. *)
Lemma adapt_direction (cur v lam : Q) :
  0 <= cur <= 100 -> 0 <= lam ->
  let new := Math_max 0 (Math_min 100 (cur + (v - cur) * lam)) in
  (cur <= v -> cur <= new) /\ (v <= cur -> new <= cur).
Proof.
  intros [C1 C2] L new. subst new. unfold Math_max, Math_min. split; intro H.
  - assert (P : 0 <= (v - cur) * lam) by (apply Qmult_le_0_compat; lra).
    apply Qle_trans with (Qmin 100 (cur + (v - cur) * lam)); [|apply Q.le_max_r].
    apply Q.min_glb; lra.
  - assert (P : 0 <= (cur - v) * lam) by (apply Qmult_le_0_compat; lra).
    apply Q.max_lub; [exact C1|].
    apply Qle_trans with (cur + (v - cur) * lam); [apply Q.le_min_r | lra].
Qed.

(** X16. With an adaptation rate between 0 and 100 and traits between 0
    and 100, [updateBigFive] never moves a trait away from its target: a
    provided trait whose target is at or above its current value does
    not fall, one whose target is at or below its current value does not
    rise, every trait that the argument does not provide is unchanged,
    and all traits are again between 0 and 100. *)
Theorem updateBigFive_never_moves_away_from_target
    (changes : TraitChanges) (p : PersonalitySystem.t) (b : BigFiveTraits) :
  bigFive (config p) = Some b ->
  changes_distinct changes = true ->
  traits_in_range b ->
  0 <= adaptationRate p <= 100 ->
  (forall t : Trait,
      let cur := get_trait t b in
      let new := get_trait t (getBigFive (updateBigFive changes p)) in
      match changes_lookup t changes with
      | Some target => (cur <= target -> cur <= new) /\ (target <= cur -> new <= cur)
      | None => new = cur
      end)
  /\ traits_in_range (getBigFive (updateBigFive changes p)).
Proof.
  intros Hb Hk Hr Hrate. split.
  - intros t cur new. subst cur new.
    unfold updateBigFive, getBigFive. rewrite Hb. cbn [config bigFive].
    rewrite (fold_adapt_formula (adaptationRate p) t changes b Hk).
    destruct (changes_lookup t changes) as [v|]; [|reflexivity].
    apply adapt_direction; [apply Hr | apply (rate_fraction _ Hrate)].
  - apply updateBigFive_in_range. unfold getBigFive. now rewrite Hb.
Qed.

Lemma updateBigFive_never_moves_away_from_target_witness :
  let p := PersonalitySystem.new (mkPersonalityConfig None None None None) 5 in
  let changes := [(Extraversion, 2); (Neuroticism, -1)] in
  bigFive (config p) = Some getDefaultBigFive
  /\ changes_distinct changes = true
  /\ traits_in_range getDefaultBigFive
  /\ 0 <= adaptationRate p <= 100
  /\ (forall t : Trait,
         let cur := get_trait t getDefaultBigFive in
         let new := get_trait t (getBigFive (updateBigFive changes p)) in
         match changes_lookup t changes with
         | Some target => (cur <= target -> cur <= new) /\ (target <= cur -> new <= cur)
         | None => new = cur
         end)
  /\ traits_in_range (getBigFive (updateBigFive changes p)).
Proof.
  intros p changes.
  assert (R : traits_in_range getDefaultBigFive).
  { intro t. destruct t; cbn; split; discriminate. }
  assert (H : 0 <= adaptationRate p <= 100) by (cbn; split; discriminate).
  split; [reflexivity|]. split; [reflexivity|]. split; [exact R|]. split; [exact H|].
  exact (updateBigFive_never_moves_away_from_target changes p getDefaultBigFive
           eq_refl eq_refl R H).
Defined.

Lemma gtb_iff (x y : Q) : gtb x y = true <-> y < x.
Proof.
  split; [|apply gtb_true]. intro H.
  apply Qnot_le_lt. intro C. rewrite (gtb_false _ _ C) in H. discriminate.
Qed.

Lemma ltb_iff (x y : Q) : ltb x y = true <-> x < y.
Proof.
  split; [|apply ltb_true]. intro H.
  apply Qnot_le_lt. intro C. rewrite (ltb_false _ _ C) in H. discriminate.
Qed.

(** Turns every comparison among the hypotheses into an inequality. *)
Ltac comparisons :=
  repeat match goal with
         | H : gtb _ _ = true |- _ => apply gtb_iff in H
         | H : ltb _ _ = true |- _ => apply ltb_iff in H
         | H : gtb ?x ?y = false |- _ =>
             assert (x <= y)
               by (let C := fresh "C" in
                   apply Qnot_lt_le; intro C; apply gtb_iff in C; congruence);
             clear H
         | H : ltb ?x ?y = false |- _ =>
             assert (y <= x)
               by (let C := fresh "C" in
                   apply Qnot_lt_le; intro C; apply ltb_iff in C; congruence);
             clear H
         end.

(** X17. [getDecisionStyle] is monotone: of two personalities, the one
    that is at least as open, at least as conscientious, at most as
    neurotic and at least as agreeable has an analysis depth, a risk
    tolerance, a time horizon and a social consideration that are each at
    least as high. *)
Theorem getDecisionStyle_monotone (p1 p2 : PersonalitySystem.t) :
  openness (getBigFive p1) <= openness (getBigFive p2) ->
  conscientiousness (getBigFive p1) <= conscientiousness (getBigFive p2) ->
  neuroticism (getBigFive p2) <= neuroticism (getBigFive p1) ->
  agreeableness (getBigFive p1) <= agreeableness (getBigFive p2) ->
  (depth_rank (analysisDepth (getDecisionStyle p1))
   <= depth_rank (analysisDepth (getDecisionStyle p2)))%nat
  /\ (risk_rank (riskTolerance (getDecisionStyle p1))
      <= risk_rank (riskTolerance (getDecisionStyle p2)))%nat
  /\ (time_rank (timePreference (getDecisionStyle p1))
      <= time_rank (timePreference (getDecisionStyle p2)))%nat
  /\ (socialConsideration (getDecisionStyle p1)
      <= socialConsideration (getDecisionStyle p2))%Z.
Proof.
  intros Ho Hc Hn Ha. unfold getDecisionStyle.
  cbn [analysisDepth riskTolerance timePreference socialConsideration].
  set (b1 := getBigFive p1) in *. set (b2 := getBigFive p2) in *.
  split; [|split; [|split]].
  - destruct (gtb (openness b1) 70) eqn:O1, (gtb (conscientiousness b1) 60) eqn:C1,
      (gtb (openness b2) 70) eqn:O2, (gtb (conscientiousness b2) 60) eqn:C2,
      (ltb (openness b1) 40) eqn:O3, (ltb (conscientiousness b1) 40) eqn:C3,
      (ltb (openness b2) 40) eqn:O4, (ltb (conscientiousness b2) 40) eqn:C4;
      cbn [andb orb depth_rank]; try lia; exfalso;
      comparisons; lra.
  - destruct (gtb (neuroticism b1) 60) eqn:N1, (gtb (neuroticism b2) 60) eqn:N2,
      (gtb (openness b1) 70) eqn:O1, (gtb (openness b2) 70) eqn:O2,
      (ltb (neuroticism b1) 40) eqn:N3, (ltb (neuroticism b2) 40) eqn:N4;
      cbn [andb risk_rank]; try lia; exfalso;
      comparisons; lra.
  - destruct (gtb (conscientiousness b1) 75) eqn:C1, (gtb (conscientiousness b2) 75) eqn:C2,
      (ltb (conscientiousness b1) 40) eqn:C3, (ltb (conscientiousness b2) 40) eqn:C4;
      cbn [time_rank]; try lia; exfalso;
      comparisons; lra.
  - unfold Math_round. apply Qfloor_resp_le. lra.
Qed.

Lemma getDecisionStyle_monotone_witness :
  let p1 := with_traits (mkBigFive 30 50 50 40 70) in
  let p2 := with_traits (mkBigFive 80 80 50 90 20) in
  openness (getBigFive p1) <= openness (getBigFive p2)
  /\ conscientiousness (getBigFive p1) <= conscientiousness (getBigFive p2)
  /\ neuroticism (getBigFive p2) <= neuroticism (getBigFive p1)
  /\ agreeableness (getBigFive p1) <= agreeableness (getBigFive p2)
  /\ (depth_rank (analysisDepth (getDecisionStyle p1))
      <= depth_rank (analysisDepth (getDecisionStyle p2)))%nat
  /\ (risk_rank (riskTolerance (getDecisionStyle p1))
      <= risk_rank (riskTolerance (getDecisionStyle p2)))%nat
  /\ (time_rank (timePreference (getDecisionStyle p1))
      <= time_rank (timePreference (getDecisionStyle p2)))%nat
  /\ (socialConsideration (getDecisionStyle p1)
      <= socialConsideration (getDecisionStyle p2))%Z.
Proof.
  intros p1 p2.
  assert (H1 : openness (getBigFive p1) <= openness (getBigFive p2)) by (cbn; discriminate).
  assert (H2 : conscientiousness (getBigFive p1) <= conscientiousness (getBigFive p2))
    by (cbn; discriminate).
  assert (H3 : neuroticism (getBigFive p2) <= neuroticism (getBigFive p1))
    by (cbn; discriminate).
  assert (H4 : agreeableness (getBigFive p1) <= agreeableness (getBigFive p2))
    by (cbn; discriminate).
  split; [exact H1|]. split; [exact H2|]. split; [exact H3|]. split; [exact H4|].
  exact (getDecisionStyle_monotone p1 p2 H1 H2 H3 H4).
Defined.




(** X19. For traits between 0 and 100, every behavioural tendency that
    [getBehavioralTendencies] derives is an integer between 0 and 100. *)
Theorem getBehavioralTendencies_in_range (p : PersonalitySystem.t) :
  traits_in_range (getBigFive p) ->
  let td := getBehavioralTendencies p in
  (0 <= curiosityLevel td <= 100)%Z
  /\ (0 <= socialSeeking td <= 100)%Z
  /\ (0 <= emotionalExpression td <= 100)%Z
  /\ (0 <= planningOrientation td <= 100)%Z
  /\ (0 <= changeAdaptability td <= 100)%Z.
Proof.
  intros R td. subst td. unfold getBehavioralTendencies.
  set (b := getBigFive p) in *.
  pose proof (R Openness) as Ho. pose proof (R Conscientiousness) as Hc.
  pose proof (R Extraversion) as He. pose proof (R Neuroticism) as Hn.
  cbn [get_trait] in Ho, Hc, He, Hn.
  cbn [curiosityLevel socialSeeking emotionalExpression planningOrientation
       changeAdaptability].
  assert (D : forall x, 0 <= x <= 200 -> 0 <= x / 2 <= 100).
  { intros x [X1 X2]. split.
    - apply Qle_shift_div_l; [reflexivity | lra].
    - apply Qle_shift_div_r; [reflexivity | lra]. }
  assert (D1 : 0 <= (100 - neuroticism b + extraversion b) / 2 <= 100)
    by (apply D; split; lra).
  assert (D2 : 0 <= (openness b + (100 - neuroticism b)) / 2 <= 100)
    by (apply D; split; lra).
  split; [|split; [|split; [|split]]];
    apply Math_round_between;
    (change (inject_Z 0) with 0 || change (inject_Z 100) with 100); lra.
Qed.

Lemma getBehavioralTendencies_in_range_witness :
  let p := with_traits getDefaultBigFive in
  traits_in_range (getBigFive p)
  /\ (let td := getBehavioralTendencies p in
      (0 <= curiosityLevel td <= 100)%Z
      /\ (0 <= socialSeeking td <= 100)%Z
      /\ (0 <= emotionalExpression td <= 100)%Z
      /\ (0 <= planningOrientation td <= 100)%Z
      /\ (0 <= changeAdaptability td <= 100)%Z).
Proof.
  intro p.
  assert (R : traits_in_range (getBigFive p)).
  { intro t. destruct t; cbn; split; discriminate. }
  split; [exact R|].
  exact (getBehavioralTendencies_in_range p R).
Defined.

(** X20. Whatever the traits and the mood, the confidence of
    [predictResponse] is between 50 and 90; an anxious mood always gives
    the reaction "hesitant consideration" and an excited mood always
    gives "enthusiastic engagement". *)
Theorem predictResponse_confidence_and_mood :
  forall (es : EmotionalState) (p : PersonalitySystem.t),
    50 <= prediction_confidence (predictResponse es p) <= 90
    /\ match mood es with
       | anxious => likelyReaction (predictResponse es p) = "hesitant consideration"%string
       | excited => likelyReaction (predictResponse es p) = "enthusiastic engagement"%string
       | _ => True
       end.
Proof.
  intros es p. unfold predictResponse.
  destruct (gtb (openness (getBigFive p)) 70),
    (gtb (conscientiousness (getBigFive p)) 70),
    (gtb (neuroticism (getBigFive p)) 60);
    destruct (mood es); cbn [prediction_confidence likelyReaction];
    (split; [split; vm_compute; discriminate | reflexivity || exact I]).
Qed.

End PersonalityProperties.

(* ----------------------------------------------------------------- *)
(** ** The emotional-impact classifier and the conversation contexts *)

Section SoulPieces.

Import Js Soul.
Open Scope Q_scope.

Lemma analyzeEmotionalImpact_bounds (input : string) :
  20 <= impact_intensity (analyzeEmotionalImpact input) <= 80
  /\ 30 <= impact_importance (analyzeEmotionalImpact input) <= 80
  /\ -80 <= emotionalWeight (analyzeEmotionalImpact input) <= 80.
Proof.
  unfold analyzeEmotionalImpact.
  set (p := word_score (toLowerCase input) positiveWords).
  set (n := word_score (toLowerCase input) negativeWords).
  assert (I : 30 <= 30 + Math_min 50 (str_length input / 2) <= 80).
  { unfold Math_min. split.
    - assert (0 <= Qmin 50 (str_length input / 2)).
      { apply Q.min_glb; [discriminate|].
        apply Qle_shift_div_l; [reflexivity|]. unfold str_length.
        pose proof (of_nat_nonneg (String.length input)). lra. }
      lra.
    - pose proof (Q.le_min_l 50 (str_length input / 2)). lra. }
  assert (W : forall k : nat, 20 <= Math_min 80 (30 + of_nat k * 15) <= 80).
  { intro k. unfold Math_min. split; [|apply Q.le_min_l].
    apply Q.min_glb; [discriminate|].
    pose proof (of_nat_nonneg k). lra. }
  destruct (n <? p)%nat;
    [|destruct (p <? n)%nat];
    cbn [impact_intensity impact_importance emotionalWeight].
  - destruct (W p). repeat split; try tauto; lra.
  - destruct (W n). repeat split; try tauto; lra.
  - repeat split; try tauto; discriminate.
Qed.

(** X21. Whatever the input, [analyzeEmotionalImpact] returns an
    intensity between 20 and 80, an importance between 30 and 80 and an
    emotional weight between -80 and 80 that is positive exactly for
    positive polarity, negative exactly for negative polarity and 0 for
    neutral polarity. *)
Theorem analyzeEmotionalImpact_in_range :
  forall input : string,
    let r := analyzeEmotionalImpact input in
    20 <= impact_intensity r <= 80
    /\ 30 <= impact_importance r <= 80
    /\ -80 <= emotionalWeight r <= 80
    /\ match impact_type r with
       | MoodEngine.positive => 0 < emotionalWeight r
       | MoodEngine.negative => emotionalWeight r < 0
       | MoodEngine.neutral_stimulus => emotionalWeight r == 0
       end.
Proof.
  intros input r. subst r. unfold analyzeEmotionalImpact.
  set (p := word_score (toLowerCase input) positiveWords).
  set (n := word_score (toLowerCase input) negativeWords).
  assert (I : 30 <= 30 + Math_min 50 (str_length input / 2) <= 80).
  { unfold Math_min. split.
    - assert (0 <= Qmin 50 (str_length input / 2)).
      { apply Q.min_glb; [discriminate|].
        apply Qle_shift_div_l; [reflexivity|]. unfold str_length.
        pose proof (of_nat_nonneg (String.length input)). lra. }
      lra.
    - pose proof (Q.le_min_l 50 (str_length input / 2)). lra. }
  assert (W : forall k : nat,
             45 <= Math_min 80 (30 + of_nat (S k) * 15) <= 80).
  { intro k. unfold Math_min. split; [|apply Q.le_min_l].
    apply Q.min_glb; [discriminate|]. rewrite of_nat_succ.
    pose proof (of_nat_nonneg k). lra. }
  destruct (n <? p)%nat eqn:E1.
  - apply Nat.ltb_lt in E1. destruct p as [|p]; [lia|].
    cbn [impact_intensity impact_importance emotionalWeight impact_type].
    destruct (W p) as [W1 W2]. repeat split; try tauto; lra.
  - destruct (p <? n)%nat eqn:E2.
    + apply Nat.ltb_lt in E2. destruct n as [|n]; [lia|].
      cbn [impact_intensity impact_importance emotionalWeight impact_type].
      destruct (W n) as [W1 W2]. repeat split; try tauto; lra.
    + cbn [impact_intensity impact_importance emotionalWeight impact_type].
      repeat split; try tauto; try discriminate; reflexivity.
Qed.

Lemma ctx_get_set_same (k : string) (v : ConversationContext) (m : CtxMap.t) :
  CtxMap.get k (CtxMap.set k v m) = Some v.
Proof.
  induction m as [|[k' v'] m IH]; cbn [CtxMap.set CtxMap.get].
  - now rewrite String.eqb_refl.
  - destruct (String.eqb k k') eqn:E; cbn [CtxMap.get]; rewrite E; [reflexivity | exact IH].
Qed.

Lemma ctx_get_set_other (j k : string) (v : ConversationContext) (m : CtxMap.t) :
  j <> k -> CtxMap.get j (CtxMap.set k v m) = CtxMap.get j m.
Proof.
  intro N. apply String.eqb_neq in N.
  induction m as [|[k' v'] m IH]; cbn [CtxMap.set CtxMap.get].
  - now rewrite N.
  - destruct (String.eqb k k') eqn:E; cbn [CtxMap.get].
    + apply String.eqb_eq in E. subst k'. now rewrite N.
    + now rewrite IH.
Qed.

Lemma ctx_get_In (k : string) (v : ConversationContext) (m : CtxMap.t) :
  CtxMap.get k m = Some v -> In (k, v) m.
Proof.
  induction m as [|[k' v'] m IH]; cbn [CtxMap.get]; [discriminate|].
  destruct (String.eqb k k') eqn:E.
  - apply String.eqb_eq in E. subst k'. intro H. injection H as ->. now left.
  - intro H. right. now apply IH.
Qed.

Lemma ctx_In_get (k : string) (v : ConversationContext) (m : CtxMap.t) :
  NoDup (map fst m) -> In (k, v) m -> CtxMap.get k m = Some v.
Proof.
  induction m as [|[k' v'] m IH]; cbn [map fst CtxMap.get]; intros D H;
    [contradiction|].
  apply NoDup_cons_iff in D. destruct D as [D1 D2].
  destruct H as [H|H].
  - injection H as -> ->. now rewrite String.eqb_refl.
  - destruct (String.eqb k k') eqn:E; [|now apply IH].
    apply String.eqb_eq in E. subst k'. exfalso. apply D1.
    apply in_map_iff. exists (k, v). split; [reflexivity | exact H].
Qed.

Lemma ctx_set_same (k : string) (v : ConversationContext) (m : CtxMap.t) :
  CtxMap.get k m = Some v -> CtxMap.set k v m = m.
Proof.
  induction m as [|[k' v'] m IH]; cbn [CtxMap.get CtxMap.set]; [discriminate|].
  destruct (String.eqb k k'); intro H.
  - now injection H as ->.
  - now rewrite IH.
Qed.

Lemma ctx_keys_set (k : string) (v : ConversationContext) (m : CtxMap.t) :
  map fst (CtxMap.set k v m)
  = match CtxMap.get k m with
    | Some _ => map fst m
    | None => map fst m ++ [k]
    end.
Proof.
  induction m as [|[k' v'] m IH]; cbn [CtxMap.set CtxMap.get map fst app];
    [reflexivity|].
  destruct (String.eqb k k'); cbn [map fst]; [reflexivity|].
  rewrite IH. now destruct (CtxMap.get k m).
Qed.

Lemma ctx_get_none_keys (k : string) (m : CtxMap.t) :
  CtxMap.get k m = None -> ~ In k (map fst m).
Proof.
  induction m as [|[k' v'] m IH]; cbn [CtxMap.get map fst In]; [tauto|].
  destruct (String.eqb k k') eqn:E; [discriminate|].
  apply String.eqb_neq in E. intros H [C|C]; [congruence | now apply IH].
Qed.

Lemma ctx_set_keyed (k : string) (v : ConversationContext) (m : CtxMap.t) :
  participantId v = k -> contexts_keyed m -> contexts_keyed (CtxMap.set k v m).
Proof.
  intros Hv [D F]. split.
  - rewrite ctx_keys_set. destruct (CtxMap.get k m) eqn:G; [exact D|].
    apply NoDup_app_remove_l with (l := @nil string). cbn [app].
    apply (Permutation_NoDup (l := k :: map fst m)).
    + apply Permutation_cons_append.
    + constructor; [now apply ctx_get_none_keys | exact D].
  - clear D. induction m as [|[k' v'] m IH]; cbn [CtxMap.set].
    + constructor; [exact Hv | constructor].
    + apply Forall_cons_iff in F. destruct F as [F1 F2].
      destruct (String.eqb k k') eqn:E.
      * apply String.eqb_eq in E. subst k'. constructor; [exact Hv | exact F2].
      * constructor; [exact F1 | now apply IH].
Qed.

End SoulPieces.

(* ----------------------------------------------------------------- *)
(** ** One exchange, the ranges of a Soul, and persistence *)

Section SoulInvariants.

Import Js Soul.
Open Scope Q_scope.

Lemma getOrCreateContext_keyed (pid pname : string) (s : Soul.t) :
  contexts_keyed (conversationContexts s) ->
  let r := getOrCreateContext pid pname s in
  contexts_keyed (fst r)
  /\ participantId (snd r) = pid
  /\ CtxMap.get pid (fst r) = Some (snd r).
Proof.
  intros K. unfold getOrCreateContext.
  destruct (CtxMap.get pid (conversationContexts s)) as [c|] eqn:G; cbn [fst snd].
  - split; [exact K|]. split; [|exact G].
    destruct K as [_ F]. rewrite Forall_forall in F.
    exact (F (pid, c) (ctx_get_In pid c _ G)).
  - split; [|split].
    + apply ctx_set_keyed; [reflexivity | exact K].
    + reflexivity.
    + apply ctx_get_set_same.
Qed.

Lemma getOrCreateContext_frame (pid pname q : string) (s : Soul.t) :
  q <> pid ->
  CtxMap.get q (fst (getOrCreateContext pid pname s))
  = CtxMap.get q (conversationContexts s).
Proof.
  intro N. unfold getOrCreateContext.
  destruct (CtxMap.get pid (conversationContexts s)); cbn [fst]; [reflexivity|].
  now apply ctx_get_set_other.
Qed.

Lemma generateThoughts_state (env : RespondEnv) (input : string) (s : Soul.t) :
  MoodEngine.emotionalState (fst (fst (generateThoughts env input s)))
  = MoodEngine.emotionalState (moodEngine s).
Proof.
  unfold generateThoughts.
  pose proof (generateInternalMonologue_state
                (env_spontaneous_thought env) (env_now env) (env_random env)
                (moodEngine s)) as [M _].
  destruct (gtb (inject_Z (env_now env - lastThoughtTime s)) (thoughtFrequency s * 1000)).
  - destruct (MoodEngine.generateInternalMonologue
                (env_spontaneous_thought env) (env_now env) (env_random env)
                (moodEngine s)) as [me' [th|]]; cbn [fst] in M;
      destruct (includes input "?"); cbn [fst]; try exact M;
      (etransitivity; [apply addThought_bounded | exact M]).
  - destruct (includes input "?"); cbn [fst]; [|reflexivity].
    apply addThought_bounded.
Qed.

(** The components of the Soul after [respond]. *)
Lemma respond_parts (env : RespondEnv) (input pid pname : string) (s : Soul.t) :
  let r := respond env input pid pname s in
  let impact := analyzeEmotionalImpact input in
  let goc := getOrCreateContext pid pname s in
  let exchange :=
    [mkHistoryEntry pname input (env_now env) (Some (impact_name (impact_type impact)));
     mkHistoryEntry (name (identity s)) (response (snd r)) (env_now env) None] in
  let hist := (history (snd goc) ++ exchange)%list in
  (exists text1 text2 tags1 tags2,
      memorySystem (fst r)
      = fst (MemorySystem.store (env_response_memory env) (env_now env) text2 episodic
               40 (emotionalWeight impact * 0.5) tags2
               (fst (MemorySystem.store (env_input_memory env) (env_now env) text1 episodic
                       (impact_importance impact) (emotionalWeight impact) tags1
                       (memorySystem s)))))
  /\ MoodEngine.emotionalState (moodEngine (fst r))
     = MoodEngine.emotionalState
         (MoodEngine.updateMood (env_mood_thought env) (env_now env)
            (MoodEngine.mkStimulus (impact_type impact) (impact_intensity impact)
               (Some ("conversation with " ++ pname)%string))
            (moodEngine s))
  /\ personalitySystem (fst r) = personalitySystem s
  /\ empathyLevel (fst r) = empathyLevel s
  /\ conversationContexts (fst r)
     = CtxMap.set pid
         (mkContext (participantId (snd goc)) (participantName (snd goc))
            (relationship (snd goc))
            (if (20 <? List.length hist)%nat then slice_last 10 hist else hist))
         (fst goc).
Proof.
  cbv zeta. unfold respond.
  destruct (getOrCreateContext pid pname s) as [ctxs1 ctx].
  unfold MemorySystem.store at 1. cbv zeta.
  match goal with
  | |- context [generateThoughts env input ?x] =>
      pose proof (generateThoughts_state env input x) as G;
      destruct (generateThoughts env input x) as [[me2 last2] ths]
  end.
  cbn [fst snd memorySystem moodEngine personalitySystem empathyLevel
       conversationContexts response] in *.
  split; [|split; [exact G | split; [reflexivity | split; reflexivity]]].
  do 4 eexists. reflexivity.
Qed.

Lemma history_trim (old exchange : list HistoryEntry) :
  List.length exchange = 2%nat ->
  let hist := (old ++ exchange)%list in
  let kept := if (20 <? List.length hist)%nat then slice_last 10 hist else hist in
  (List.length kept <= 20)%nat
  /\ exists older, kept = (older ++ exchange)%list.
Proof.
  intros L hist kept. subst kept.
  destruct (20 <? List.length hist)%nat eqn:E.
  - apply Nat.ltb_lt in E. split.
    + rewrite slice_last_length; lia.
    + unfold slice_last. subst hist. rewrite length_app in *. rewrite L in *.
      rewrite skipn_app.
      replace (List.length old + 2 - 10 - List.length old)%nat with 0%nat by lia.
      cbn [skipn]. eexists. reflexivity.
  - apply Nat.ltb_ge in E. split; [exact E|]. exists old. reflexivity.
Qed.

(** X22. One call of [respond] leaves, under the participant's
    identifier, a context whose history has at most 20 entries and ends
    with the two entries of this exchange: the input with the label of
    its polarity, then the returned response under the Soul's name.
    The context of every other participant is as it was. *)
Theorem respond_records_exchange :
  forall (env : RespondEnv) (input pid pname : string) (s : Soul.t),
    let r := respond env input pid pname s in
    (exists ctx older,
        CtxMap.get pid (conversationContexts (fst r)) = Some ctx
        /\ (List.length (history ctx) <= 20)%nat
        /\ history ctx
           = (older ++
              [mkHistoryEntry pname input (env_now env)
                 (Some (impact_name (impact_type (analyzeEmotionalImpact input))));
               mkHistoryEntry (name (identity s)) (response (snd r)) (env_now env) None])%list)
    /\ (forall q : string,
           q <> pid ->
           CtxMap.get q (conversationContexts (fst r))
           = CtxMap.get q (conversationContexts s)).
Proof.
  intros env input pid pname s r.
  destruct (respond_parts env input pid pname s) as (_ & _ & _ & _ & C).
  fold r in C. split.
  - rewrite C. rewrite ctx_get_set_same.
    match type of C with
    | _ = CtxMap.set _ (mkContext _ _ _ (if (20 <? List.length (?o ++ ?e))%nat then _ else _)) _ =>
        destruct (history_trim o e eq_refl) as [B [older O]]
    end.
    eexists. exists older. split; [reflexivity|]. cbn [history]. split; [exact B | exact O].
  - intros q N. rewrite C. rewrite ctx_get_set_other by exact N.
    now apply getOrCreateContext_frame.
Qed.

Lemma reflect_parts (mid : nat) (now : Z) (s : Soul.t) :
  let r := fst (reflect mid now s) in
  (exists text tgs,
      memorySystem r
      = fst (MemorySystem.store mid now text semantic 60 10 tgs (memorySystem s)))
  /\ (exists changes,
         personalitySystem r
         = PersonalitySystem.updateBigFive changes (personalitySystem s))
  /\ moodEngine r = moodEngine s
  /\ empathyLevel r = empathyLevel s
  /\ conversationContexts r = conversationContexts s.
Proof.
  cbv zeta. unfold reflect, adaptPersonality.
  cbn [fst memorySystem moodEngine personalitySystem empathyLevel conversationContexts
       set_memorySystem set_personalitySystem].
  split; [do 2 eexists; reflexivity|].
  split; [eexists; reflexivity|]. repeat split.
Qed.

Lemma soul_step_in_range (s s' : Soul.t) :
  Soul.step s s' -> Soul.in_range s -> Soul.in_range s'.
Proof.
  intros S (R & M & T & E & K).
  destruct S as [env input pid pname s | mid now s | mid now nn nr s | tid now m s
                | level s | p s Hp | tid now chance rnd minutes s Hm].
  - destruct (respond_parts env input pid pname s) as ((t1 & t2 & g1 & g2 & Ms) & Me & P & Em & C).
    destruct (analyzeEmotionalImpact_bounds input) as (I1 & I2 & I3).
    destruct (getOrCreateContext_keyed pid pname s K) as (K1 & K2 & _).
    unfold Soul.in_range. rewrite Ms, Me, P, Em, C.
    split; [|split; [|split; [exact T | split; [exact E|]]]].
    + apply store_in_range; [split; discriminate | lra |].
      apply store_in_range; [lra | lra | exact R].
    + apply updateMood_in_range; [cbn [MoodEngine.intensity]; lra | exact M].
    + apply ctx_set_keyed; [exact K2 | exact K1].
  - destruct (reflect_parts mid now s) as ((text & tgs & Ms) & (ch & P) & Me & Em & C).
    unfold Soul.in_range. rewrite Ms, Me, P, Em, C.
    split; [|split; [exact M | split; [|split; [exact E | exact K]]]].
    + apply store_in_range; [split; discriminate | split; discriminate | exact R].
    + now apply updateBigFive_in_range.
  - unfold Soul.in_range, withIdentity.
    cbn [memorySystem moodEngine personalitySystem empathyLevel conversationContexts].
    split; [|tauto].
    apply store_in_range; [split; discriminate | split; discriminate | exact R].
  - unfold Soul.in_range, withMood, set_moodEngine.
    cbn [memorySystem moodEngine personalitySystem empathyLevel conversationContexts].
    split; [exact R|]. split; [|tauto].
    apply updateMood_in_range; [cbn [MoodEngine.intensity]; discriminate | exact M].
  - unfold Soul.in_range, withEmpathy.
    cbn [memorySystem moodEngine personalitySystem empathyLevel conversationContexts].
    pose proof (clamp_in_range level). tauto.
  - unfold Soul.in_range, withPersonality, set_personalitySystem.
    cbn [memorySystem moodEngine personalitySystem empathyLevel conversationContexts].
    split; [exact R|]. split; [exact M|]. split; [exact Hp | tauto].
  - unfold Soul.in_range, simulateTimePassage, set_moodEngine.
    cbn [memorySystem moodEngine personalitySystem empathyLevel conversationContexts].
    split; [exact R|]. split; [|tauto].
    assert (M1 : MoodEngine.scalars_in_range
                   (MoodEngine.emotionalState
                      (MoodEngine.simulateTimePassage now minutes (moodEngine s)))).
    { apply (step_in_range (moodEngine s)); [|exact M].
      now apply MoodEngine.step_simulateTimePassage. }
    destruct (ltb chance 0.3); [|exact M1].
    destruct (generateInternalMonologue_state tid now rnd
                (MoodEngine.simulateTimePassage now minutes (moodEngine s))) as [Eq _].
    rewrite Eq. exact M1.
Qed.

(** X23. A Soul made by [new Soul()] keeps the documented ranges under
    [respond], [reflect], [withIdentity], [withMood], [withEmpathy],
    [withPersonality] with traits in range and [simulateTimePassage] of
    a non-negative number of minutes: every memory record has its
    importance between 0 and 100 and its emotional weight between -100
    and 100, the four scalars of the emotional state, the five traits
    and the empathy level are between 0 and 100, and each conversation
    context is stored once, under its own participant identifier. *)
Theorem reachable_soul_in_range (s : Soul.t) :
  Soul.reachable s -> Soul.in_range s.
Proof.
  induction 1 as [sid mid now | s s' R IH S].
  - unfold Soul.in_range, Soul.new.
    cbn [memorySystem moodEngine personalitySystem empathyLevel conversationContexts
         opt_bind num_or nat_or].
    split; [|split; [|split; [|split; [|split]]]].
    + apply store_in_range; [split; discriminate | split; discriminate |].
      repeat split; constructor.
    + unfold MoodEngine.scalars_in_range. cbn. repeat split; discriminate.
    + intro t. destruct t; cbn; split; discriminate.
    + split; discriminate.
    + constructor.
    + constructor.
  - exact (soul_step_in_range s s' S IH).
Qed.

Lemma reachable_soul_in_range_witness :
  let s := fst (respond (mkEnv 1000 1 2 3 4 5 (1#2)) "I love this" "user" "User"
                  (Soul.new 0 0 0 None)) in
  Soul.reachable s /\ Soul.in_range s.
Proof.
  intro s.
  assert (R : Soul.reachable s).
  { apply Soul.reachable_step with (s := Soul.new 0 0 0 None).
    - apply Soul.reachable_new.
    - apply Soul.step_respond. }
  split; [exact R|].
  exact (reachable_soul_in_range s R).
Defined.

Lemma import_contexts_fixed (m : CtxMap.t) (l : list ConversationContext) :
  (forall c, In c l -> CtxMap.get (participantId c) m = Some c) ->
  fold_left (fun m c => CtxMap.set (participantId c) c m) l m = m.
Proof.
  induction l as [|c l IH]; intro H; [reflexivity|].
  cbn [fold_left]. rewrite ctx_set_same by (apply H; now left).
  apply IH. intros c' Hc'. apply H. now right.
Qed.

(** X24. Where each conversation context is stored once and under its
    own participant identifier, importing a Soul's own export leaves
    the conversation contexts, the five traits, the identity, the
    empathy level and the learning rate as they are, and sets the
    adaptation rate of the personality to the learning rate. *)
Theorem import_export_keeps_contexts_and_traits (s : Soul.t) :
  contexts_keyed (conversationContexts s) ->
  let s' := Soul.import (Soul.export s) s in
  conversationContexts s' = conversationContexts s
  /\ PersonalitySystem.getBigFive (personalitySystem s')
     = PersonalitySystem.getBigFive (personalitySystem s)
  /\ PersonalitySystem.adaptationRate (personalitySystem s') = learningRate s
  /\ identity s' = identity s
  /\ empathyLevel s' = empathyLevel s
  /\ learningRate s' = learningRate s.
Proof.
  intros [D F] s'. subst s'. unfold Soul.import, Soul.export.
  cbn [conversationContexts personalitySystem identity empathyLevel learningRate
       snap_conversationContexts snap_personality snap_learningRate snap_identity
       snap_empathyLevel].
  split; [|split; [|repeat split]].
  - apply import_contexts_fixed. intros c Hc. unfold CtxMap.values in Hc.
    apply in_map_iff in Hc. destruct Hc as ([k c'] & Hc & Hin). cbn [snd] in Hc. subst c'.
    rewrite Forall_forall in F. pose proof (F (k, c) Hin) as Fk. cbn [fst snd] in Fk.
    rewrite Fk. now apply ctx_In_get.
  - unfold PersonalitySystem.getBigFive, PersonalitySystem.new, PersonalitySystem.getConfig.
    cbn [PersonalitySystem.config bigFive].
    now destruct (bigFive (PersonalitySystem.config (personalitySystem s))).
Qed.

Lemma import_export_keeps_contexts_and_traits_witness :
  let s := fst (respond (mkEnv 1000 1 2 3 4 5 (1#2)) "I love this" "user" "User"
                  (Soul.new 0 0 0 None)) in
  contexts_keyed (conversationContexts s)
  /\ conversationContexts (Soul.import (Soul.export s) s) = conversationContexts s.
Proof.
  intro s.
  assert (K : contexts_keyed (conversationContexts s)).
  { split.
    - vm_compute. constructor; [intros [] | constructor].
    - vm_compute. constructor; [reflexivity | constructor]. }
  split; [exact K|].
  exact (proj1 (import_export_keeps_contexts_and_traits s K)).
Defined.

Lemma respond_mood (env : RespondEnv) (input pid pname : string) (s : Soul.t) :
  response_mood (snd (respond env input pid pname s))
  = mood (MoodEngine.emotionalState (moodEngine (fst (respond env input pid pname s)))).
Proof.
  unfold respond.
  destruct (getOrCreateContext pid pname s) as [ctxs1 ctx].
  unfold MemorySystem.store at 1. cbv zeta.
  match goal with
  | |- context [generateThoughts env input ?x] =>
      destruct (generateThoughts env input x) as [[me2 last2] ths]
  end.
  reflexivity.
Qed.

Lemma calculateMoodFromState_with_mood (m : MoodState) (es : EmotionalState) :
  MoodEngine.calculateMoodFromState (MoodEngine.with_mood m es)
  = MoodEngine.calculateMoodFromState es.
Proof. destruct es. reflexivity. Qed.

(** X25. The mood that [respond] returns is the mood of the emotional
    state it leaves, and that mood is the classification of the four
    scalars of this state by [calculateMoodFromState]: the thoughts
    generated after the mood update do not change it. *)
Theorem respond_mood_classifies_state :
  forall (env : RespondEnv) (input pid pname : string) (s : Soul.t),
    let r := respond env input pid pname s in
    let es := MoodEngine.emotionalState (moodEngine (fst r)) in
    response_mood (snd r) = mood es
    /\ mood es = MoodEngine.calculateMoodFromState es.
Proof.
  intros env input pid pname s r es. subst r es.
  split; [apply respond_mood|].
  destruct (respond_parts env input pid pname s) as (_ & Me & _).
  rewrite Me, updateMood_state. cbv zeta.
  rewrite calculateMoodFromState_with_mood.
  unfold MoodEngine.with_mood. reflexivity.
Qed.

End SoulInvariants.

(* ----------------------------------------------------------------- *)
(** ** Recall without a match, and the summaries of [reflect] *)

Section RecallAndReflection.

Import Js Soul.
Open Scope Q_scope.

Lemma relevance_at_least_half_importance (now : Z) (m : Memory) (q : string) :
  0.5 * importance m <= MemorySystem.calculateRelevance now m q.
Proof.
  rewrite calculateRelevance_sum. unfold MemorySystem.relevance_sum.
  assert (0 <= MemorySystem.recencyBonus now m)
    by (unfold MemorySystem.recencyBonus, Math_max; apply Q.le_max_l).
  pose proof (of_nat_nonneg
                (List.length (filter (fun tag => MemorySystem.matches tag q) (tags m)))).
  destruct (MemorySystem.matches (mem_content m) q); lra.
Qed.

(** X26. [recall] does not select by the query: a record of the index
    whose importance is at least 1 and at least [minImportance] is
    returned for every query text, whenever [limit] is at least the
    number of records of the index; half its importance is a score of
    at least 0.5, which passes the test [relevance > 0] without any
    match. *)
Theorem recall_returns_records_that_do_not_match
    (now : Z) (q : string) (limit : Z) (minImportance : Q)
    (ms : MemorySystem.t) (m : Memory) :
  In m (IdMap.values (MemorySystem.memories ms)) ->
  1 <= importance m ->
  minImportance <= importance m ->
  (Z.of_nat (List.length (IdMap.values (MemorySystem.memories ms))) <= limit)%Z ->
  In m (MemorySystem.recall now q limit minImportance ms).
Proof.
  intros Hin Hpos Hmin Hlim. rewrite recall_unfold.
  set (sc := MemorySystem.scored now q minImportance ms).
  assert (Hs : In (m, MemorySystem.calculateRelevance now m q) sc).
  { apply scored_In. split; [exact Hin|]. split; [exact Hmin|]. split; [reflexivity|].
    pose proof (relevance_at_least_half_importance now m q). lra. }
  assert (Hlen : (List.length (sort_desc snd sc)
                  <= List.length (IdMap.values (MemorySystem.memories ms)))%nat).
  { rewrite (Permutation_length (@sort_desc_perm _ snd sc)).
    unfold sc, MemorySystem.scored.
    eapply Nat.le_trans; [apply filter_length_le|]. rewrite length_map.
    apply filter_length_le. }
  unfold slice_to.
  assert (L : (limit <? 0)%Z = false) by (apply Z.ltb_ge; lia).
  rewrite L. rewrite firstn_all2 by lia.
  apply in_map_iff. exists (m, MemorySystem.calculateRelevance now m q).
  split; [reflexivity|].
  apply (Permutation_in _ (Permutation_sym (@sort_desc_perm _ snd sc))). exact Hs.
Qed.

Lemma recall_returns_records_that_do_not_match_witness :
  let m := mkMemory 1 "The cat sat" episodic 50 0 0 [] [] in
  let ms := fst (MemorySystem.store 1 0 "The cat sat" episodic 50 0 [] (MemorySystem.new 50 1000)) in
  In m (IdMap.values (MemorySystem.memories ms))
  /\ 1 <= importance m
  /\ 0 <= importance m
  /\ (Z.of_nat (List.length (IdMap.values (MemorySystem.memories ms))) <= 10)%Z
  /\ In m (MemorySystem.recall 0 "dog" 10 0 ms).
Proof.
  intros m ms.
  assert (H1 : In m (IdMap.values (MemorySystem.memories ms))) by (left; reflexivity).
  assert (H2 : 1 <= importance m) by discriminate.
  assert (H3 : 0 <= importance m) by discriminate.
  assert (H4 : (Z.of_nat (List.length (IdMap.values (MemorySystem.memories ms))) <= 10)%Z)
    by (vm_compute; discriminate).
  split; [exact H1|]. split; [exact H2|]. split; [exact H3|]. split; [exact H4|].
  exact (recall_returns_records_that_do_not_match 0 "dog" 10 0 ms m H1 H2 H3 H4).
Defined.

Lemma MoodState_eqb_refl (m : MoodState) : MoodState_eqb m m = true.
Proof. now apply MoodState_eqb_eq. Qed.

Lemma MoodState_eqb_neq (a b : MoodState) : a <> b -> MoodState_eqb a b = false.
Proof.
  intro N. destruct (MoodState_eqb a b) eqn:E; [|reflexivity].
  apply MoodState_eqb_eq in E. contradiction.
Qed.

Lemma count_mood_keys (m : MoodState) (c : list (MoodState * nat)) :
  map fst (count_mood m c)
  = if existsb (MoodState_eqb m) (map fst c) then map fst c
    else (map fst c ++ [m])%list.
Proof.
  induction c as [|[k n] c IH]; cbn [count_mood map fst existsb app]; [reflexivity|].
  destruct (MoodState_eqb m k); cbn [orb map fst]; [reflexivity|].
  rewrite IH. now destruct (existsb (MoodState_eqb m) (map fst c)).
Qed.

Lemma existsb_mood (m : MoodState) (l : list MoodState) :
  existsb (MoodState_eqb m) l = true <-> In m l.
Proof.
  rewrite existsb_exists. split.
  - intros (x & Hx & E). apply MoodState_eqb_eq in E. now subst x.
  - intro H. exists m. split; [exact H | apply MoodState_eqb_refl].
Qed.

Lemma count_mood_nodup (m : MoodState) (c : list (MoodState * nat)) :
  NoDup (map fst c) -> NoDup (map fst (count_mood m c)).
Proof.
  intro D. rewrite count_mood_keys.
  destruct (existsb (MoodState_eqb m) (map fst c)) eqn:E; [exact D|].
  apply NoDup_app_remove_l with (l := @nil MoodState). cbn [app].
  apply (Permutation_NoDup (l := m :: map fst c)); [apply Permutation_cons_append|].
  constructor; [|exact D]. intro H. apply existsb_mood in H. congruence.
Qed.

Lemma count_mood_In (m : MoodState) (c : list (MoodState * nat)) (k : MoodState) (n : nat) :
  NoDup (map fst c) ->
  In (k, n) (count_mood m c) ->
  (k <> m /\ In (k, n) c)
  \/ (k = m /\ ((exists n0, n = S n0 /\ In (m, n0) c)
               \/ (n = 1%nat /\ ~ In m (map fst c)))).
Proof.
  induction c as [|[k' n'] c IH]; cbn [count_mood map fst In]; intros D H.
  - destruct H as [H|[]]. injection H as <- <-. right. split; [reflexivity|].
    right. split; [reflexivity | tauto].
  - apply NoDup_cons_iff in D. destruct D as [D1 D2].
    destruct (MoodState_eqb m k') eqn:E.
    + apply MoodState_eqb_eq in E. subst k'. destruct H as [H|H].
      * injection H as <- <-. right. split; [reflexivity|]. left.
        exists n'. split; [reflexivity | now left].
      * left. split; [|now right]. intros ->. apply D1.
        apply in_map_iff. exists (m, n). split; [reflexivity | exact H].
    + destruct H as [H|H].
      * injection H as <- <-. left. split; [|now left].
        intros ->. rewrite MoodState_eqb_refl in E. discriminate.
      * destruct (IH D2 H) as [[N I]|[-> [(n0 & -> & I)|[-> I]]]].
        -- left. split; [exact N | now right].
        -- right. split; [reflexivity|]. left. exists n0. split; [reflexivity | now right].
        -- right. split; [reflexivity|]. right. split; [reflexivity|].
           intros [C|C]; [|contradiction].
           subst k'. rewrite MoodState_eqb_refl in E. discriminate.
Qed.

Lemma occurrences_snoc (k m : MoodState) (l : list MoodState) :
  List.length (filter (MoodState_eqb k) (l ++ [m]))
  = (List.length (filter (MoodState_eqb k) l)
     + (if MoodState_eqb k m then 1 else 0))%nat.
Proof.
  rewrite filter_app, length_app. cbn [filter].
  now destruct (MoodState_eqb k m).
Qed.

Lemma occurrences_zero (k : MoodState) (l : list MoodState) :
  ~ In k l -> List.length (filter (MoodState_eqb k) l) = 0%nat.
Proof.
  intro N. induction l as [|x l IH]; [reflexivity|]. cbn [filter].
  rewrite MoodState_eqb_neq by (intros ->; apply N; now left).
  apply IH. intro H. apply N. now right.
Qed.

Lemma occurrences_positive (k : MoodState) (l : list MoodState) :
  In k l -> (0 < List.length (filter (MoodState_eqb k) l))%nat.
Proof.
  intro H. assert (F : In k (filter (MoodState_eqb k) l))
    by (apply filter_In; split; [exact H | apply MoodState_eqb_refl]).
  destruct (filter (MoodState_eqb k) l); [contradiction | cbn; lia].
Qed.

(** What the tally of [analyzeMoodTrends] holds after the moods [l]. *)
Lemma tally_counts (l : list MoodState) :
  forall (done : list MoodState) (c : list (MoodState * nat)),
    NoDup (map fst c) ->
    (forall k n, In (k, n) c ->
                 n = List.length (filter (MoodState_eqb k) done) /\ In k done) ->
    (forall k, In k done -> In k (map fst c)) ->
    let c' := fold_left (fun c m => count_mood m c) l c in
    NoDup (map fst c')
    /\ (forall k n, In (k, n) c' ->
                    n = List.length (filter (MoodState_eqb k) (done ++ l)) /\ In k (done ++ l))
    /\ (forall k, In k (done ++ l) -> In k (map fst c')).
Proof.
  induction l as [|m l IH]; intros done c D S C; cbn [fold_left].
  - rewrite app_nil_r. tauto.
  - replace (done ++ m :: l)%list with ((done ++ [m]) ++ l)%list
      by (rewrite <- app_assoc; reflexivity).
    apply IH.
    + now apply count_mood_nodup.
    + intros k n H.
      destruct (count_mood_In m c k n D H) as [[N I]|[-> [(n0 & -> & I)|[-> I]]]].
      * destruct (S k n I) as [E Hk]. rewrite occurrences_snoc.
        rewrite (MoodState_eqb_neq k m N). split; [lia | apply in_or_app; now left].
      * destruct (S m n0 I) as [E Hk]. rewrite occurrences_snoc, MoodState_eqb_refl.
        split; [lia | apply in_or_app; now left].
      * rewrite occurrences_snoc, MoodState_eqb_refl.
        rewrite occurrences_zero by (intro H'; apply I; now apply C).
        split; [reflexivity | apply in_or_app; right; now left].
    + intros k H. rewrite count_mood_keys.
      apply in_app_or in H.
      destruct (existsb (MoodState_eqb m) (map fst c)) eqn:E.
      * destruct H as [H|[<-|[]]]; [now apply C | now apply existsb_mood].
      * apply in_or_app. destruct H as [H|H]; [left; now apply C | now right].
Qed.

(** X27. Given at least two entries, [analyzeMoodTrends] names a mood
    that occurs among the last five entries of the history it is given,
    and no mood occurs more often among these entries. *)
Theorem analyzeMoodTrends_names_most_frequent (moodHist : list (MoodState * Z)) :
  (2 <= List.length moodHist)%nat ->
  let recent := map fst (slice_last 5 moodHist) in
  exists dominant : MoodState,
    analyzeMoodTrends moodHist
    = ("Recently, I've been predominantly " ++ MoodState_name dominant)%string
    /\ In dominant recent
    /\ forall m : MoodState,
         (List.length (filter (MoodState_eqb m) recent)
          <= List.length (filter (MoodState_eqb dominant) recent))%nat.
Proof.
  intros L recent. unfold analyzeMoodTrends.
  assert (E : (List.length moodHist <? 2)%nat = false) by (apply Nat.ltb_ge; lia).
  rewrite E. fold recent.
  destruct (tally_counts recent [] [] (NoDup_nil _)
              (fun k n (H : In (k, n) []) => match H with end)
              (fun k (H : In k []) => match H with end)) as (D & S & C).
  cbn [app] in S, C.
  set (c := fold_left (fun c m => count_mood m c) recent []) in *.
  pose proof (@sort_desc_perm _ (fun e : MoodState * nat => of_nat (snd e)) c) as P.
  pose proof (@sort_desc_sorted _ (fun e : MoodState * nat => of_nat (snd e)) c) as Srt.
  destruct (sort_desc (fun e : MoodState * nat => of_nat (snd e)) c) as [|[d n] rest] eqn:Es.
  - exfalso. apply Permutation_nil in P.
    assert (N : recent <> []).
    { unfold recent, slice_last. intro H. apply map_eq_nil in H.
      apply (f_equal (@List.length _)) in H. rewrite length_skipn in H. cbn in H. lia. }
    destruct recent as [|x r]; [congruence|].
    specialize (C x (or_introl eq_refl)). rewrite P in C. exact C.
  - exists d. split; [reflexivity|].
    assert (Hd : In (d, n) c) by (apply (Permutation_in _ P); now left).
    destruct (S d n Hd) as [En Hin]. split; [exact Hin|].
    intro m.
    destruct (List.length (filter (MoodState_eqb m) recent)) as [|k] eqn:Em; [lia|].
    assert (Hm : In m recent).
    { destruct (existsb (MoodState_eqb m) recent) eqn:X; [now apply existsb_mood|].
      assert (I : ~ In m recent)
        by (intro I; apply existsb_mood in I; congruence).
      rewrite (occurrences_zero m recent I) in Em. discriminate. }
    apply C in Hm. apply in_map_iff in Hm. destruct Hm as ([m' n'] & Ek & Hc).
    cbn [fst] in Ek. subst m'.
    destruct (S m n' Hc) as [En' _]. rewrite Em in En'. rewrite <- En', <- En.
    apply (Permutation_in _ (Permutation_sym P)) in Hc.
    destruct Hc as [Hc|Hc]; [injection Hc as _ <-; lia|].
    unfold descending in Srt. apply StronglySorted_inv in Srt. destruct Srt as [_ F].
    rewrite Forall_forall in F. specialize (F (m, n') Hc). cbn [snd] in F.
    unfold of_nat in F. rewrite <- Zle_Qle in F. lia.
Qed.

Lemma analyzeMoodTrends_names_most_frequent_witness :
  let h := [(neutral, 0%Z); (joyful, 5%Z); (joyful, 9%Z)] in
  (2 <= List.length h)%nat
  /\ exists dominant : MoodState,
       analyzeMoodTrends h
       = ("Recently, I've been predominantly " ++ MoodState_name dominant)%string
       /\ In dominant (map fst (slice_last 5 h))
       /\ forall m : MoodState,
            (List.length (filter (MoodState_eqb m) (map fst (slice_last 5 h)))
             <= List.length (filter (MoodState_eqb dominant) (map fst (slice_last 5 h))))%nat.
Proof.
  intro h.
  assert (L : (2 <= List.length h)%nat) by (cbn; lia).
  split; [exact L|].
  exact (analyzeMoodTrends_names_most_frequent h L).
Defined.

(** X28. [generateInsights] returns one or two insights, never none;
    the default insight is returned exactly when at most three of the
    given memories have an emotional weight above 50 in absolute value
    and at most two of the given thoughts are reflections, and it is
    then the only one. *)
Theorem generateInsights_one_or_two :
  forall (mems : list Memory) (ths : list Thought),
    let r := generateInsights mems ths in
    let emotional := filter (fun m => gtb (Qabs (emotional_weight m)) 50) mems in
    let reflective := filter (fun th => ThoughtType_is_reflection (thought_type th)) ths in
    (1 <= List.length r <= 2)%nat
    /\ (((List.length emotional <= 3)%nat /\ (List.length reflective <= 2)%nat)
        <-> r = ["I'm continuing to learn and grow from my experiences"%string])
    /\ (In "I've been having many emotionally significant experiences lately"%string r
        <-> (3 < List.length emotional)%nat)
    /\ (In "I've been doing a lot of reflecting recently"%string r
        <-> (2 < List.length reflective)%nat).
Proof.
  intros mems ths r emotional reflective. subst r. unfold generateInsights.
  fold emotional. fold reflective.
  destruct (3 <? List.length emotional)%nat eqn:E1;
    destruct (2 <? List.length reflective)%nat eqn:E2;
    [apply Nat.ltb_lt in E1 | apply Nat.ltb_lt in E1 | apply Nat.ltb_ge in E1
     | apply Nat.ltb_ge in E1];
    [apply Nat.ltb_lt in E2 | apply Nat.ltb_ge in E2 | apply Nat.ltb_lt in E2
     | apply Nat.ltb_ge in E2];
    cbn [app List.length In];
    (split; [lia|]);
    (split; [split; [intros [H1 H2]; first [reflexivity | lia]
                    | intro H; first [discriminate H | split; lia]]|]);
    split; split; intro H;
    repeat match goal with
           | D : _ \/ _ |- _ => destruct D as [D|D]
           | D : @eq string _ _ |- _ => discriminate D
           end;
    first [lia | contradiction | now left | right; now left].
Qed.

End RecallAndReflection.
